(** * Dishwasher controller (src/main.cpp): a shallow embedding and its properties

    The firmware is a single-threaded Arduino sketch.  Its only state is the
    hardware: the millisecond clock, the output pins and what the sensors
    show.  The embedding threads that state explicitly:

    - [World] holds the clock ([now], in ms since power-up, unbounded), the
      level of every output pin ([outs]) and the chronological list of the
      I/O calls made so far ([log]);
    - [Sensors] is the environment: what a digital or analog input shows at a
      given instant, given the levels the firmware currently drives;
    - void procedures that cannot fail are state transformers
      [World -> World]; reads return a value and the new state; procedures
      that can end in [crash] run in the monad [M].

    Timing: [delay ms] advances the clock by [ms]; every other call
    (digitalWrite, digitalRead, analogRead, tone, millis) takes no time.
    [millis()] is the clock truncated to an [unsigned long] (32 bits), and
    differences of two readings wrap modulo 2^32 as in the C code.

    [crash] never returns in the C code (it beeps for ever after
    [reset(500)]); here it ends the run with the outcome [Halted issue] in
    the state reached after [reset(500)].

    The [while] loops take a [fuel] argument, the number of passes they may
    make, and end in [OutOfFuel] when it is used up.  The loops of [load]
    are shown to end within 20001 passes whatever the sensors do; the wash
    loop of [cycle] need not end.

    Integers are [Z].  The values that the C code keeps in an
    [unsigned long] are reduced modulo 2^32 where the code computes them;
    the [int] arguments of [reset] and [beep] and the [long] target
    temperature are the small constants of the call sites and are not
    reduced. *)

From Stdlib Require Import ZArith List Bool Lia QArith.
Import ListNotations.
Open Scope Z_scope.

(** ** Pins, levels and constants *)

Inductive Pin : Type :=
  | WATER_LOAD_PIN | MAIN_PUMP_PIN | DRAIN_PIN | SOAP_PIN | HEATER_PIN
  | WATER_DISABLED_PIN | TEMP_SENSOR
  | LED_PIN | SPEAKER_PIN | SWITCH_PIN.

Definition Pin_eq_dec (p q : Pin) : {p = q} + {p <> q}.
Proof. decide equality. Defined.

Definition HIGH : bool := true.
Definition LOW : bool := false.

Definition GENERIC_ISSUE : Z := 1.
Definition DRAIN_ISSUE : Z := 2.
Definition FAILED_LOAD_ISSUE : Z := 3.
Definition FAILED_TOP_UP_ISSUE : Z := 4.
Definition FAILED_REACH_TEMP : Z := 5.

Definition WELCOME_MSG : Z := 2.
Definition LOAD_MSG : Z := 3.
Definition DRAIN_MSG : Z := 4.

Definition DRAIN_TIME : Z := 22000.
Definition LOAD_TIMEOUT : Z := 200000.
Definition HEATER_TIMEOUT : Z := 600000.

Definition RELAY_MODULE_OFF : bool := HIGH.
Definition RELAY_MODULE_ON : bool := LOW.
Definition LED_OFF : bool := HIGH.
Definition LED_ON : bool := LOW.

(** ** Machine arithmetic *)

(** Conversion to [unsigned long] (32 bits on the AVR boards). *)
Definition ulong (z : Z) : Z := z mod 2 ^ 32.

(** [a - b] on two [unsigned long] values. *)
Definition usub (a b : Z) : Z := ulong (a - b).

(** [a * b] on two [unsigned long] values. *)
Definition umul (a b : Z) : Z := ulong (a * b).

Arguments ulong : simpl never.
Arguments usub : simpl never.
Arguments umul : simpl never.

(** The two comparisons of [load] that involve [1.5] are made in floating
    point in the C code.  They are modelled on the rationals: both operands
    are integers below 2^23 in every run of [load] (the measured load time is
    below 200030), where the conversion is exact and the rounded quotient or
    product lies on the same side of every integer as the exact one. *)
Definition real_of (z : Z) : Q := inject_Z z.
Definition real_lt (a b : Q) : bool := negb (Qle_bool b a).
Definition one_and_a_half : Q := 3 # 2.

(** ** Hardware state and environment *)

Inductive Event : Type :=
  | EvWrite (p : Pin) (level : bool)
  | EvRead (p : Pin) (level : bool)
  | EvAnalog (p : Pin) (value : Z)
  | EvTone (p : Pin) (frequency duration : Z)
  | EvDelay (ms : Z).

Record World : Type := mkWorld {
  now : Z;
  outs : Pin -> bool;
  log : list Event
}.

Record Sensors : Type := mkSensors {
  digital_in : Pin -> Z -> (Pin -> bool) -> bool;
  analog_in : Pin -> Z -> (Pin -> bool) -> Z
}.

(** ** Outcomes and the monad of fallible procedures *)

Inductive Outcome (A : Type) : Type :=
  | Done (a : A)
  | Halted (issue : Z)
  | OutOfFuel.
Arguments Done {A} a.
Arguments Halted {A} issue.
Arguments OutOfFuel {A}.

Definition M (A : Type) : Type := World -> Outcome A * World.

Definition ret {A : Type} (a : A) : M A := fun w => (Done a, w).

Definition bind {A B : Type} (c : M A) (k : A -> M B) : M B :=
  fun w =>
    match c w with
    | (Done a, w1) => k a w1
    | (Halted issue, w1) => (Halted issue, w1)
    | (OutOfFuel, w1) => (OutOfFuel, w1)
    end.

(** A procedure that cannot fail, run inside [M]. *)
Definition exec (f : World -> World) : M unit := fun w => (Done tt, f w).

(** A read that cannot fail, run inside [M]. *)
Definition eval {A : Type} (f : World -> A * World) : M A :=
  fun w => let (a, w1) := f w in (Done a, w1).

Notation "x <- c ;; k" := (bind c (fun x => k))
  (at level 61, c at next level, right associativity).
Notation "c ;; k" := (bind c (fun _ => k))
  (at level 61, right associativity).

(** ** Arduino primitives *)

Definition set_pin (o : Pin -> bool) (p : Pin) (level : bool) : Pin -> bool :=
  fun q => if Pin_eq_dec q p then level else o q.

Definition digitalWrite (p : Pin) (level : bool) (w : World) : World :=
  mkWorld (now w) (set_pin (outs w) p level) (log w ++ [EvWrite p level]).

Definition delay (ms : Z) (w : World) : World :=
  mkWorld (now w + ulong ms) (outs w) (log w ++ [EvDelay (ulong ms)]).

Definition tone (p : Pin) (frequency duration : Z) (w : World) : World :=
  mkWorld (now w) (outs w) (log w ++ [EvTone p frequency duration]).

Definition millis (w : World) : Z := ulong (now w).

(** The direction of a pin, and [pinMode] on the table of directions. *)
Inductive PinMode : Type := INPUT | OUTPUT | INPUT_PULLUP.

Definition pinMode (p : Pin) (mode : PinMode) (c : Pin -> option PinMode)
  : Pin -> option PinMode :=
  fun q => if Pin_eq_dec q p then Some mode else c q.

(** [millis()] as a step of a fallible procedure. *)
Definition get_millis : M Z := fun w => (Done (millis w), w).

Section Firmware.

Variable hw : Sensors.

Definition digitalRead (p : Pin) (w : World) : bool * World :=
  let level := digital_in hw p (now w) (outs w) in
  (level, mkWorld (now w) (outs w) (log w ++ [EvRead p level])).

Definition analogRead (p : Pin) (w : World) : Z * World :=
  let value := analog_in hw p (now w) (outs w) in
  (value, mkWorld (now w) (outs w) (log w ++ [EvAnalog p value])).

(** ** reset, beeps, crash (main.cpp 46-94) *)

Definition reset (stabiliseTime : Z) (w : World) : World :=
  let w := digitalWrite HEATER_PIN LOW w in
  let w := delay stabiliseTime w in
  let w := digitalWrite WATER_LOAD_PIN RELAY_MODULE_OFF w in
  let w := delay stabiliseTime w in
  let w := digitalWrite DRAIN_PIN RELAY_MODULE_OFF w in
  let w := delay stabiliseTime w in
  let w := digitalWrite SOAP_PIN RELAY_MODULE_OFF w in
  let w := delay stabiliseTime w in
  let w := digitalWrite LED_PIN LED_OFF w in
  let w := delay stabiliseTime w in
  let w := digitalWrite MAIN_PUMP_PIN RELAY_MODULE_OFF w in
  delay stabiliseTime w.

(** [for (int i = 0; i < many; i++)]: [n] iterations are left. *)
Fixpoint beep_loop (n : nat) (length delayLength : Z) (w : World) : World :=
  match n with
  | O => w
  | S n' =>
      let w := tone SPEAKER_PIN 1000 length w in
      let w := delay (length + delayLength) w in
      beep_loop n' length delayLength w
  end.

(** [beep(many, length = 150, delayLength = 50)]; the defaults are written
    out at the call sites. *)
Definition beep (many length delayLength : Z) (w : World) : World :=
  beep_loop (Z.to_nat many) length delayLength w.

Definition beepError (issue : Z) (w : World) : World :=
  let w := beep 10 50 50 w in
  let w := delay 100 w in
  beep issue 500 300 w.

Definition beepMessage (message : Z) (w : World) : World :=
  let w := beep 2 350 220 w in
  beep message 150 50 w.

(** [crash]: [reset(500)], then the endless error beeps, which are the
    terminal state [Halted issue]. *)
Definition crash {A : Type} (issue : Z) : M A :=
  fun w => (Halted issue, reset 500 w).

(** ** isLoaded, switchPressed (main.cpp 97-111) *)

(** [for (int i = 0; i < 10; i++)]: [n] iterations are left. *)
Fixpoint isLoaded_loop (n : nat) (w : World) : bool * World :=
  match n with
  | O => (true, w)
  | S n' =>
      let (no_water, w1) := digitalRead WATER_DISABLED_PIN w in
      if no_water then (false, w1)
      else isLoaded_loop n' (delay 1 w1)
  end.

Definition isLoaded (w : World) : bool * World := isLoaded_loop 10 w.

Definition switchPressed (w : World) : bool * World :=
  let (level, w1) := digitalRead SWITCH_PIN w in (negb level, w1).

(** ** drain (main.cpp 114-127) *)

Definition drain : M unit :=
  exec (reset 1000) ;;
  exec (digitalWrite DRAIN_PIN RELAY_MODULE_ON) ;;
  exec (beepMessage DRAIN_MSG) ;;
  exec (delay DRAIN_TIME) ;;
  exec (digitalWrite DRAIN_PIN RELAY_MODULE_OFF) ;;
  loaded <- eval isLoaded ;;
  if loaded : bool then crash DRAIN_ISSUE else ret tt.

(** ** load (main.cpp 133-195) *)

(** [while (!isLoaded() && millis() - loadStarts < LOAD_TIMEOUT) delay(10);] *)
Fixpoint wait_base_level (fuel : nat) (loadStarts : Z) (w : World)
  : Outcome unit * World :=
  match fuel with
  | O => (OutOfFuel, w)
  | S fuel' =>
      let (loaded, w1) := isLoaded w in
      if negb loaded && (usub (millis w1) loadStarts <? LOAD_TIMEOUT)
      then wait_base_level fuel' loadStarts (delay 10 w1)
      else (Done tt, w1)
  end.

(** [while (millis() - loadStarts < loadTime) { beep(1, 80); delay(1000); }] *)
Fixpoint wait_double_level (fuel : nat) (loadStarts loadTime : Z) (w : World)
  : Outcome unit * World :=
  match fuel with
  | O => (OutOfFuel, w)
  | S fuel' =>
      if usub (millis w) loadStarts <? loadTime
      then wait_double_level fuel' loadStarts loadTime
             (delay 1000 (beep 1 80 50 w))
      else (Done tt, w)
  end.

(** [while (millis() - loadStarts < (loadTime / 1.5)) { beep(2, 50); delay(800); }] *)
Fixpoint wait_agitation (fuel : nat) (loadStarts loadTime : Z) (w : World)
  : Outcome unit * World :=
  match fuel with
  | O => (OutOfFuel, w)
  | S fuel' =>
      if real_lt (real_of (usub (millis w) loadStarts))
                 (real_of loadTime / one_and_a_half)%Q
      then wait_agitation fuel' loadStarts loadTime
             (delay 800 (beep 2 50 50 w))
      else (Done tt, w)
  end.

(** [while (!isLoaded() && millis() - loadStarts < (loadTime * 1.5)) { beep(1, 50); delay(400); }] *)
Fixpoint wait_top_up (fuel : nat) (loadStarts loadTime : Z) (w : World)
  : Outcome unit * World :=
  match fuel with
  | O => (OutOfFuel, w)
  | S fuel' =>
      let (loaded, w1) := isLoaded w in
      if negb loaded &&
         real_lt (real_of (usub (millis w1) loadStarts))
                 (real_of loadTime * one_and_a_half)%Q
      then wait_top_up fuel' loadStarts loadTime
             (delay 400 (beep 1 50 50 w1))
      else (Done tt, w1)
  end.

(** Lines 134-156: reset, announce, open the valve, wait for the base level,
    fail on a timeout without water; returns the measured [loadTime]. *)
Definition load_base (fuel : nat) : M Z :=
  exec (reset 200) ;;
  exec (beepMessage LOAD_MSG) ;;
  loadStarts <- get_millis ;;
  exec (digitalWrite WATER_LOAD_PIN RELAY_MODULE_ON) ;;
  wait_base_level fuel loadStarts ;;
  loaded <- eval isLoaded ;;
  t <- get_millis ;;
  (if negb loaded && (LOAD_TIMEOUT <=? usub t loadStarts)
   then crash FAILED_LOAD_ISSUE else ret tt) ;;
  t <- get_millis ;;
  ret (usub t loadStarts).

(** Lines 159-163: keep filling for one more [loadTime]. *)
Definition load_double (fuel : nat) (loadTime : Z) : M unit :=
  loadStarts <- get_millis ;;
  wait_double_level fuel loadStarts loadTime.

(** Lines 166-174: start the main pump, keep filling for [loadTime / 1.5]. *)
Definition load_agitate (fuel : nat) (loadTime : Z) : M unit :=
  exec (digitalWrite MAIN_PUMP_PIN RELAY_MODULE_ON) ;;
  loadStarts <- get_millis ;;
  wait_agitation fuel loadStarts loadTime.

(** Lines 179-183: poll again, for at most [loadTime * 1.5]. *)
Definition load_top_up (fuel : nat) (loadTime : Z) : M unit :=
  loadStarts <- get_millis ;;
  wait_top_up fuel loadStarts loadTime.

(** Lines 188-194: the final reading, then close the valve. *)
Definition load_finish : M unit :=
  loaded <- eval isLoaded ;;
  (if negb loaded then crash FAILED_TOP_UP_ISSUE else ret tt) ;;
  exec (digitalWrite WATER_LOAD_PIN RELAY_MODULE_OFF) ;;
  exec (delay 1000).

Definition load (fuel : nat) : M unit :=
  loadTime <- load_base fuel ;;
  load_double fuel loadTime ;;
  load_agitate fuel loadTime ;;
  load_top_up fuel loadTime ;;
  load_finish.

(** ** cycle (main.cpp 199-243) *)

(** Lines 203-208. *)
Definition release_soap (soap : bool) (w : World) : World :=
  if soap then
    let w := digitalWrite SOAP_PIN RELAY_MODULE_ON w in
    let w := delay 200 w in
    let w := digitalWrite SOAP_PIN RELAY_MODULE_OFF w in
    delay 1000 w
  else w.

(** Lines 213-216: the only place where the heater is switched on. *)
Definition start_heater (temperature Vo : Z) (w : World) : World :=
  if (0 <? temperature) && (Vo <? temperature) then
    let w := digitalWrite HEATER_PIN HIGH w in
    delay 1000 w
  else w.

(** Lines 222-233, the temperature branch of one pass of the wash loop.
    It returns the new values of [Vo] and [washStarts]. *)
Definition heat_control (temperature cycleStarts Vo washStarts : Z)
  : M (Z * Z) :=
  if temperature <? Vo then
    exec (digitalWrite HEATER_PIN LOW) ;;
    ret (Vo, washStarts)
  else
    Vo' <- eval (analogRead TEMP_SENSOR) ;;
    t <- get_millis ;;
    (if (Vo' <? temperature) && (HEATER_TIMEOUT <? usub t cycleStarts)
     then crash FAILED_REACH_TEMP else ret tt) ;;
    washStarts' <- get_millis ;;
    exec (beep 1 150 50) ;;
    ret (Vo', washStarts').

(** Lines 236-239, the heartbeat of the status LED. *)
Definition heartbeat (w : World) : World :=
  let w := delay 1000 w in
  let w := digitalWrite LED_PIN LED_ON w in
  let w := delay 1000 w in
  digitalWrite LED_PIN LED_OFF w.

(** [while ((washTime * 60 * 1000) > millis() - washStarts) { ... }] *)
Fixpoint wash_loop (fuel : nat) (washTime temperature cycleStarts : Z)
    (Vo washStarts : Z) (w : World) : Outcome unit * World :=
  match fuel with
  | O => (OutOfFuel, w)
  | S fuel' =>
      if usub (millis w) washStarts <? umul (umul washTime 60) 1000 then
        match heat_control temperature cycleStarts Vo washStarts w with
        | (Done (Vo', washStarts'), w1) =>
            wash_loop fuel' washTime temperature cycleStarts Vo' washStarts'
              (heartbeat w1)
        | (Halted issue, w1) => (Halted issue, w1)
        | (OutOfFuel, w1) => (OutOfFuel, w1)
        end
      else (Done tt, w)
  end.

(** Lines 203-240: what [cycle] does between [load()] and [drain()]. *)
Definition wash (fuel : nat) (washTime : Z) (soap : bool) (temperature : Z)
  : M unit :=
  exec (release_soap soap) ;;
  Vo <- eval (analogRead TEMP_SENSOR) ;;
  exec (start_heater temperature Vo) ;;
  cycleStarts <- get_millis ;;
  washStarts <- get_millis ;;
  wash_loop fuel (ulong washTime) temperature cycleStarts Vo washStarts.

Definition cycle (fuel : nat) (washTime : Z) (soap : bool) (temperature : Z)
  : M unit :=
  load fuel ;;
  wash fuel washTime soap temperature ;;
  drain.

(** ** The two programs of loop() (main.cpp 285-295) *)

Definition run_program (fuel : nat) (alternative : bool) : M unit :=
  if alternative then
    exec (beep 5 80 50) ;;
    cycle fuel 5 false 0
  else
    cycle fuel 3 false 950 ;;
    cycle fuel 15 true 950 ;;
    cycle fuel 3 false 950 ;;
    cycle fuel 3 false 0.

(** ** setup (main.cpp 246-274) *)

(** The ten [pinMode] calls set the direction of the pins and nothing else.
    The directions are not part of [World]; [setup_pins] is the table that
    the calls build, in their order. *)
Definition setup_pins : Pin -> option PinMode :=
  let c := fun _ => None in
  let c := pinMode WATER_DISABLED_PIN INPUT c in
  let c := pinMode LED_PIN OUTPUT c in
  let c := pinMode WATER_LOAD_PIN OUTPUT c in
  let c := pinMode DRAIN_PIN OUTPUT c in
  let c := pinMode MAIN_PUMP_PIN OUTPUT c in
  let c := pinMode HEATER_PIN OUTPUT c in
  let c := pinMode TEMP_SENSOR INPUT c in
  let c := pinMode SOAP_PIN OUTPUT c in
  let c := pinMode SPEAKER_PIN OUTPUT c in
  pinMode SWITCH_PIN INPUT_PULLUP c.

(** Lines 258-273: [reset()] with its default of 0 ms, the check of the
    switch, the check of the tank with one attempt to drain, the welcome. *)
Definition setup : M unit :=
  exec (reset 0) ;;
  pressed <- eval switchPressed ;;
  (if pressed : bool then crash GENERIC_ISSUE else ret tt) ;;
  loaded <- eval isLoaded ;;
  (if loaded : bool then exec (beepError DRAIN_ISSUE) ;; drain else ret tt) ;;
  exec (beepMessage WELCOME_MSG).

(** ** loop (main.cpp 276-303) *)

(** [while (!switchPressed()) { delay(100); }] *)
Fixpoint wait_for_switch (fuel : nat) (w : World) : Outcome unit * World :=
  match fuel with
  | O => (OutOfFuel, w)
  | S fuel' =>
      let (pressed, w1) := switchPressed w in
      if negb pressed then wait_for_switch fuel' (delay 100 w1)
      else (Done tt, w1)
  end.

(** [loop] never returns in the C code: after the program it switches the
    LED on and beeps for ever.  Here it ends with [Done] in the state in
    which that endless signal begins. *)
Definition loop (fuel : nat) : M unit :=
  wait_for_switch fuel ;;
  exec (beep 3 150 50) ;;
  exec (delay 2000) ;;
  pressed <- eval switchPressed ;;
  run_program fuel pressed ;;
  exec (digitalWrite LED_PIN LED_ON).

End Firmware.

(** * Vocabulary of the statements *)

(** ** Stretches of the log *)

(** What [reset] appends to the log. *)
Definition reset_events (ms : Z) : list Event :=
  [ EvWrite HEATER_PIN LOW; EvDelay ms;
    EvWrite WATER_LOAD_PIN RELAY_MODULE_OFF; EvDelay ms;
    EvWrite DRAIN_PIN RELAY_MODULE_OFF; EvDelay ms;
    EvWrite SOAP_PIN RELAY_MODULE_OFF; EvDelay ms;
    EvWrite LED_PIN LED_OFF; EvDelay ms;
    EvWrite MAIN_PUMP_PIN RELAY_MODULE_OFF; EvDelay ms ].

(** What [beep] appends to the log: [n] times a tone and a pause. *)
Fixpoint beep_events (n : nat) (length delayLength : Z) : list Event :=
  match n with
  | O => []
  | S n' => EvTone SPEAKER_PIN 1000 length
            :: EvDelay (ulong (length + delayLength))
            :: beep_events n' length delayLength
  end.

(** [n] samples that showed water, each followed by [delay(1)]. *)
Fixpoint filled_samples (n : nat) : list Event :=
  match n with
  | O => []
  | S n' => EvRead WATER_DISABLED_PIN LOW :: EvDelay 1 :: filled_samples n'
  end.

(** [only P w w']: going from [w] to [w'] appended events, all of which
    satisfy [P]. *)
Definition only (P : Event -> bool) (w w' : World) : Prop :=
  exists evs, log w' = log w ++ evs /\ forallb P evs = true.

(** Tones and delays: the events of a wait that touches no pin. *)
Definition is_pause (e : Event) : bool :=
  match e with
  | EvTone _ _ _ | EvDelay _ => true
  | _ => false
  end.

(** Switching the heater on. *)
Definition is_heater_on (e : Event) : bool :=
  match e with
  | EvWrite HEATER_PIN true => true
  | _ => false
  end.

Definition not_heater_on (e : Event) : bool := negb (is_heater_on e).

(** How many times a stretch of the log switches the heater on. *)
Definition heater_on_count (evs : list Event) : nat :=
  length (filter is_heater_on evs).

(** [switches n w w']: going from [w] to [w'] switched the heater on [n]
    times. *)
Definition switches (n : nat) (w w' : World) : Prop :=
  exists evs, log w' = log w ++ evs /\ heater_on_count evs = n.

(** ** States and bounds that the statements name *)

(** The level line as [isLoaded] started in [w] sees it after [i] ms: [HIGH]
    means that there is no water. *)
Definition sample (hw : Sensors) (w : World) (i : Z) : bool :=
  digital_in hw WATER_DISABLED_PIN (now w + i) (outs w).

(** The state in which [load] reads [loadStarts] and opens the valve. *)
Definition load_start (w : World) : World :=
  beepMessage LOAD_MSG (reset 200 w).

(** The passes that are enough for every loop of [load]: the longest one,
    the first, polls every 10 ms for 200000 ms. *)
Definition enough_fuel (fuel : nat) : Prop := 20001 <= Z.of_nat fuel.

Definition load_fuel : nat := Z.to_nat 20001.

(** The state in which [cycle], having loaded in [w1], reads [cycleStarts]:
    the soap is released and the heater switched on if the check asks for
    it. *)
Definition cycle_start (hw : Sensors) (soap : bool) (temperature : Z)
    (w1 : World) : World :=
  let wa := release_soap soap w1 in
  start_heater temperature (fst (analogRead hw TEMP_SENSOR wa))
    (snd (analogRead hw TEMP_SENSOR wa)).

(** The state after a pass of the wash loop that began in [w] and found
    the water too cold, but the timeout not exceeded. *)
Definition cold_pass (hw : Sensors) (w : World) : World :=
  heartbeat (beep 1 150 50 (snd (analogRead hw TEMP_SENSOR w))).

(** ** Machines and sensors to run the procedures on *)

(** The machine at power-up, everything off. *)
Definition idle_world : World :=
  mkWorld 0 (fun p => match p with HEATER_PIN => LOW | _ => HIGH end) [].

(** Ten seconds into a wash: the relays are off, the heater is on. *)
Definition heating_world : World := mkWorld 10000 (fun _ => HIGH) [].

(** Sensors of a full tank whose water stays at the raw temperature [v]. *)
Definition full_tank_at (v : Z) : Sensors :=
  mkSensors (fun _ _ _ => LOW) (fun _ _ _ => v).

Definition full_tank : Sensors := full_tank_at 0.

(** Sensors of a tank whose level reaches the switch at the instant [t] and
    stays there. *)
Definition fills_at (t : Z) : Sensors :=
  mkSensors (fun _ t' _ => t' <? t) (fun _ _ _ => 0).

(** Sensors of a tank whose level drops below the switch whenever the main
    pump runs, and is above it otherwise. *)
Definition pump_drains : Sensors :=
  mkSensors (fun _ _ o => negb (o MAIN_PUMP_PIN)) (fun _ _ _ => 0).

(** The sensors [hw], except that the level line shows no water at the
    instant [t]. *)
Definition inject_no_water (hw : Sensors) (t : Z) : Sensors :=
  mkSensors
    (fun p t' o =>
       if Pin_eq_dec p WATER_DISABLED_PIN then
         if t' =? t then HIGH else digital_in hw p t' o
       else digital_in hw p t' o)
    (analog_in hw).

(** ** What the later statements add *)

(** The six lines that [reset] drives are all off. *)
Definition all_off (o : Pin -> bool) : Prop :=
  o HEATER_PIN = LOW /\
  o WATER_LOAD_PIN = RELAY_MODULE_OFF /\
  o DRAIN_PIN = RELAY_MODULE_OFF /\
  o SOAP_PIN = RELAY_MODULE_OFF /\
  o LED_PIN = LED_OFF /\
  o MAIN_PUMP_PIN = RELAY_MODULE_OFF.

(** A procedure that halts only through [crash]: when it halts, the state
    is the one that [reset(500)] leaves. *)
Definition fail_stop {A : Type} (c : M A) : Prop :=
  forall w issue w', c w = (Halted issue, w') -> exists w0, w' = reset 500 w0.

(** The level at which an actuator line is off: the relays and the LED are
    active-low, the heater is active-high. *)
Definition off_level (p : Pin) : bool :=
  match p with
  | HEATER_PIN => LOW
  | _ => HIGH
  end.

Definition is_actuator (p : Pin) : bool :=
  match p with
  | WATER_LOAD_PIN | MAIN_PUMP_PIN | DRAIN_PIN | SOAP_PIN | HEATER_PIN
  | LED_PIN => true
  | _ => false
  end.

(** The I/O of the firmware when only the lines in [on] may be switched on:
    delays, 1000 Hz tones on the speaker, reads of the level line and of the
    switch, analog reads of the thermistor, and writes to the six actuator
    lines that switch a line off or switch on a line of [on]. *)
Definition io_event (on : Pin -> bool) (e : Event) : bool :=
  match e with
  | EvDelay _ => true
  | EvTone p f _ =>
      (if Pin_eq_dec p SPEAKER_PIN then true else false) && (f =? 1000)
  | EvRead p _ =>
      if Pin_eq_dec p WATER_DISABLED_PIN then true
      else if Pin_eq_dec p SWITCH_PIN then true else false
  | EvAnalog p _ => if Pin_eq_dec p TEMP_SENSOR then true else false
  | EvWrite p v => is_actuator p && (Bool.eqb v (off_level p) || on p)
  end.

(** No line at all; the lines of [drain], of [load] and of a [cycle]. *)
Definition no_line (p : Pin) : bool := false.

Definition drain_lines (p : Pin) : bool :=
  match p with
  | DRAIN_PIN => true
  | _ => false
  end.

Definition load_lines (p : Pin) : bool :=
  match p with
  | WATER_LOAD_PIN | MAIN_PUMP_PIN => true
  | _ => false
  end.

Definition cycle_lines (soap : bool) (temperature : Z) (p : Pin) : bool :=
  match p with
  | WATER_LOAD_PIN | MAIN_PUMP_PIN | DRAIN_PIN | LED_PIN => true
  | SOAP_PIN => soap
  | HEATER_PIN => 0 <? temperature
  | _ => false
  end.

(** An event that uses its pin in the direction that [setup] gave it. *)
Definition wired (e : Event) : bool :=
  match e with
  | EvDelay _ => true
  | EvWrite p _ | EvTone p _ _ =>
      match setup_pins p with
      | Some OUTPUT => true
      | _ => false
      end
  | EvRead p _ =>
      match setup_pins p with
      | Some INPUT | Some INPUT_PULLUP => true
      | _ => false
      end
  | EvAnalog p _ =>
      match setup_pins p with
      | Some INPUT => true
      | _ => false
      end
  end.

(** [times P n w w']: going from [w] to [w'] appended events of which
    exactly [n] satisfy [P]. *)
Definition times (P : Event -> bool) (n : nat) (w w' : World) : Prop :=
  exists evs, log w' = log w ++ evs /\ length (filter P evs) = n.

(** Switching the drain pump on; switching the soap dispenser on. *)
Definition is_drain_on (e : Event) : bool :=
  match e with
  | EvWrite DRAIN_PIN false => true
  | _ => false
  end.

Definition is_soap_on (e : Event) : bool :=
  match e with
  | EvWrite SOAP_PIN false => true
  | _ => false
  end.

(** A tone of the given length on the speaker. *)
Definition is_tone_of (duration : Z) (e : Event) : bool :=
  match e with
  | EvTone SPEAKER_PIN _ d => d =? duration
  | _ => false
  end.

Definition tones_of (duration : Z) (evs : list Event) : nat :=
  length (filter (is_tone_of duration) evs).

(** Sensors of a full tank at raw temperature 10 whose switch is held down
    from the instant [t] for [hold] ms. *)
Definition pressed_at (t hold : Z) : Sensors :=
  mkSensors
    (fun p t' _ =>
       if Pin_eq_dec p SWITCH_PIN then negb ((t <=? t') && (t' <? t + hold))
       else LOW)
    (fun _ _ _ => 10).

(** Reading the thermistor. *)
Definition is_analog (e : Event) : bool :=
  match e with
  | EvAnalog _ _ => true
  | _ => false
  end.

(** [at_most P n w w']: going from [w] to [w'] appended at most [n] events
    that satisfy [P]. *)
Definition at_most (P : Event -> bool) (n : nat) (w w' : World) : Prop :=
  exists m, (m <= n)%nat /\ times P m w w'.

(** ** The outputs at every instant *)

(** The outputs after an event: only a write changes them. *)
Definition after (o : Pin -> bool) (e : Event) : Pin -> bool :=
  match e with
  | EvWrite p level => set_pin o p level
  | _ => o
  end.

Fixpoint replay (o : Pin -> bool) (evs : list Event) : Pin -> bool :=
  match evs with
  | [] => o
  | e :: evs' => replay (after o e) evs'
  end.

(** [throughout I o evs]: [I] holds of the outputs [o] and of the outputs
    after each of the events [evs] in turn. *)
Fixpoint throughout (I : (Pin -> bool) -> Prop) (o : Pin -> bool)
    (evs : list Event) : Prop :=
  I o /\
  match evs with
  | [] => True
  | e :: evs' => throughout I (after o e) evs'
  end.

(** [accounted w w']: the events logged from [w] to [w'] account for the
    outputs of [w']. *)
Definition accounted (w w' : World) : Prop :=
  exists evs, log w' = log w ++ evs /\ outs w' = replay (outs w) evs.

(** [always I w w']: [I] held of the outputs in [w] and after every event
    logged from [w] to [w']. *)
Definition always (I : (Pin -> bool) -> Prop) (w w' : World) : Prop :=
  exists evs, log w' = log w ++ evs /\ throughout I (outs w) evs.

(** The heater is on only while the main pump runs with the valve closed
    and the drain pump off; the drain pump runs only while the valve is
    closed and the main pump off. *)
Definition safe (o : Pin -> bool) : Prop :=
  (o HEATER_PIN = HIGH ->
   o MAIN_PUMP_PIN = RELAY_MODULE_ON /\
   o WATER_LOAD_PIN = RELAY_MODULE_OFF /\
   o DRAIN_PIN = RELAY_MODULE_OFF) /\
  (o DRAIN_PIN = RELAY_MODULE_ON ->
   o WATER_LOAD_PIN = RELAY_MODULE_OFF /\
   o MAIN_PUMP_PIN = RELAY_MODULE_OFF).

(** What holds of the outputs while [load] fills, while [drain] drains and
    while [cycle] washes. *)
Definition loading (o : Pin -> bool) : Prop :=
  o HEATER_PIN = LOW /\ o DRAIN_PIN = RELAY_MODULE_OFF.

Definition draining (o : Pin -> bool) : Prop :=
  o HEATER_PIN = LOW /\
  o WATER_LOAD_PIN = RELAY_MODULE_OFF /\
  o MAIN_PUMP_PIN = RELAY_MODULE_OFF.

Definition washing (o : Pin -> bool) : Prop :=
  o MAIN_PUMP_PIN = RELAY_MODULE_ON /\
  o WATER_LOAD_PIN = RELAY_MODULE_OFF /\
  o DRAIN_PIN = RELAY_MODULE_OFF.

(** [I] survives every write that [Q] lets through. *)
Definition stable (I : (Pin -> bool) -> Prop) (Q : Event -> bool) : Prop :=
  forall o p level, I o -> Q (EvWrite p level) = true -> I (set_pin o p level).

(** An event that is not a write. *)
Definition no_write (e : Event) : bool :=
  match e with
  | EvWrite _ _ => false
  | _ => true
  end.

(** A procedure that, started with safe outputs, keeps them safe at every
    instant, and whose log accounts for its outputs. *)
Definition keeps_safe {A : Type} (c : M A) : Prop :=
  forall w, accounted w (snd (c w)) /\
            (safe (outs w) -> always safe w (snd (c w))).

(** A write that the wash may make: to the soap dispenser, the heater or
    the LED. *)
Definition wash_write (e : Event) : bool :=
  match e with
  | EvWrite (SOAP_PIN | HEATER_PIN | LED_PIN) _ => true
  | EvWrite _ _ => false
  | _ => true
  end.

(** * Properties *)

(** Case analysis on the condition of the first conditional of the goal. *)
Ltac split_if :=
  match goal with |- context [if ?c then _ else _] => destruct c end.

(** ** Machine arithmetic *)

Lemma ulong_small (z : Z) : 0 <= z < 2 ^ 32 -> ulong z = z.
Proof. intros H. unfold ulong. now apply Z.mod_small. Qed.

(** The difference of two clock readings is the time that passed, as long
    as less than 2^32 ms passed. *)
Lemma usub_millis (w0 w1 : World) :
  0 <= now w1 - now w0 < 2 ^ 32 ->
  usub (millis w1) (millis w0) = now w1 - now w0.
Proof.
  intros H. unfold usub, millis, ulong.
  rewrite <- Zminus_mod. now apply Z.mod_small.
Qed.

Lemma usub_ulong (t0 t1 : Z) :
  0 <= t1 - t0 < 2 ^ 32 -> usub (ulong t1) (ulong t0) = t1 - t0.
Proof.
  intros H. unfold usub, ulong.
  rewrite <- Zminus_mod. now apply Z.mod_small.
Qed.

(** The comparisons against [loadTime / 1.5] and [loadTime * 1.5], on
    integers. *)
Lemma real_lt_div (e l : Z) :
  real_lt (real_of e) (real_of l / one_and_a_half)%Q = (3 * e <? 2 * l).
Proof.
  unfold real_lt, real_of, one_and_a_half.
  destruct (Qle_bool (inject_Z l / (3 # 2)) (inject_Z e)) eqn:E.
  - apply Qle_bool_iff in E. unfold Qle in E. cbn in E.
    symmetry. apply Z.ltb_ge. lia.
  - symmetry. apply Z.ltb_lt.
    destruct (Z_lt_le_dec (3 * e) (2 * l)) as [H | H]; [exact H | exfalso].
    assert (Qle_bool (inject_Z l / (3 # 2)) (inject_Z e) = true) as E'.
    { apply Qle_bool_iff. unfold Qle. cbn. lia. }
    congruence.
Qed.

Lemma real_lt_mul (e l : Z) :
  real_lt (real_of e) (real_of l * one_and_a_half)%Q = (2 * e <? 3 * l).
Proof.
  unfold real_lt, real_of, one_and_a_half.
  destruct (Qle_bool (inject_Z l * (3 # 2)) (inject_Z e)) eqn:E.
  - apply Qle_bool_iff in E. unfold Qle in E. cbn in E.
    symmetry. apply Z.ltb_ge. lia.
  - symmetry. apply Z.ltb_lt.
    destruct (Z_lt_le_dec (2 * e) (3 * l)) as [H | H]; [exact H | exfalso].
    assert (Qle_bool (inject_Z l * (3 # 2)) (inject_Z e) = true) as E'.
    { apply Qle_bool_iff. unfold Qle. cbn. lia. }
    congruence.
Qed.

(** ** The log of a run *)

Lemma reset_log (ms : Z) (w : World) :
  log (reset ms w) = log w ++ reset_events (ulong ms).
Proof.
  unfold reset, reset_events; cbn. now repeat rewrite <- app_assoc.
Qed.

Lemma reset_now (ms : Z) (w : World) :
  now (reset ms w) = now w + 6 * ulong ms.
Proof. unfold reset. cbn [now delay digitalWrite]. lia. Qed.

Lemma beep_loop_log (n : nat) (l d : Z) (w : World) :
  log (beep_loop n l d w) = log w ++ beep_events n l d.
Proof.
  revert w. induction n as [| n IH]; intros w; cbn.
  - now rewrite app_nil_r.
  - rewrite IH. cbn. now repeat rewrite <- app_assoc.
Qed.

Lemma beep_loop_now (n : nat) (l d : Z) (w : World) :
  now (beep_loop n l d w) = now w + Z.of_nat n * ulong (l + d).
Proof.
  revert w. induction n as [| n IH]; intros w.
  - cbn. lia.
  - cbn [beep_loop]. rewrite IH, Nat2Z.inj_succ. cbn [now delay tone].
    unfold Z.succ. ring.
Qed.

Lemma beep_loop_outs (n : nat) (l d : Z) (w : World) :
  outs (beep_loop n l d w) = outs w.
Proof.
  revert w. induction n as [| n IH]; intros w; cbn; [reflexivity |].
  now rewrite IH.
Qed.

(** ** The debounced level reading *)

Section Debounce.

Variable hw : Sensors.

Lemma sample_shift (w w1 : World) (i : Z) :
  now w1 = now w + 1 -> outs w1 = outs w ->
  sample hw w1 i = sample hw w (1 + i).
Proof.
  intros Hn Ho. unfold sample. rewrite Hn, Ho. f_equal. lia.
Qed.

Lemma isLoaded_loop_outs (n : nat) (w : World) :
  outs (snd (isLoaded_loop hw n w)) = outs w.
Proof.
  revert w. induction n as [| n IH]; intros w; cbn; [reflexivity |].
  destruct (digital_in hw WATER_DISABLED_PIN (now w) (outs w));
    [reflexivity | now rewrite IH].
Qed.

Lemma isLoaded_loop_true_iff (n : nat) (w : World) :
  fst (isLoaded_loop hw n w) = true <->
  forall i, 0 <= i < Z.of_nat n -> sample hw w i = LOW.
Proof.
  revert w. induction n as [| n IH]; intros w.
  - cbn. split; [intros _ i Hi; lia | reflexivity].
  - cbn [isLoaded_loop digitalRead].
    assert (sample hw w 0 = digital_in hw WATER_DISABLED_PIN (now w) (outs w))
      as H0 by (unfold sample; now rewrite Z.add_0_r).
    destruct (digital_in hw WATER_DISABLED_PIN (now w) (outs w)) eqn:E.
    + cbn. split; [discriminate |].
      intros H. specialize (H 0 ltac:(lia)). rewrite H0 in H.
      discriminate H.
    + rewrite IH. split.
      * intros H i Hi. destruct (Z.eq_dec i 0) as [-> | Hne]; [exact H0 |].
        specialize (H (i - 1) ltac:(lia)).
        rewrite (sample_shift w) in H by reflexivity.
        now replace (1 + (i - 1)) with i in H by lia.
      * intros H i Hi.
        rewrite (sample_shift w); [apply H; lia | |]; reflexivity.
Qed.

Lemma isLoaded_loop_true_run (n : nat) (w : World) :
  fst (isLoaded_loop hw n w) = true ->
  now (snd (isLoaded_loop hw n w)) = now w + Z.of_nat n /\
  log (snd (isLoaded_loop hw n w)) = log w ++ filled_samples n.
Proof.
  revert w. induction n as [| n IH]; intros w.
  - cbn. intros _. split; [lia | now rewrite app_nil_r].
  - cbn [isLoaded_loop digitalRead].
    destruct (digital_in hw WATER_DISABLED_PIN (now w) (outs w)) eqn:E.
    + cbn. discriminate.
    + intros H. destruct (IH _ H) as [Hn Hl]. rewrite Hn, Hl. cbn.
      split; [change (ulong 1) with 1; lia |].
      now repeat rewrite <- app_assoc.
Qed.

(** The first sample hw without water ends the reading there. *)
Lemma isLoaded_loop_first_bad (n : nat) (w : World) (k : nat) :
  (k < n)%nat ->
  (forall i, 0 <= i < Z.of_nat k -> sample hw w i = LOW) ->
  sample hw w (Z.of_nat k) = HIGH ->
  fst (isLoaded_loop hw n w) = false /\
  now (snd (isLoaded_loop hw n w)) = now w + Z.of_nat k /\
  log (snd (isLoaded_loop hw n w)) =
    log w ++ filled_samples k ++ [EvRead WATER_DISABLED_PIN HIGH].
Proof.
  revert w k. induction n as [| n IH]; intros w k Hk Hlow Hhigh; [lia |].
  cbn [isLoaded_loop digitalRead].
  assert (sample hw w 0 = digital_in hw WATER_DISABLED_PIN (now w) (outs w))
    as H0 by (unfold sample; now rewrite Z.add_0_r).
  destruct k as [| k].
  - cbn in Hhigh. rewrite H0 in Hhigh. rewrite Hhigh. cbn.
    repeat split; lia.
  - rewrite <- H0, (Hlow 0) by lia.
    destruct (IH (delay 1 (mkWorld (now w) (outs w)
                 (log w ++ [EvRead WATER_DISABLED_PIN LOW]))) k)
      as (Hr & Hn & Hl).
    + lia.
    + intros i Hi. rewrite (sample_shift w); [apply Hlow; lia | |]; reflexivity.
    + rewrite (sample_shift w); [| reflexivity | reflexivity].
      rewrite <- Hhigh. f_equal. lia.
    + unfold LOW in *. rewrite Hr, Hn, Hl. cbn. change (ulong 1) with 1.
      repeat split; [lia |]. now repeat rewrite <- app_assoc.
Qed.

(** A reading takes at most [n] ms, and less when it fails. *)
Lemma isLoaded_loop_now (n : nat) (w : World) :
  now w <= now (snd (isLoaded_loop hw n w)) <= now w + Z.of_nat n /\
  (fst (isLoaded_loop hw n w) = false ->
   now (snd (isLoaded_loop hw n w)) < now w + Z.of_nat n).
Proof.
  revert w. induction n as [| n IH]; intros w.
  - cbn. split; [lia | discriminate].
  - cbn [isLoaded_loop digitalRead].
    destruct (digital_in hw WATER_DISABLED_PIN (now w) (outs w)) eqn:E.
    + cbn. split; [lia | intros _; lia].
    + match goal with |- context [isLoaded_loop hw n ?w1] =>
        destruct (IH w1) as [Hb Hf]; cbn in Hb, Hf;
        change (ulong 1) with 1 in Hb, Hf end.
      split; [lia |]. intros H. specialize (Hf H). lia.
Qed.

End Debounce.


(** C1. The debounced level reading takes its samples 1 ms apart, starting
    when it is called.  It returns true exactly when all ten samples show
    water, and then it made ten reads and took 10 ms.  It returns false at
    the first sample that shows no water, without reading further.  Hence
    making any one of the ten samples show no water makes the reading
    false, whatever the other samples are. *)
Theorem isLoaded_debounce (hw : Sensors) (w : World) :
  (fst (isLoaded hw w) = true <->
   forall i, 0 <= i < 10 -> sample hw w i = LOW) /\
  (fst (isLoaded hw w) = true ->
   now (snd (isLoaded hw w)) = now w + 10 /\
   log (snd (isLoaded hw w)) = log w ++ filled_samples 10) /\
  (forall k : nat, (k < 10)%nat ->
   (forall i, 0 <= i < Z.of_nat k -> sample hw w i = LOW) ->
   sample hw w (Z.of_nat k) = HIGH ->
   fst (isLoaded hw w) = false /\
   now (snd (isLoaded hw w)) = now w + Z.of_nat k /\
   log (snd (isLoaded hw w)) =
     log w ++ filled_samples k ++ [EvRead WATER_DISABLED_PIN HIGH]) /\
  (forall k, 0 <= k < 10 ->
   fst (isLoaded (inject_no_water hw (now w + k)) w) = false).
Proof.
  unfold isLoaded. repeat split.
  - apply (isLoaded_loop_true_iff hw 10 w).
  - apply (isLoaded_loop_true_iff hw 10 w).
  - now apply (isLoaded_loop_true_run hw 10 w).
  - now apply (isLoaded_loop_true_run hw 10 w).
  - now apply (isLoaded_loop_first_bad hw 10 w k).
  - now apply (isLoaded_loop_first_bad hw 10 w k).
  - now apply (isLoaded_loop_first_bad hw 10 w k).
  - intros k Hk.
    destruct (fst (isLoaded_loop (inject_no_water hw (now w + k)) 10 w)) eqn:E;
      [exfalso | reflexivity].
    pose proof (proj1 (isLoaded_loop_true_iff _ _ _) E k) as E'.
    unfold sample, inject_no_water in E'. cbn in E'.
    rewrite Z.eqb_refl in E'. discriminate E'. lia.
Qed.

Lemma isLoaded_debounce_witness :
  fst (isLoaded (inject_no_water full_tank (now idle_world + 3)) idle_world)
  = false.
Proof.
  apply (proj2 (proj2 (proj2 (isLoaded_debounce full_tank idle_world)))).
  lia.
Defined.

(** ** reset *)

(** C9. [reset] switches off the heater, the intake valve, the drain pump,
    the soap dispenser, the status LED and the main pump, in this order, and
    waits for the stabilise time after each of the six steps; it does nothing
    else.  Afterwards all six lines are off. *)
Theorem reset_shutdown_order (stabiliseTime : Z) (w : World) :
  0 <= stabiliseTime <= 32767 ->
  log (reset stabiliseTime w) =
    log w ++ [ EvWrite HEATER_PIN LOW; EvDelay stabiliseTime;
               EvWrite WATER_LOAD_PIN RELAY_MODULE_OFF; EvDelay stabiliseTime;
               EvWrite DRAIN_PIN RELAY_MODULE_OFF; EvDelay stabiliseTime;
               EvWrite SOAP_PIN RELAY_MODULE_OFF; EvDelay stabiliseTime;
               EvWrite LED_PIN LED_OFF; EvDelay stabiliseTime;
               EvWrite MAIN_PUMP_PIN RELAY_MODULE_OFF; EvDelay stabiliseTime ]
  /\ now (reset stabiliseTime w) = now w + 6 * stabiliseTime
  /\ outs (reset stabiliseTime w) HEATER_PIN = LOW
  /\ outs (reset stabiliseTime w) WATER_LOAD_PIN = RELAY_MODULE_OFF
  /\ outs (reset stabiliseTime w) DRAIN_PIN = RELAY_MODULE_OFF
  /\ outs (reset stabiliseTime w) SOAP_PIN = RELAY_MODULE_OFF
  /\ outs (reset stabiliseTime w) LED_PIN = LED_OFF
  /\ outs (reset stabiliseTime w) MAIN_PUMP_PIN = RELAY_MODULE_OFF.
Proof.
  intros H.
  rewrite reset_log, reset_now, ulong_small by lia.
  repeat split.
Qed.

Lemma reset_shutdown_order_witness :
  log (reset 1000 idle_world) =
    log idle_world ++
      [ EvWrite HEATER_PIN LOW; EvDelay 1000;
        EvWrite WATER_LOAD_PIN RELAY_MODULE_OFF; EvDelay 1000;
        EvWrite DRAIN_PIN RELAY_MODULE_OFF; EvDelay 1000;
        EvWrite SOAP_PIN RELAY_MODULE_OFF; EvDelay 1000;
        EvWrite LED_PIN LED_OFF; EvDelay 1000;
        EvWrite MAIN_PUMP_PIN RELAY_MODULE_OFF; EvDelay 1000 ].
Proof.
  apply (reset_shutdown_order 1000 idle_world). lia.
Defined.

(** ** drain *)

Lemma drain_checks_level_aux (hw : Sensors) (w : World) :
  (exists w2, drain hw w = crash DRAIN_ISSUE w2) \/
  (exists w2, drain hw w = (Done tt, w2)).
Proof.
  unfold drain, bind, exec, eval.
  match goal with |- context [isLoaded hw ?w1] =>
    destruct (isLoaded hw w1) as [[] w2] end.
  - left. now exists w2.
  - right. now exists w2.
Qed.

(** C7. [drain] resets with 1000 ms of settling, switches the drain pump
    on, beeps the drain message, waits [DRAIN_TIME] = 22000 ms and switches
    the drain pump off; [w1] is the state at that point.  Then it takes one
    debounced level reading: if the reading shows water it ends in
    [crash(DRAIN_ISSUE)], and this is the only way it reports issue 2;
    otherwise it returns at once, having done nothing more. *)
Theorem drain_checks_level (hw : Sensors) (w : World) :
  exists w1 : World,
    log w1 =
      log w ++ reset_events 1000
            ++ [EvWrite DRAIN_PIN RELAY_MODULE_ON]
            ++ beep_events 2 350 220 ++ beep_events 4 150 50
            ++ [EvDelay 22000; EvWrite DRAIN_PIN RELAY_MODULE_OFF] /\
    now w1 = now w + 6 * 1000 + 1940 + DRAIN_TIME /\
    outs w1 DRAIN_PIN = RELAY_MODULE_OFF /\
    (fst (isLoaded hw w1) = true ->
     drain hw w = crash DRAIN_ISSUE (snd (isLoaded hw w1))) /\
    (fst (isLoaded hw w1) = false ->
     drain hw w = (Done tt, snd (isLoaded hw w1))) /\
    (fst (drain hw w) = Halted DRAIN_ISSUE <-> fst (isLoaded hw w1) = true).
Proof.
  exists (digitalWrite DRAIN_PIN RELAY_MODULE_OFF
            (delay DRAIN_TIME
               (beepMessage DRAIN_MSG
                  (digitalWrite DRAIN_PIN RELAY_MODULE_ON (reset 1000 w))))).
  split; [| split; [| split]].
  - unfold beepMessage, beep.
    cbn [log digitalWrite delay].
    rewrite !beep_loop_log. cbn [log digitalWrite]. rewrite reset_log.
    change (ulong 1000) with 1000. change (ulong DRAIN_TIME) with 22000.
    change (Z.to_nat 2) with 2%nat. change (Z.to_nat DRAIN_MSG) with 4%nat.
    now rewrite <- !app_assoc.
  - unfold beepMessage, beep.
    cbn [now digitalWrite delay].
    rewrite !beep_loop_now. cbn [now digitalWrite]. rewrite reset_now.
    change (ulong 1000) with 1000. change (ulong DRAIN_TIME) with DRAIN_TIME.
    change (Z.of_nat (Z.to_nat 2) * ulong (350 + 220)) with 1140.
    change (Z.of_nat (Z.to_nat DRAIN_MSG) * ulong (150 + 50)) with 800.
    lia.
  - reflexivity.
  - unfold drain, bind, exec, eval.
    match goal with |- context [isLoaded hw ?w1] =>
      destruct (isLoaded hw w1) as [loaded w2] end.
    cbn [fst snd]. destruct loaded; cbn.
    + repeat split; congruence.
    + repeat split; congruence.
Qed.

Lemma drain_checks_level_witness :
  fst (drain full_tank idle_world) = Halted DRAIN_ISSUE.
Proof.
  destruct (drain_checks_level full_tank idle_world)
    as (w1 & _ & _ & _ & _ & _ & Hiff).
  apply Hiff. apply (isLoaded_loop_true_iff full_tank 10 w1).
  intros i _. reflexivity.
Defined.

(** ** The four waiting loops of load *)

Section LoadLoops.

Variable hw : Sensors.

Lemma isLoaded_now (w : World) :
  now w <= now (snd (isLoaded hw w)) <= now w + 10.
Proof. apply (isLoaded_loop_now hw 10 w). Qed.

Lemma isLoaded_outs (w : World) : outs (snd (isLoaded hw w)) = outs w.
Proof. apply isLoaded_loop_outs. Qed.

Lemma beep_now (many l d : Z) (w : World) :
  now (beep many l d w) = now w + Z.of_nat (Z.to_nat many) * ulong (l + d).
Proof. apply beep_loop_now. Qed.

Lemma beep_outs (many l d : Z) (w : World) :
  outs (beep many l d w) = outs w.
Proof. apply beep_loop_outs. Qed.

(** The first loop ends within 20001 passes, at most 20 ms after the
    timeout; [t0] is the instant at which [loadStarts] was read. *)
Lemma wait_base_level_terminates (t0 : Z) (fuel : nat) (w : World) :
  0 <= now w - t0 < LOAD_TIMEOUT + 10 ->
  LOAD_TIMEOUT + 10 - (now w - t0) <= 10 * Z.of_nat fuel ->
  exists w1,
    wait_base_level hw fuel (ulong t0) w = (Done tt, w1) /\
    now w <= now w1 /\ now w1 - t0 < LOAD_TIMEOUT + 20 /\
    outs w1 = outs w.
Proof.
  unfold LOAD_TIMEOUT.
  revert w. induction fuel as [| fuel IH]; intros w He Hfuel; [lia |].
  cbn [wait_base_level].
  pose proof (isLoaded_now w) as Hnow. pose proof (isLoaded_outs w) as Houts.
  destruct (isLoaded hw w) as [loaded w1]. cbn [snd] in Hnow, Houts.
  unfold millis. rewrite usub_ulong by lia. unfold LOAD_TIMEOUT.
  destruct loaded; cbn [negb andb].
  - exists w1. repeat split; [lia | lia | exact Houts].
  - destruct (Z.ltb_spec (now w1 - t0) 200000) as [Hlt | Hge].
    + destruct (IH (delay 10 w1)) as (w2 & Hrun & Hn & Hb & Ho).
      * cbn [now delay]. change (ulong 10) with 10. lia.
      * cbn [now delay]. change (ulong 10) with 10. lia.
      * exists w2. rewrite Hrun. cbn [now delay outs] in Hn, Ho.
        change (ulong 10) with 10 in Hn.
        repeat split; [lia | lia | congruence].
    + exists w1. repeat split; [lia | lia | exact Houts].
Qed.

(** The doubling loop runs in passes of 1130 ms until [loadTime] has
    passed. *)
Lemma wait_double_level_terminates (t1 loadTime : Z) (fuel : nat) (w : World) :
  0 <= loadTime < 2 ^ 31 ->
  0 <= now w - t1 < loadTime + 1130 ->
  loadTime + 1130 - (now w - t1) <= 1130 * Z.of_nat fuel ->
  exists w1,
    wait_double_level fuel (ulong t1) loadTime w = (Done tt, w1) /\
    loadTime <= now w1 - t1 < loadTime + 1130 /\
    now w <= now w1 /\ outs w1 = outs w.
Proof.
  intros HL.
  revert w. induction fuel as [| fuel IH]; intros w He Hfuel; [lia |].
  cbn [wait_double_level].
  unfold millis. rewrite usub_ulong by lia.
  destruct (Z.ltb_spec (now w - t1) loadTime) as [Hlt | Hge].
  - assert (now (delay 1000 (beep 1 80 50 w)) = now w + 1130) as Hn.
    { cbn [now delay]. rewrite beep_now.
      change (ulong 1000) with 1000.
      change (Z.of_nat (Z.to_nat 1) * ulong (80 + 50)) with 130. lia. }
    destruct (IH (delay 1000 (beep 1 80 50 w))) as (w2 & Hrun & Hb & Hm & Ho).
    + rewrite Hn. lia.
    + rewrite Hn. lia.
    + exists w2. rewrite Hrun. rewrite Hn in Hm.
      cbn [outs delay] in Ho. rewrite beep_outs in Ho.
      repeat split; [lia | lia | lia | exact Ho].
  - exists w. repeat split; [lia | lia | lia].
Qed.

(** The agitation loop runs in passes of 1000 ms until [loadTime / 1.5] has
    passed. *)
Lemma wait_agitation_terminates (t2 loadTime : Z) (fuel : nat) (w : World) :
  0 <= loadTime < 2 ^ 31 ->
  0 <= now w - t2 /\ 3 * (now w - t2) < 2 * loadTime + 3000 ->
  2 * loadTime + 3000 - 3 * (now w - t2) <= 3000 * Z.of_nat fuel ->
  exists w1,
    wait_agitation fuel (ulong t2) loadTime w = (Done tt, w1) /\
    2 * loadTime <= 3 * (now w1 - t2) < 2 * loadTime + 3000 /\
    now w <= now w1 /\ outs w1 = outs w.
Proof.
  intros HL.
  revert w. induction fuel as [| fuel IH]; intros w He Hfuel; [lia |].
  cbn [wait_agitation].
  unfold millis. rewrite usub_ulong by lia. rewrite real_lt_div.
  destruct (Z.ltb_spec (3 * (now w - t2)) (2 * loadTime)) as [Hlt | Hge].
  - assert (now (delay 800 (beep 2 50 50 w)) = now w + 1000) as Hn.
    { cbn [now delay]. rewrite beep_now.
      change (ulong 800) with 800.
      change (Z.of_nat (Z.to_nat 2) * ulong (50 + 50)) with 200. lia. }
    destruct (IH (delay 800 (beep 2 50 50 w))) as (w2 & Hrun & Hb & Hm & Ho).
    + rewrite Hn. lia.
    + rewrite Hn. lia.
    + exists w2. rewrite Hrun. rewrite Hn in Hm.
      cbn [outs delay] in Ho. rewrite beep_outs in Ho.
      repeat split; [lia | lia | lia | exact Ho].
  - exists w. repeat split; [lia | lia | lia].
Qed.

(** The top-up loop polls in passes of 500 ms (plus the time of the
    reading) and gives up once [loadTime * 1.5] has passed.  If the level
    line never shows water in the meantime it does run that long. *)
Lemma wait_top_up_terminates (t3 loadTime : Z) (fuel : nat) (w : World) :
  0 <= loadTime < 2 ^ 30 ->
  0 <= now w - t3 /\ 2 * (now w - t3) < 3 * loadTime + 1000 ->
  3 * loadTime + 1000 - 2 * (now w - t3) <= 1000 * Z.of_nat fuel ->
  exists w1,
    wait_top_up hw fuel (ulong t3) loadTime w = (Done tt, w1) /\
    2 * (now w1 - t3) < 3 * loadTime + 1020 /\
    now w <= now w1 /\ outs w1 = outs w /\
    ((forall t, now w <= t -> digital_in hw WATER_DISABLED_PIN t (outs w) = HIGH) ->
     3 * loadTime <= 2 * (now w1 - t3)).
Proof.
  intros HL.
  revert w. induction fuel as [| fuel IH]; intros w He Hfuel; [lia |].
  cbn [wait_top_up].
  pose proof (isLoaded_now w) as Hnow. pose proof (isLoaded_outs w) as Houts.
  pose proof (isLoaded_loop_true_iff hw 10 w) as Htrue.
  fold (isLoaded hw w) in Htrue.
  destruct (isLoaded hw w) as [loaded w1]. cbn [fst snd] in Hnow, Houts, Htrue.
  unfold millis. rewrite usub_ulong by lia. rewrite real_lt_mul.
  destruct loaded; cbn [negb andb].
  - exists w1. repeat split; [lia | lia | exact Houts |].
    intros Hdry. exfalso.
    assert (sample hw w 0 = LOW) as H0 by (apply Htrue; [reflexivity | lia]).
    unfold sample in H0. rewrite Hdry in H0 by lia. discriminate H0.
  - destruct (Z.ltb_spec (2 * (now w1 - t3)) (3 * loadTime)) as [Hlt | Hge].
    + assert (now (delay 400 (beep 1 50 50 w1)) = now w1 + 500) as Hn.
      { cbn [now delay]. rewrite beep_now.
        change (ulong 400) with 400.
        change (Z.of_nat (Z.to_nat 1) * ulong (50 + 50)) with 100. lia. }
      assert (outs (delay 400 (beep 1 50 50 w1)) = outs w) as Hout.
      { cbn [outs delay]. now rewrite beep_outs. }
      destruct (IH (delay 400 (beep 1 50 50 w1)))
        as (w2 & Hrun & Hb & Hm & Ho & Hdry2).
      * rewrite Hn. lia.
      * rewrite Hn. lia.
      * exists w2. rewrite Hrun. rewrite Hn in Hm.
        repeat split; [lia | lia | congruence |].
        intros Hdry. apply Hdry2. intros t Ht. rewrite Hout.
        apply Hdry. lia.
    + exists w1. repeat split; [lia | lia | exact Houts | intros _; lia].
Qed.

(** None of the four loops can end in [crash]. *)
Lemma wait_base_level_outcome (fuel : nat) (t : Z) (w : World) :
  fst (wait_base_level hw fuel t w) = Done tt \/
  fst (wait_base_level hw fuel t w) = OutOfFuel.
Proof.
  revert w. induction fuel as [| fuel IH]; intros w;
    cbn [wait_base_level]; [now right |].
  destruct (isLoaded hw w) as [loaded w1].
  split_if; [apply IH | now left].
Qed.

Lemma wait_double_level_outcome (fuel : nat) (t l : Z) (w : World) :
  fst (wait_double_level fuel t l w) = Done tt \/
  fst (wait_double_level fuel t l w) = OutOfFuel.
Proof.
  revert w. induction fuel as [| fuel IH]; intros w;
    cbn [wait_double_level]; [now right |].
  split_if; [apply IH | now left].
Qed.

Lemma wait_agitation_outcome (fuel : nat) (t l : Z) (w : World) :
  fst (wait_agitation fuel t l w) = Done tt \/
  fst (wait_agitation fuel t l w) = OutOfFuel.
Proof.
  revert w. induction fuel as [| fuel IH]; intros w;
    cbn [wait_agitation]; [now right |].
  split_if; [apply IH | now left].
Qed.

Lemma wait_top_up_outcome (fuel : nat) (t l : Z) (w : World) :
  fst (wait_top_up hw fuel t l w) = Done tt \/
  fst (wait_top_up hw fuel t l w) = OutOfFuel.
Proof.
  revert w. induction fuel as [| fuel IH]; intros w;
    cbn [wait_top_up]; [now right |].
  destruct (isLoaded hw w) as [loaded w1].
  split_if; [apply IH | now left].
Qed.

End LoadLoops.

(** ** Stretches of the log *)

Lemma only_refl (P : Event -> bool) (w : World) : only P w w.
Proof. exists []. now rewrite app_nil_r. Qed.

Lemma only_trans (P : Event -> bool) (w0 w1 w2 : World) :
  only P w0 w1 -> only P w1 w2 -> only P w0 w2.
Proof.
  intros (e1 & H1 & F1) (e2 & H2 & F2). exists (e1 ++ e2). split.
  - now rewrite H2, H1, app_assoc.
  - now rewrite forallb_app, F1, F2.
Qed.

Lemma only_event (P : Event -> bool) (w w' : World) (e : Event) :
  log w' = log w ++ [e] -> P e = true -> only P w w'.
Proof. intros Hl He. exists [e]. split; [exact Hl | cbn; now rewrite He]. Qed.

Lemma only_weaken (P Q : Event -> bool) (w w' : World) :
  (forall e, P e = true -> Q e = true) -> only P w w' -> only Q w w'.
Proof.
  intros HPQ (evs & Hl & Hf). exists evs. split; [exact Hl |].
  rewrite forallb_forall in *. auto.
Qed.

Lemma only_delay (P : Event -> bool) (ms : Z) (w : World) :
  P (EvDelay (ulong ms)) = true -> only P w (delay ms w).
Proof. intros H. now apply only_event with (e := EvDelay (ulong ms)). Qed.

Lemma only_tone (P : Event -> bool) (p : Pin) (f d : Z) (w : World) :
  P (EvTone p f d) = true -> only P w (tone p f d w).
Proof. intros H. now apply only_event with (e := EvTone p f d). Qed.

Lemma only_write (P : Event -> bool) (p : Pin) (v : bool) (w : World) :
  P (EvWrite p v) = true -> only P w (digitalWrite p v w).
Proof. intros H. now apply only_event with (e := EvWrite p v). Qed.

Lemma only_pause_beep_loop (n : nat) (l d : Z) (w : World) :
  only is_pause w (beep_loop n l d w).
Proof.
  revert w. induction n as [| n IH]; intros w; cbn [beep_loop].
  - apply only_refl.
  - eapply only_trans; [| apply IH].
    eapply only_trans; [apply only_tone | apply only_delay]; reflexivity.
Qed.

Lemma only_pause_beep (many l d : Z) (w : World) :
  only is_pause w (beep many l d w).
Proof. apply only_pause_beep_loop. Qed.

(** While the main pump churns the water, [load] only beeps and waits: the
    level line is not read. *)
Lemma only_pause_wait_agitation (fuel : nat) (t l : Z) (w : World) :
  only is_pause w (snd (wait_agitation fuel t l w)).
Proof.
  revert w. induction fuel as [| fuel IH]; intros w;
    cbn [wait_agitation]; [apply only_refl |].
  split_if; [| apply only_refl].
  eapply only_trans; [| apply IH].
  eapply only_trans; [apply only_pause_beep | now apply only_delay].
Qed.

(** ** load, phase by phase *)

Section LoadPhases.

Variable hw : Sensors.

Lemma load_start_now (w : World) : now (load_start w) = now w + 2940.
Proof.
  unfold load_start, beepMessage. rewrite !beep_now, reset_now.
  change (ulong 200) with 200.
  change (Z.of_nat (Z.to_nat 2) * ulong (350 + 220)) with 1140.
  change (Z.of_nat (Z.to_nat LOAD_MSG) * ulong (150 + 50)) with 600.
  lia.
Qed.

(** [load_base] written out: the polling loop, the final reading and the
    test for a timeout without water. *)
Lemma load_base_eq (fuel : nat) (w : World) :
  load_base hw fuel w =
  match wait_base_level hw fuel (millis (load_start w))
          (digitalWrite WATER_LOAD_PIN RELAY_MODULE_ON (load_start w)) with
  | (Done _, w1) =>
      if negb (fst (isLoaded hw w1)) &&
         (LOAD_TIMEOUT <=?
            usub (millis (snd (isLoaded hw w1))) (millis (load_start w)))
      then crash FAILED_LOAD_ISSUE (snd (isLoaded hw w1))
      else (Done (usub (millis (snd (isLoaded hw w1))) (millis (load_start w))),
            snd (isLoaded hw w1))
  | (Halted issue, w1) => (Halted issue, w1)
  | (OutOfFuel, w1) => (OutOfFuel, w1)
  end.
Proof.
  unfold load_base, bind, exec, eval, get_millis, ret, load_start.
  destruct (wait_base_level hw fuel _ _) as [[[] | issue |] w1];
    try reflexivity.
  destruct (isLoaded hw w1) as [loaded w2]. cbn [fst snd].
  now destruct (negb loaded && _).
Qed.

(** The polling loop of [load_base] always ends, at most 200020 ms after the
    valve was opened. *)
Lemma load_base_polling (fuel : nat) (w : World) :
  enough_fuel fuel ->
  exists w1,
    wait_base_level hw fuel (millis (load_start w))
      (digitalWrite WATER_LOAD_PIN RELAY_MODULE_ON (load_start w))
    = (Done tt, w1) /\
    now (load_start w) <= now w1 < now (load_start w) + 200020 /\
    outs w1 = set_pin (outs (load_start w)) WATER_LOAD_PIN RELAY_MODULE_ON.
Proof.
  intros Hfuel. unfold enough_fuel in Hfuel.
  generalize (load_start w). intros w0.
  destruct (wait_base_level_terminates hw (now w0) fuel
              (digitalWrite WATER_LOAD_PIN RELAY_MODULE_ON w0))
    as (w1 & Hrun & Hn & Hb & Ho).
  - cbn [now digitalWrite]. unfold LOAD_TIMEOUT. lia.
  - cbn [now digitalWrite]. unfold LOAD_TIMEOUT. lia.
  - exists w1. unfold millis at 1. rewrite Hrun.
    cbn [now digitalWrite outs] in Hn, Ho. unfold LOAD_TIMEOUT in Hb.
    repeat split; [lia | lia | exact Ho].
Qed.

(** With enough fuel [load_base] either reports the failed load or returns
    a load time below 200030 ms, which is the time since the valve opened. *)
Lemma load_base_result (fuel : nat) (w : World) :
  enough_fuel fuel ->
  fst (load_base hw fuel w) = Halted FAILED_LOAD_ISSUE \/
  exists loadTime w2,
    load_base hw fuel w = (Done loadTime, w2) /\
    0 <= loadTime < 200030 /\
    now w2 = now (load_start w) + loadTime /\
    outs w2 = set_pin (outs (load_start w)) WATER_LOAD_PIN RELAY_MODULE_ON.
Proof.
  intros Hfuel. rewrite load_base_eq.
  destruct (load_base_polling fuel w Hfuel) as (w1 & Hrun & Hn & Ho).
  rewrite Hrun.
  pose proof (isLoaded_now hw w1) as Hnow.
  pose proof (isLoaded_outs hw w1) as Houts.
  unfold millis. rewrite usub_ulong by lia.
  split_if; [now left | right].
  exists (now (snd (isLoaded hw w1)) - now (load_start w)),
         (snd (isLoaded hw w1)).
  repeat split; [lia | lia | lia | congruence].
Qed.

(** After the base level the three waits always end, and each lasts as long
    as the measured load time says. *)
Lemma load_waits (fuel : nat) (loadTime : Z) (w1 : World) :
  enough_fuel fuel ->
  0 <= loadTime < 200030 ->
  exists w2 w3 w4,
    load_double fuel loadTime w1 = (Done tt, w2) /\
    load_agitate fuel loadTime w2 = (Done tt, w3) /\
    load_top_up hw fuel loadTime w3 = (Done tt, w4) /\
    loadTime <= now w2 - now w1 < loadTime + 1130 /\
    2 * loadTime <= 3 * (now w3 - now w2) < 2 * loadTime + 3000 /\
    0 <= 2 * (now w4 - now w3) < 3 * loadTime + 1020 /\
    ((forall t, now w3 <= t ->
        digital_in hw WATER_DISABLED_PIN t (outs w3) = HIGH) ->
     3 * loadTime <= 2 * (now w4 - now w3)) /\
    outs w2 = outs w1 /\
    outs w3 = set_pin (outs w1) MAIN_PUMP_PIN RELAY_MODULE_ON /\
    outs w4 = outs w3 /\
    only is_pause (digitalWrite MAIN_PUMP_PIN RELAY_MODULE_ON w2) w3.
Proof.
  intros Hfuel HL. unfold enough_fuel in Hfuel.
  destruct (wait_double_level_terminates (now w1) loadTime fuel w1)
    as (w2 & Hrun2 & Hb2 & Hm2 & Ho2); [lia | lia | lia |].
  destruct (wait_agitation_terminates (now w2) loadTime fuel
              (digitalWrite MAIN_PUMP_PIN RELAY_MODULE_ON w2))
    as (w3 & Hrun3 & Hb3 & Hm3 & Ho3);
    [lia | cbn [now digitalWrite]; lia | cbn [now digitalWrite]; lia |].
  destruct (wait_top_up_terminates hw (now w3) loadTime fuel w3)
    as (w4 & Hrun4 & Hb4 & Hm4 & Ho4 & Hdry); [lia | lia | lia |].
  cbn [now digitalWrite outs] in Hb3, Hm3, Ho3.
  exists w2, w3, w4.
  assert (load_agitate fuel loadTime w2 = (Done tt, w3)) as Hag.
  { unfold load_agitate, bind, exec, get_millis. exact Hrun3. }
  split; [exact Hrun2 |]. split; [exact Hag |]. split; [exact Hrun4 |].
  repeat split; try lia; try assumption.
  - rewrite Ho3. now rewrite Ho2.
  - pose proof (only_pause_wait_agitation fuel (ulong (now w2)) loadTime
                  (digitalWrite MAIN_PUMP_PIN RELAY_MODULE_ON w2)) as Hq.
    now rewrite Hrun3 in Hq.
Qed.

(** [load] is its five phases in sequence. *)
Lemma load_run (fuel : nat) (w w1 w2 w3 w4 : World) (loadTime : Z) :
  load_base hw fuel w = (Done loadTime, w1) ->
  load_double fuel loadTime w1 = (Done tt, w2) ->
  load_agitate fuel loadTime w2 = (Done tt, w3) ->
  load_top_up hw fuel loadTime w3 = (Done tt, w4) ->
  load hw fuel w = load_finish hw w4.
Proof.
  intros H1 H2 H3 H4. unfold load, bind at 1. rewrite H1.
  unfold bind at 1. rewrite H2. unfold bind at 1. rewrite H3.
  unfold bind at 1. now rewrite H4.
Qed.

(** The final reading decides how [load] ends. *)
Lemma load_finish_eq (w4 : World) :
  load_finish hw w4 =
  if fst (isLoaded hw w4)
  then (Done tt,
        delay 1000 (digitalWrite WATER_LOAD_PIN RELAY_MODULE_OFF
                      (snd (isLoaded hw w4))))
  else crash FAILED_TOP_UP_ISSUE (snd (isLoaded hw w4)).
Proof.
  unfold load_finish, bind, exec, eval, ret.
  destruct (isLoaded hw w4) as [[] w5]; reflexivity.
Qed.

End LoadPhases.

(** ** How load fails *)

(** C3. With enough fuel the polling loop of [load] ends, in a state [w1].
    [load] then takes one more reading and fails with [FAILED_LOAD_ISSUE]
    (code 3) exactly when that reading shows no water and at least
    [LOAD_TIMEOUT] = 200000 ms have passed since the valve was opened.  When
    the reading shows water, timeout or not, the elapsed time becomes the load
    time and [load] goes on to its final reading. *)
Theorem load_fails_iff_timeout_without_water
    (hw : Sensors) (fuel : nat) (w : World) :
  enough_fuel fuel ->
  exists w1 : World,
    wait_base_level hw fuel (millis (load_start w))
      (digitalWrite WATER_LOAD_PIN RELAY_MODULE_ON (load_start w))
    = (Done tt, w1) /\
    let loaded := fst (isLoaded hw w1) in
    let w2 := snd (isLoaded hw w1) in
    let elapsed := now w2 - now (load_start w) in
    (fst (load hw fuel w) = Halted FAILED_LOAD_ISSUE <->
     loaded = false /\ LOAD_TIMEOUT <= elapsed) /\
    (loaded = false /\ LOAD_TIMEOUT <= elapsed ->
     load hw fuel w = crash FAILED_LOAD_ISSUE w2) /\
    (loaded = true ->
     load_base hw fuel w = (Done elapsed, w2) /\
     exists w4, load hw fuel w = load_finish hw w4).
Proof.
  intros Hfuel.
  destruct (load_base_polling hw fuel w Hfuel) as (w1 & Hrun & Hn & Ho).
  exists w1. split; [exact Hrun |].
  pose proof (load_base_eq hw fuel w) as Hbase. rewrite Hrun in Hbase.
  pose proof (isLoaded_now hw w1) as Hnow.
  clear Hrun. generalize dependent (load_start w). intros w0 Hn Ho Hbase.
  unfold millis in Hbase. rewrite usub_ulong in Hbase by lia.
  assert (0 <= now (snd (isLoaded hw w1)) - now w0 < 200030) as HL by lia.
  cbv zeta.
  destruct (fst (isLoaded hw w1)) eqn:Hloaded; cbn [negb andb] in Hbase.
  - (* the final reading shows water *)
    destruct (load_waits hw fuel _ (snd (isLoaded hw w1)) Hfuel HL)
      as (w2 & w3 & w4 & H2 & H3 & H4 & _).
    pose proof (load_run hw fuel _ _ _ _ _ _ Hbase H2 H3 H4) as Hload.
    split; [| split].
    + rewrite Hload, load_finish_eq. split.
      * destruct (fst (isLoaded hw w4)); cbn; discriminate.
      * intros [H _]. discriminate H.
    + intros [H _]. discriminate H.
    + intros _. split; [exact Hbase | now exists w4].
  - (* the final reading shows no water *)
    destruct (Z.leb_spec LOAD_TIMEOUT (now (snd (isLoaded hw w1)) - now w0))
      as [Hto | Hnto].
    + assert (load hw fuel w
              = crash FAILED_LOAD_ISSUE (snd (isLoaded hw w1))) as Hload.
      { unfold load, bind at 1. now rewrite Hbase. }
      split; [| split].
      * rewrite Hload. split; [intros _; now split | reflexivity].
      * intros _. exact Hload.
      * discriminate.
    + destruct (load_waits hw fuel _ (snd (isLoaded hw w1)) Hfuel HL)
        as (w2 & w3 & w4 & H2 & H3 & H4 & _).
      pose proof (load_run hw fuel _ _ _ _ _ _ Hbase H2 H3 H4) as Hload.
      split; [| split].
      * rewrite Hload, load_finish_eq. split.
        -- destruct (fst (isLoaded hw w4)); cbn; discriminate.
        -- intros [_ H]. lia.
      * intros [_ H]. lia.
      * discriminate.
Qed.

Lemma load_fails_iff_timeout_without_water_witness :
  exists w1 : World,
    wait_base_level full_tank load_fuel (millis (load_start idle_world))
      (digitalWrite WATER_LOAD_PIN RELAY_MODULE_ON (load_start idle_world))
    = (Done tt, w1) /\
    let loaded := fst (isLoaded full_tank w1) in
    let w2 := snd (isLoaded full_tank w1) in
    let elapsed := now w2 - now (load_start idle_world) in
    (fst (load full_tank load_fuel idle_world) = Halted FAILED_LOAD_ISSUE <->
     loaded = false /\ LOAD_TIMEOUT <= elapsed) /\
    (loaded = false /\ LOAD_TIMEOUT <= elapsed ->
     load full_tank load_fuel idle_world = crash FAILED_LOAD_ISSUE w2) /\
    (loaded = true ->
     load_base full_tank load_fuel idle_world = (Done elapsed, w2) /\
     exists w4, load full_tank load_fuel idle_world = load_finish full_tank w4).
Proof.
  apply (load_fails_iff_timeout_without_water full_tank load_fuel idle_world).
  unfold enough_fuel, load_fuel. lia.
Defined.

(** C4. Once the base level was reached ([load_base] returned a load time),
    the three waits end, the last of them in a state [w4] with the main pump
    still on.  [load] then takes one final reading: if it shows no water,
    [load] ends in [crash(FAILED_TOP_UP_ISSUE)] (code 4); if it shows water,
    [load] completes.  In particular, when the level line shows no water
    whenever the main pump is on, [load] fails with code 4. *)
Theorem load_fails_top_up
    (hw : Sensors) (fuel : nat) (w : World) (loadTime : Z) :
  enough_fuel fuel ->
  fst (load_base hw fuel w) = Done loadTime ->
  exists w3 w4 : World,
    load_top_up hw fuel loadTime w3 = (Done tt, w4) /\
    outs w4 MAIN_PUMP_PIN = RELAY_MODULE_ON /\
    0 <= 2 * (now w4 - now w3) < 3 * loadTime + 1020 /\
    load hw fuel w = load_finish hw w4 /\
    (fst (isLoaded hw w4) = false ->
     load hw fuel w = crash FAILED_TOP_UP_ISSUE (snd (isLoaded hw w4))) /\
    (fst (isLoaded hw w4) = true -> fst (load hw fuel w) = Done tt) /\
    ((forall t o, o MAIN_PUMP_PIN = RELAY_MODULE_ON ->
        digital_in hw WATER_DISABLED_PIN t o = HIGH) ->
     fst (load hw fuel w) = Halted FAILED_TOP_UP_ISSUE).
Proof.
  intros Hfuel Hbase.
  destruct (load_base_result hw fuel w Hfuel)
    as [Hfail | (L & w1 & Hrun & HL & _ & _)]; [congruence |].
  rewrite Hrun in Hbase. cbn [fst] in Hbase.
  injection Hbase as ->.
  destruct (load_waits hw fuel loadTime w1 Hfuel HL)
    as (w2 & w3 & w4 & H2 & H3 & H4 & _ & _ & Hb4 & _ & _ & Ho3 & Ho4 & _).
  pose proof (load_run hw fuel _ _ _ _ _ _ Hrun H2 H3 H4) as Hload.
  assert (outs w4 MAIN_PUMP_PIN = RELAY_MODULE_ON) as Hpump.
  { rewrite Ho4, Ho3. reflexivity. }
  exists w3, w4.
  split; [exact H4 |]. split; [exact Hpump |]. split; [exact Hb4 |].
  split; [exact Hload |].
  rewrite Hload, load_finish_eq.
  split; [| split].
  - now intros ->.
  - now intros ->.
  - intros Hdry.
    destruct (fst (isLoaded hw w4)) eqn:Hloaded; [exfalso | reflexivity].
    pose proof (proj1 (isLoaded_loop_true_iff hw 10 w4) Hloaded 0) as H0.
    unfold sample in H0. rewrite Z.add_0_r in H0.
    rewrite Hdry in H0 by exact Hpump. discriminate H0. cbn; lia.
Qed.

Lemma load_fails_top_up_witness :
  exists w3 w4 : World,
    load_top_up pump_drains load_fuel 20 w3 = (Done tt, w4) /\
    outs w4 MAIN_PUMP_PIN = RELAY_MODULE_ON /\
    0 <= 2 * (now w4 - now w3) < 3 * 20 + 1020 /\
    load pump_drains load_fuel idle_world = load_finish pump_drains w4 /\
    (fst (isLoaded pump_drains w4) = false ->
     load pump_drains load_fuel idle_world
     = crash FAILED_TOP_UP_ISSUE (snd (isLoaded pump_drains w4))) /\
    (fst (isLoaded pump_drains w4) = true ->
     fst (load pump_drains load_fuel idle_world) = Done tt) /\
    ((forall t o, o MAIN_PUMP_PIN = RELAY_MODULE_ON ->
        digital_in pump_drains WATER_DISABLED_PIN t o = HIGH) ->
     fst (load pump_drains load_fuel idle_world) = Halted FAILED_TOP_UP_ISSUE).
Proof.
  apply (load_fails_top_up pump_drains load_fuel idle_world 20).
  - unfold enough_fuel, load_fuel. lia.
  - vm_compute. reflexivity.
Defined.

(** ** The timing of load *)

Section LoadTiming.

Variable hw : Sensors.

(** [t0] is the instant at which the valve opens, [T] the delay after which
    the level line first shows water, for the 30 ms that measuring takes. *)
Variables t0 T : Z.
Hypothesis T_range : 0 <= T <= LOAD_TIMEOUT.
Hypothesis dry_before :
  forall t o, t < t0 + T -> digital_in hw WATER_DISABLED_PIN t o = HIGH.
Hypothesis wet_after :
  forall t o, t0 + T <= t < t0 + T + 30 ->
              digital_in hw WATER_DISABLED_PIN t o = LOW.

Lemma isLoaded_dry (w : World) :
  now w < t0 + T ->
  fst (isLoaded hw w) = false /\ now (snd (isLoaded hw w)) = now w.
Proof.
  intros H.
  destruct (isLoaded_loop_first_bad hw 10 w 0) as (Hr & Hn & _).
  - lia.
  - intros i Hi. cbn in Hi. lia.
  - unfold sample. apply dry_before. cbn. lia.
  - change (Z.of_nat 0) with 0 in Hn. rewrite Z.add_0_r in Hn.
    split; [exact Hr | exact Hn].
Qed.

Lemma isLoaded_wet (w : World) :
  t0 + T <= now w < t0 + T + 20 ->
  fst (isLoaded hw w) = true /\ now (snd (isLoaded hw w)) = now w + 10.
Proof.
  intros H.
  assert (fst (isLoaded hw w) = true) as Hr.
  { apply (isLoaded_loop_true_iff hw 10 w). intros i Hi.
    unfold sample. apply wet_after. cbn in Hi. lia. }
  split; [exact Hr |].
  now destruct (isLoaded_loop_true_run hw 10 w Hr) as [Hn _].
Qed.

(** The polling loop sees the water at the first poll at or after [T], polls
    being 10 ms apart, and spends 10 ms on that reading. *)
Lemma wait_base_level_first_filled (fuel : nat) (w : World) :
  (now w - t0) mod 10 = 0 ->
  0 <= now w - t0 < T + 10 ->
  T + 10 - (now w - t0) <= 10 * Z.of_nat fuel ->
  exists w1,
    wait_base_level hw fuel (ulong t0) w = (Done tt, w1) /\
    now w1 = t0 + 10 * ((T + 9) / 10) + 10 /\
    outs w1 = outs w.
Proof.
  unfold LOAD_TIMEOUT in T_range.
  revert w. induction fuel as [| fuel IH]; intros w Hmod He Hfuel; [lia |].
  cbn [wait_base_level].
  pose proof (isLoaded_outs hw w) as Houts.
  destruct (Z_lt_le_dec (now w) (t0 + T)) as [Hdry | Hwet].
  - destruct (isLoaded_dry w Hdry) as [Hr Hn].
    destruct (isLoaded hw w) as [loaded w1]. cbn [fst snd] in Hr, Hn, Houts.
    subst loaded. unfold millis. rewrite usub_ulong by lia.
    cbn [negb andb]. unfold LOAD_TIMEOUT.
    destruct (Z.ltb_spec (now w1 - t0) 200000) as [_ | Hge]; [| lia].
    destruct (IH (delay 10 w1)) as (w2 & Hrun & Hn2 & Ho2).
    + cbn [now delay]. change (ulong 10) with 10.
      replace (now w1 + 10 - t0) with (now w - t0 + 1 * 10) by lia.
      now rewrite Z.mod_add by lia.
    + cbn [now delay]. change (ulong 10) with 10. lia.
    + cbn [now delay]. change (ulong 10) with 10. lia.
    + exists w2. cbn [outs delay] in Ho2. repeat split; congruence.
  - destruct (isLoaded_wet w ltac:(lia)) as [Hr Hn].
    destruct (isLoaded hw w) as [loaded w1]. cbn [fst snd] in Hr, Hn, Houts.
    subst loaded. cbn [negb andb].
    exists w1. repeat split; [| exact Houts].
    rewrite Hn. apply Z.mod_divide in Hmod; [| lia].
    destruct Hmod as [j Hj].
    assert ((T + 9) / 10 = j) as ->
      by (symmetry; apply Z.div_unique with (r := T + 9 - 10 * j); lia).
    lia.
Qed.

End LoadTiming.

(** C2. [load] opens the valve 2940 ms after it is called.  Let the level
    line show no water before [T] ms have passed since then, and water from
    then on for the 30 ms that the measurement takes.  Then, with enough fuel:
    - the measured load time is [T] rounded up to the 10 ms of the polling
      period plus the 20 ms of the two readings that confirm the water, so
      [T + 20 <= loadTime < T + 30];
    - the doubling wait lasts at least [loadTime] and less than one pass of
      1130 ms more;
    - the agitation wait starts by switching the main pump on, then only
      beeps and waits (no reading of the level), for at least
      [loadTime / 1.5] and less than one pass of 1000 ms more;
    - the top-up polling ends less than [loadTime * 1.5 + 510] ms after it
      began, and lasts at least [loadTime * 1.5] when the level line shows no
      water all along;
    - all three durations come from the one measured [loadTime]. *)
Theorem load_timing (hw : Sensors) (fuel : nat) (w : World) (T : Z) :
  enough_fuel fuel ->
  0 <= T <= LOAD_TIMEOUT ->
  (forall t o, t < now w + 2940 + T ->
               digital_in hw WATER_DISABLED_PIN t o = HIGH) ->
  (forall t o, now w + 2940 + T <= t < now w + 2940 + T + 30 ->
               digital_in hw WATER_DISABLED_PIN t o = LOW) ->
  exists (loadTime : Z) (w1 w2 w3 w4 : World),
    load_base hw fuel w = (Done loadTime, w1) /\
    load_double fuel loadTime w1 = (Done tt, w2) /\
    load_agitate fuel loadTime w2 = (Done tt, w3) /\
    load_top_up hw fuel loadTime w3 = (Done tt, w4) /\
    load hw fuel w = load_finish hw w4 /\
    loadTime = 10 * ((T + 9) / 10) + 20 /\
    T + 20 <= loadTime < T + 30 /\
    now w1 = now w + 2940 + loadTime /\
    loadTime <= now w2 - now w1 < loadTime + 1130 /\
    2 * loadTime <= 3 * (now w3 - now w2) < 2 * loadTime + 3000 /\
    outs w3 MAIN_PUMP_PIN = RELAY_MODULE_ON /\
    only is_pause (digitalWrite MAIN_PUMP_PIN RELAY_MODULE_ON w2) w3 /\
    0 <= 2 * (now w4 - now w3) < 3 * loadTime + 1020 /\
    ((forall t, now w3 <= t ->
        digital_in hw WATER_DISABLED_PIN t (outs w3) = HIGH) ->
     3 * loadTime <= 2 * (now w4 - now w3)).
Proof.
  intros Hfuel HT Hdry Hwet.
  pose proof (load_base_eq hw fuel w) as Hbase.
  pose proof (load_start_now w) as Hstart.
  generalize dependent (load_start w). intros w0 Hbase Hstart.
  rewrite <- Hstart in Hdry, Hwet.
  destruct (wait_base_level_first_filled hw (now w0) T HT Hdry Hwet fuel
              (digitalWrite WATER_LOAD_PIN RELAY_MODULE_ON w0))
    as (w1 & Hrun & Hn1 & _).
  { cbn [now digitalWrite]. now rewrite Z.sub_diag. }
  { cbn [now digitalWrite]. lia. }
  { cbn [now digitalWrite]. unfold enough_fuel in Hfuel.
    unfold LOAD_TIMEOUT in HT. lia. }
  cbn [now digitalWrite] in Hn1.
  assert (10 * ((T + 9) / 10) - 9 <= T <= 10 * ((T + 9) / 10)) as Hceil.
  { pose proof (Z.div_mod (T + 9) 10 ltac:(lia)) as Hd.
    pose proof (Z.mod_pos_bound (T + 9) 10 ltac:(lia)) as Hm. lia. }
  destruct (isLoaded_wet hw (now w0) T Hwet w1 ltac:(lia)) as [Hr Hn2].
  unfold millis at 1 in Hbase. rewrite Hrun, Hr in Hbase.
  cbn [negb andb] in Hbase.
  unfold millis in Hbase. unfold LOAD_TIMEOUT in HT.
  rewrite usub_ulong in Hbase by lia.
  set (loadTime := now (snd (isLoaded hw w1)) - now w0) in *.
  assert (loadTime = 10 * ((T + 9) / 10) + 20) as HL by (unfold loadTime; lia).
  destruct (load_waits hw fuel loadTime (snd (isLoaded hw w1)) Hfuel
              ltac:(lia))
    as (w2 & w3 & w4 & H2 & H3 & H4 & Hb2 & Hb3 & Hb4 & Hlow
        & _ & Ho3 & _ & Hquiet).
  exists loadTime, (snd (isLoaded hw w1)), w2, w3, w4.
  split; [exact Hbase |]. split; [exact H2 |]. split; [exact H3 |].
  split; [exact H4 |].
  split; [exact (load_run hw fuel _ _ _ _ _ _ Hbase H2 H3 H4) |].
  split; [exact HL |]. split; [lia |]. split; [unfold loadTime; lia |].
  split; [exact Hb2 |]. split; [exact Hb3 |].
  split; [now rewrite Ho3 |]. split; [exact Hquiet |].
  split; [exact Hb4 | exact Hlow].
Qed.

Lemma load_timing_witness :
  exists (loadTime : Z) (w1 w2 w3 w4 : World),
    load_base (fills_at 2965) load_fuel idle_world = (Done loadTime, w1) /\
    load_double load_fuel loadTime w1 = (Done tt, w2) /\
    load_agitate load_fuel loadTime w2 = (Done tt, w3) /\
    load_top_up (fills_at 2965) load_fuel loadTime w3 = (Done tt, w4) /\
    load (fills_at 2965) load_fuel idle_world
    = load_finish (fills_at 2965) w4 /\
    loadTime = 10 * ((25 + 9) / 10) + 20 /\
    25 + 20 <= loadTime < 25 + 30 /\
    now w1 = now idle_world + 2940 + loadTime /\
    loadTime <= now w2 - now w1 < loadTime + 1130 /\
    2 * loadTime <= 3 * (now w3 - now w2) < 2 * loadTime + 3000 /\
    outs w3 MAIN_PUMP_PIN = RELAY_MODULE_ON /\
    only is_pause (digitalWrite MAIN_PUMP_PIN RELAY_MODULE_ON w2) w3 /\
    0 <= 2 * (now w4 - now w3) < 3 * loadTime + 1020 /\
    ((forall t, now w3 <= t ->
        digital_in (fills_at 2965) WATER_DISABLED_PIN t (outs w3) = HIGH) ->
     3 * loadTime <= 2 * (now w4 - now w3)).
Proof.
  apply (load_timing (fills_at 2965) load_fuel idle_world 25).
  - unfold enough_fuel, load_fuel. lia.
  - unfold LOAD_TIMEOUT. lia.
  - intros t o Ht. cbn in *. apply Z.ltb_lt. lia.
  - intros t o Ht. cbn in *. apply Z.ltb_ge. lia.
Defined.

(** ** Sequencing *)

(** A sequence halts either in its first part or, that part done, in the
    rest. *)
Lemma bind_halted {A B : Type} (c : M A) (k : A -> M B) (w : World) (i : Z) :
  fst (bind c k w) = Halted i ->
  fst (c w) = Halted i \/
  exists a w1, c w = (Done a, w1) /\ fst (k a w1) = Halted i.
Proof.
  unfold bind. destruct (c w) as [[a | issue |] w1]; cbn [fst].
  - intros H. right. exists a, w1. split; [reflexivity | exact H].
  - intros H. left. congruence.
  - discriminate.
Qed.

Lemma only_bind {A B : Type} (P : Event -> bool) (c : M A) (k : A -> M B)
    (w : World) :
  only P w (snd (c w)) ->
  (forall a w1, only P w1 (snd (k a w1))) ->
  only P w (snd (bind c k w)).
Proof.
  intros Hc Hk. unfold bind. destruct (c w) as [[a | issue |] w1]; cbn in *.
  - eapply only_trans; [exact Hc | apply Hk].
  - exact Hc.
  - exact Hc.
Qed.

(** ** Nothing but start_heater switches the heater on *)

Section Quiet.

Variable hw : Sensors.

Lemma quiet_pause (w w' : World) : only is_pause w w' -> only not_heater_on w w'.
Proof. apply only_weaken. now intros []. Qed.

Lemma quiet_delay (ms : Z) (w : World) : only not_heater_on w (delay ms w).
Proof. now apply only_delay. Qed.

Lemma quiet_write (p : Pin) (v : bool) (w : World) :
  (p = HEATER_PIN -> v = LOW) -> only not_heater_on w (digitalWrite p v w).
Proof.
  intros H. apply only_write. unfold not_heater_on.
  destruct p; try reflexivity. now rewrite H.
Qed.

Lemma quiet_digitalRead (p : Pin) (w : World) :
  only not_heater_on w (snd (digitalRead hw p w)).
Proof. now eapply only_event. Qed.

Lemma quiet_analogRead (p : Pin) (w : World) :
  only not_heater_on w (snd (analogRead hw p w)).
Proof. now eapply only_event. Qed.

Lemma quiet_beep (many l d : Z) (w : World) : only not_heater_on w (beep many l d w).
Proof. apply quiet_pause, only_pause_beep. Qed.

Lemma quiet_reset (ms : Z) (w : World) : only not_heater_on w (reset ms w).
Proof.
  unfold reset.
  repeat (eapply only_trans;
          [| first [apply quiet_delay
                   | apply quiet_write; first [reflexivity | discriminate]]]).
  apply only_refl.
Qed.

Lemma quiet_isLoaded_loop (n : nat) (w : World) :
  only not_heater_on w (snd (isLoaded_loop hw n w)).
Proof.
  revert w. induction n as [| n IH]; intros w; cbn [isLoaded_loop].
  - apply only_refl.
  - pose proof (quiet_digitalRead WATER_DISABLED_PIN w) as Hr.
    destruct (digitalRead hw WATER_DISABLED_PIN w) as [[] w1]; cbn [snd] in *.
    + exact Hr.
    + eapply only_trans; [exact Hr |].
      eapply only_trans; [apply quiet_delay | apply IH].
Qed.

Lemma quiet_isLoaded (w : World) : only not_heater_on w (snd (isLoaded hw w)).
Proof. apply quiet_isLoaded_loop. Qed.

Lemma quiet_crash {A : Type} (issue : Z) (w : World) :
  only not_heater_on w (snd (@crash A issue w)).
Proof. apply quiet_reset. Qed.

Lemma quiet_eval {A : Type} (f : World -> A * World) (w : World) :
  only not_heater_on w (snd (f w)) -> only not_heater_on w (snd (eval f w)).
Proof. unfold eval. now destruct (f w). Qed.

Lemma quiet_wait_base_level (fuel : nat) (t : Z) (w : World) :
  only not_heater_on w (snd (wait_base_level hw fuel t w)).
Proof.
  revert w. induction fuel as [| fuel IH]; intros w;
    cbn [wait_base_level]; [apply only_refl |].
  pose proof (quiet_isLoaded w) as Hr.
  destruct (isLoaded hw w) as [loaded w1]. cbn [snd] in Hr.
  split_if; [| exact Hr].
  eapply only_trans; [exact Hr |].
  eapply only_trans; [apply quiet_delay | apply IH].
Qed.

Lemma quiet_wait_double_level (fuel : nat) (t l : Z) (w : World) :
  only not_heater_on w (snd (wait_double_level fuel t l w)).
Proof.
  revert w. induction fuel as [| fuel IH]; intros w;
    cbn [wait_double_level]; [apply only_refl |].
  split_if; [| apply only_refl].
  eapply only_trans; [apply quiet_beep |].
  eapply only_trans; [apply quiet_delay | apply IH].
Qed.

Lemma quiet_wait_agitation (fuel : nat) (t l : Z) (w : World) :
  only not_heater_on w (snd (wait_agitation fuel t l w)).
Proof. apply quiet_pause, only_pause_wait_agitation. Qed.

Lemma quiet_wait_top_up (fuel : nat) (t l : Z) (w : World) :
  only not_heater_on w (snd (wait_top_up hw fuel t l w)).
Proof.
  revert w. induction fuel as [| fuel IH]; intros w;
    cbn [wait_top_up]; [apply only_refl |].
  pose proof (quiet_isLoaded w) as Hr.
  destruct (isLoaded hw w) as [loaded w1]. cbn [snd] in Hr.
  split_if; [| exact Hr].
  eapply only_trans; [exact Hr |].
  eapply only_trans; [apply quiet_beep |].
  eapply only_trans; [apply quiet_delay | apply IH].
Qed.

Lemma quiet_beepMessage (message : Z) (w : World) :
  only not_heater_on w (beepMessage message w).
Proof. unfold beepMessage. eapply only_trans; apply quiet_beep. Qed.

(** Solves the goal on straight-line code, one call at a time. *)
Ltac quiet_step :=
  match goal with
  | |- only _ ?w ?w => apply only_refl
  | |- only _ _ (snd (bind _ _ _)) => apply only_bind; [| intros ? ?]
  | |- only _ _ (snd (exec _ _)) => unfold exec; cbn [snd]
  | |- only _ _ (snd (eval ?f ?w)) => apply (quiet_eval f w)
  | |- only _ _ (snd (crash _ _)) => apply quiet_crash
  | |- only _ _ (snd (ret _ _)) => apply only_refl
  | |- only _ _ (snd (get_millis _)) => apply only_refl
  | |- only _ _ (reset _ _) => apply quiet_reset
  | |- only _ _ (beep _ _ _ _) => apply quiet_beep
  | |- only _ _ (beepMessage _ _) => apply quiet_beepMessage
  | |- only _ _ (delay _ _) => apply quiet_delay
  | |- only _ _ (digitalWrite _ _ _) =>
      apply quiet_write; first [reflexivity | discriminate]
  | |- only _ _ (snd (isLoaded _ _)) => apply quiet_isLoaded
  | |- only _ _ (snd (analogRead _ _ _)) => apply quiet_analogRead
  | |- only _ _ (snd (wait_base_level _ _ _ _)) => apply quiet_wait_base_level
  | |- only _ _ (snd (wait_double_level _ _ _ _)) =>
      apply quiet_wait_double_level
  | |- only _ _ (snd (wait_agitation _ _ _ _)) => apply quiet_wait_agitation
  | |- only _ _ (snd (wait_top_up _ _ _ _ _)) => apply quiet_wait_top_up
  | |- only _ _ (snd ((if ?c then _ else _) _)) => destruct c
  end.

Lemma quiet_load (fuel : nat) (w : World) :
  only not_heater_on w (snd (load hw fuel w)).
Proof.
  unfold load, load_base, load_double, load_agitate, load_top_up, load_finish.
  repeat quiet_step.
Qed.

Lemma quiet_drain (w : World) : only not_heater_on w (snd (drain hw w)).
Proof. unfold drain. repeat quiet_step. Qed.

Lemma quiet_release_soap (soap : bool) (w : World) :
  only not_heater_on w (release_soap soap w).
Proof.
  unfold release_soap. destruct soap; [| apply only_refl].
  repeat (eapply only_trans;
          [| first [apply quiet_delay | apply quiet_write; discriminate]]).
  apply only_refl.
Qed.

Lemma quiet_heartbeat (w : World) : only not_heater_on w (heartbeat w).
Proof.
  unfold heartbeat.
  repeat (eapply only_trans;
          [| first [apply quiet_delay | apply quiet_write; discriminate]]).
  apply only_refl.
Qed.

Lemma quiet_heat_control (temperature cycleStarts Vo washStarts : Z)
    (w : World) :
  only not_heater_on w (snd (heat_control hw temperature cycleStarts Vo washStarts w)).
Proof.
  unfold heat_control. destruct (temperature <? Vo); repeat quiet_step.
Qed.

Lemma quiet_wash_loop (fuel : nat) (washTime temperature cycleStarts : Z)
    (Vo washStarts : Z) (w : World) :
  only not_heater_on w (snd (wash_loop hw fuel washTime temperature cycleStarts
                  Vo washStarts w)).
Proof.
  revert Vo washStarts w. induction fuel as [| fuel IH];
    intros Vo washStarts w; cbn [wash_loop]; [apply only_refl |].
  split_if; [| apply only_refl].
  pose proof (quiet_heat_control temperature cycleStarts Vo washStarts w) as Hh.
  destruct (heat_control hw temperature cycleStarts Vo washStarts w)
    as [[[Vo' washStarts'] | issue |] w1]; cbn [snd] in Hh; try exact Hh.
  eapply only_trans; [exact Hh |].
  eapply only_trans; [apply quiet_heartbeat | apply IH].
Qed.

End Quiet.

(** ** The wash loop *)

Section Wash.

Variable hw : Sensors.

(** The temperature branch of a pass, case by case. *)
Lemma heat_control_eq (temperature cycleStarts Vo washStarts : Z) (w : World) :
  heat_control hw temperature cycleStarts Vo washStarts w =
  if temperature <? Vo then
    (Done (Vo, washStarts), digitalWrite HEATER_PIN LOW w)
  else
    let Vo' := analog_in hw TEMP_SENSOR (now w) (outs w) in
    let w1 := snd (analogRead hw TEMP_SENSOR w) in
    if (Vo' <? temperature) && (HEATER_TIMEOUT <? usub (millis w) cycleStarts)
    then crash FAILED_REACH_TEMP w1
    else (Done (Vo', millis w), beep 1 150 50 w1).
Proof.
  unfold heat_control. destruct (temperature <? Vo); [reflexivity |].
  unfold bind, eval, exec, get_millis, ret, analogRead, millis.
  cbn [fst snd now]. now split_if.
Qed.

(** A pass takes 2000 ms after the temperature branch. *)
Lemma heartbeat_now (w : World) : now (heartbeat w) = now w + 2000.
Proof.
  unfold heartbeat. cbn [now delay digitalWrite].
  change (ulong 1000) with 1000. lia.
Qed.

(** The wash loop can only halt with [FAILED_REACH_TEMP], and it does so
    only in a state in which more than [HEATER_TIMEOUT] ms have passed since
    [cycleStarts] and the reading just taken is below the target. *)
Lemma wash_loop_halts_late (fuel : nat) (washTime temperature cycleStarts : Z)
    (Vo washStarts : Z) (w w' : World) (issue : Z) :
  wash_loop hw fuel washTime temperature cycleStarts Vo washStarts w
  = (Halted issue, w') ->
  issue = FAILED_REACH_TEMP /\
  exists w_raise,
    w' = reset 500 w_raise /\
    HEATER_TIMEOUT < usub (millis w_raise) cycleStarts /\
    analog_in hw TEMP_SENSOR (now w_raise) (outs w_raise) < temperature.
Proof.
  revert Vo washStarts w. induction fuel as [| fuel IH];
    intros Vo washStarts w; cbn [wash_loop]; [discriminate |].
  split_if; [| discriminate].
  rewrite heat_control_eq.
  destruct (temperature <? Vo); [apply IH |].
  cbv zeta.
  destruct (Z.ltb_spec (analog_in hw TEMP_SENSOR (now w) (outs w)) temperature)
    as [Hcold | Hwarm]; cbn [andb]; [| apply IH].
  destruct (Z.ltb_spec HEATER_TIMEOUT (usub (millis w) cycleStarts))
    as [Hlate | Hearly]; [| apply IH].
  unfold crash. intros H. injection H as <- <-.
  split; [reflexivity |].
  exists (snd (analogRead hw TEMP_SENSOR w)).
  split; [reflexivity |]. split; [exact Hlate | exact Hcold].
Qed.

(** When the target is 0 and readings are not negative, the wash loop never
    halts. *)
Lemma wash_loop_no_target (fuel : nat) (washTime cycleStarts : Z)
    (Vo washStarts : Z) (w : World) (issue : Z) :
  (forall t o, 0 <= analog_in hw TEMP_SENSOR t o) ->
  fst (wash_loop hw fuel washTime 0 cycleStarts Vo washStarts w)
  <> Halted issue.
Proof.
  intros Hpos H.
  destruct (wash_loop hw fuel washTime 0 cycleStarts Vo washStarts w)
    as [r w'] eqn:E.
  cbn [fst] in H. subst r.
  apply wash_loop_halts_late in E. destruct E as (_ & w_raise & _ & _ & Hneg).
  specialize (Hpos (now w_raise) (outs w_raise)). lia.
Qed.

Section Cold.

(** The sensor reads below the target all the time, and the wash time is
    longer than one pass of the loop; [c0] is the instant at which
    [cycleStarts] was read. *)
Variables temperature washTime c0 : Z.
Hypothesis cold : forall t o, analog_in hw TEMP_SENSOR t o < temperature.
Hypothesis long_wash : 2200 < umul (umul washTime 60) 1000.

Lemma cold_pass_now (w : World) : now (cold_pass hw w) = now w + 2200.
Proof.
  unfold cold_pass. rewrite heartbeat_now, beep_now. cbn [now analogRead snd].
  change (Z.of_nat (Z.to_nat 1) * ulong (150 + 50)) with 200. lia.
Qed.

(** Passes are 2200 ms apart; the pass that begins 600600 ms after the
    start of the cycle is the first to find the timeout exceeded, and it
    ends in [crash]; with less fuel than that the loop is still running. *)
Lemma wash_loop_cold (fuel : nat) (Vo washStarts : Z) (w : World) (k : Z) :
  now w = c0 + 2200 * k -> 0 <= k <= 273 ->
  Vo < temperature ->
  usub (millis w) washStarts <= 2200 ->
  (Z.of_nat fuel <= 273 - k ->
   fst (wash_loop hw fuel washTime temperature (ulong c0) Vo washStarts w)
   = OutOfFuel) /\
  (273 - k < Z.of_nat fuel ->
   exists w_raise,
     wash_loop hw fuel washTime temperature (ulong c0) Vo washStarts w
     = crash FAILED_REACH_TEMP w_raise /\
     now w_raise = c0 + 600600).
Proof.
  revert Vo washStarts w k. induction fuel as [| fuel IH];
    intros Vo washStarts w k Hnow Hk HVo Hws.
  - split; [reflexivity | lia].
  - cbn [wash_loop].
    destruct (Z.ltb_spec (usub (millis w) washStarts)
                (umul (umul washTime 60) 1000)) as [_ | Hge]; [| lia].
    rewrite heat_control_eq.
    destruct (Z.ltb_spec temperature Vo) as [Hwarm | _]; [lia |].
    cbv zeta.
    destruct (Z.ltb_spec (analog_in hw TEMP_SENSOR (now w) (outs w))
                temperature) as [_ | Hwarm];
      [| specialize (cold (now w) (outs w)); lia].
    cbn [andb].
    replace (usub (millis w) (ulong c0)) with (now w - c0)
      by (unfold millis; rewrite usub_ulong; lia).
    unfold HEATER_TIMEOUT.
    destruct (Z.ltb_spec 600000 (now w - c0)) as [Hlate | Hearly].
    + assert (k = 273) as -> by lia.
      split; [lia | intros _].
      exists (snd (analogRead hw TEMP_SENSOR w)).
      split; [reflexivity | cbn [now analogRead snd]; lia].
    + fold (cold_pass hw w).
      destruct (IH (analog_in hw TEMP_SENSOR (now w) (outs w)) (millis w)
                  (cold_pass hw w) (k + 1)) as [Hout Hcrash].
      * rewrite cold_pass_now. lia.
      * lia.
      * apply cold.
      * rewrite usub_millis; rewrite cold_pass_now; lia.
      * split; intros Hf.
        -- apply Hout. lia.
        -- apply Hcrash. lia.
Qed.

End Cold.

(** When the wash time is not longer than one pass, the loop ends after at
    most one pass, long before the timeout. *)
Lemma wash_loop_short (temperature washTime : Z) (fuel : nat) (Vo : Z)
    (w : World) :
  (forall t o, analog_in hw TEMP_SENSOR t o < temperature) ->
  umul (umul washTime 60) 1000 <= 2200 ->
  Vo < temperature ->
  (2 <= fuel)%nat ->
  exists w2,
    wash_loop hw fuel washTime temperature (millis w) Vo (millis w) w
    = (Done tt, w2) /\
    0 <= now w2 - now w <= 2200.
Proof.
  intros Hcold Hshort HVo Hfuel.
  destruct fuel as [| [| fuel]]; [lia | lia |].
  cbn [wash_loop].
  split_if; [| exists w; split; [reflexivity | lia]].
  rewrite heat_control_eq.
  destruct (Z.ltb_spec temperature Vo) as [Hwarm | _]; [lia |].
  cbv zeta. rewrite usub_millis by lia. rewrite Z.sub_diag.
  change (HEATER_TIMEOUT <? 0) with false. rewrite andb_false_r.
  fold (cold_pass hw w).
  rewrite usub_millis by (rewrite cold_pass_now; lia).
  rewrite cold_pass_now.
  destruct (Z.ltb_spec (now w + 2200 - now w)
              (umul (umul washTime 60) 1000)) as [Hlt | _]; [lia |].
  exists (cold_pass hw w). split; [reflexivity |].
  rewrite cold_pass_now. lia.
Qed.

End Wash.

(** ** cycle *)

Section Cycle.

Variable hw : Sensors.

Lemma wash_eq (fuel : nat) (washTime : Z) (soap : bool) (temperature : Z)
    (w1 : World) :
  wash hw fuel washTime soap temperature w1 =
  let wc := cycle_start hw soap temperature w1 in
  wash_loop hw fuel (ulong washTime) temperature (millis wc)
    (analog_in hw TEMP_SENSOR (now (release_soap soap w1))
       (outs (release_soap soap w1)))
    (millis wc) wc.
Proof. reflexivity. Qed.

Lemma load_base_halts (fuel : nat) (w : World) (issue : Z) :
  fst (load_base hw fuel w) = Halted issue -> issue = FAILED_LOAD_ISSUE.
Proof.
  rewrite load_base_eq.
  destruct (wait_base_level_outcome hw fuel (millis (load_start w))
              (digitalWrite WATER_LOAD_PIN RELAY_MODULE_ON (load_start w)))
    as [H | H];
    destruct (wait_base_level hw fuel _ _) as [[[] | j |] w1];
    cbn [fst] in H; try discriminate H.
  - split_if; cbn [fst crash]; congruence.
  - cbn [fst]. discriminate.
Qed.

Lemma load_halts (fuel : nat) (w : World) (issue : Z) :
  fst (load hw fuel w) = Halted issue ->
  issue = FAILED_LOAD_ISSUE \/ issue = FAILED_TOP_UP_ISSUE.
Proof.
  unfold load. intros H.
  apply bind_halted in H.
  destruct H as [H | (loadTime & w1 & _ & H)];
    [left; now apply load_base_halts in H |].
  apply bind_halted in H. destruct H as [H | ([] & w2 & _ & H)].
  { unfold load_double, bind, get_millis in H.
    destruct (wait_double_level_outcome fuel (millis w1) loadTime w1);
      congruence. }
  apply bind_halted in H. destruct H as [H | ([] & w3 & _ & H)].
  { unfold load_agitate, bind, get_millis, exec in H.
    match type of H with fst (wait_agitation ?f ?t ?l ?x) = _ =>
      destruct (wait_agitation_outcome f t l x) end; congruence. }
  apply bind_halted in H. destruct H as [H | ([] & w4 & _ & H)].
  { unfold load_top_up, bind, get_millis in H.
    destruct (wait_top_up_outcome hw fuel (millis w3) loadTime w3);
      congruence. }
  right. rewrite load_finish_eq in H.
  destruct (fst (isLoaded hw w4)); cbn [fst crash] in H; congruence.
Qed.

Lemma drain_halts (w : World) (issue : Z) :
  fst (drain hw w) = Halted issue -> issue = DRAIN_ISSUE.
Proof.
  destruct (drain_checks_level_aux hw w) as [[w2 H] | [w2 H]]; rewrite H;
    cbn [fst crash]; congruence.
Qed.

(** A [cycle] that halts for the temperature loaded first and halted in its
    wash loop. *)
Lemma cycle_halted_in_wash (fuel : nat) (washTime : Z) (soap : bool)
    (temperature : Z) (w w' : World) :
  cycle hw fuel washTime soap temperature w = (Halted FAILED_REACH_TEMP, w') ->
  fst (load hw fuel w) = Done tt /\
  wash hw fuel washTime soap temperature (snd (load hw fuel w))
  = (Halted FAILED_REACH_TEMP, w').
Proof.
  unfold cycle, bind at 1. intros H.
  pose proof (load_halts fuel w) as Hl.
  destruct (load hw fuel w) as [[[] | i |] w1]; cbn [fst snd] in *.
  - split; [reflexivity |].
    unfold bind in H.
    destruct (wash hw fuel washTime soap temperature w1) as [[[] | i |] w2].
    + pose proof (drain_halts w2 FAILED_REACH_TEMP) as Hd.
      rewrite H in Hd. specialize (Hd eq_refl). discriminate Hd.
    + exact H.
    + discriminate H.
  - injection H as -> _. destruct (Hl _ eq_refl); discriminate.
  - discriminate H.
Qed.

End Cycle.

(** ** Counting how often the heater is switched on *)

Lemma heater_on_count_app (a b : list Event) :
  heater_on_count (a ++ b) = (heater_on_count a + heater_on_count b)%nat.
Proof. unfold heater_on_count. now rewrite filter_app, length_app. Qed.

Lemma heater_on_count_quiet (evs : list Event) :
  forallb not_heater_on evs = true -> heater_on_count evs = 0%nat.
Proof.
  unfold heater_on_count, not_heater_on.
  induction evs as [| e evs IH]; [reflexivity |].
  cbn [forallb filter]. intros Hf.
  apply andb_prop in Hf. destruct Hf as [He Hf].
  destruct (is_heater_on e); [discriminate He | now apply IH].
Qed.

Lemma quiet_switches (w w' : World) :
  only not_heater_on w w' -> switches 0 w w'.
Proof.
  intros (evs & Hl & Hf). exists evs.
  split; [exact Hl | now apply heater_on_count_quiet].
Qed.

Lemma switches_trans (a b : nat) (w0 w1 w2 : World) :
  switches a w0 w1 -> switches b w1 w2 -> switches (a + b) w0 w2.
Proof.
  intros (e1 & H1 & C1) (e2 & H2 & C2). exists (e1 ++ e2). split.
  - now rewrite H2, H1, app_assoc.
  - now rewrite heater_on_count_app, C1, C2.
Qed.

(** [start_heater] switches the heater on once if the check at the start of
    the cycle asks for it, and not at all otherwise. *)
Lemma start_heater_switches (temperature Vo : Z) (w : World) :
  switches (if (0 <? temperature) && (Vo <? temperature) then 1 else 0)
    w (start_heater temperature Vo w).
Proof.
  unfold start_heater. split_if.
  - exists [EvWrite HEATER_PIN HIGH; EvDelay (ulong 1000)]. split.
    + cbn [log delay digitalWrite]. now rewrite <- app_assoc.
    + reflexivity.
  - exists []. split; [now rewrite app_nil_r | reflexivity].
Qed.

(** The whole of [cycle]: the heater is switched on once when the load
    completed and the check at the start asked for it, and never otherwise. *)
Lemma cycle_switches (hw : Sensors) (fuel : nat) (washTime : Z) (soap : bool)
    (temperature : Z) (w : World) :
  switches
    (match fst (load hw fuel w) with
     | Done _ =>
         let wa := release_soap soap (snd (load hw fuel w)) in
         if (0 <? temperature) &&
            (analog_in hw TEMP_SENSOR (now wa) (outs wa) <? temperature)
         then 1 else 0
     | _ => 0
     end)
    w (snd (cycle hw fuel washTime soap temperature w)).
Proof.
  pose proof (quiet_load hw fuel w) as Hload.
  unfold cycle, bind at 1.
  destruct (load hw fuel w) as [[[] | issue |] w1]; cbn [fst snd] in *;
    try (now apply quiet_switches).
  cbv zeta. unfold bind at 1. rewrite wash_eq. cbv zeta.
  unfold cycle_start.
  set (wa := release_soap soap w1).
  set (Vo := analog_in hw TEMP_SENSOR (now wa) (outs wa)).
  set (wb := snd (analogRead hw TEMP_SENSOR wa)).
  change (fst (analogRead hw TEMP_SENSOR wa)) with Vo.
  set (wc := start_heater temperature Vo wb).
  assert (only not_heater_on w wb) as Hpre.
  { eapply only_trans; [exact Hload |].
    eapply only_trans; [apply quiet_release_soap | apply quiet_analogRead]. }
  pose proof (start_heater_switches temperature Vo wb) as Hheat.
  fold wc in Hheat.
  pose proof (quiet_wash_loop hw fuel (ulong washTime) temperature (millis wc)
                Vo (millis wc) wc) as Hloop.
  assert (only not_heater_on wc
            (snd (let (o, w2) :=
                    wash_loop hw fuel (ulong washTime) temperature (millis wc)
                      Vo (millis wc) wc in
                  match o with
                  | Done _ => drain hw w2
                  | Halted issue => (Halted issue, w2)
                  | OutOfFuel => (OutOfFuel, w2)
                  end))) as Hpost.
  { destruct (wash_loop hw fuel (ulong washTime) temperature (millis wc)
                Vo (millis wc) wc) as [[[] | issue |] w2];
      cbn [snd] in *; try exact Hloop.
    eapply only_trans; [exact Hloop | apply quiet_drain]. }
  apply quiet_switches in Hpre. apply quiet_switches in Hpost.
  pose proof (switches_trans _ _ _ _ _ Hpre
                (switches_trans _ _ _ _ _ Hheat Hpost)) as H.
  cbn [Nat.add] in H. now rewrite Nat.add_0_r in H.
Qed.

(** ** How cycle switches the heater on, and how it fails *)

(** C8. Over a whole [cycle] the heater is switched on at most once, and it
    is switched on exactly when the load completed, the target is positive
    and the one reading taken right after the soap step is below the target.
    The wash loop itself, from any state and with any cached reading and any
    readings of the sensor, never switches the heater on. *)
Theorem heater_switched_on_at_most_once
    (hw : Sensors) (fuel : nat) (washTime : Z) (soap : bool)
    (temperature : Z) (w : World) :
  (exists evs,
     log (snd (cycle hw fuel washTime soap temperature w)) = log w ++ evs /\
     (heater_on_count evs <= 1)%nat /\
     (heater_on_count evs = 1%nat <->
      fst (load hw fuel w) = Done tt /\
      0 < temperature /\
      let wa := release_soap soap (snd (load hw fuel w)) in
      analog_in hw TEMP_SENSOR (now wa) (outs wa) < temperature)) /\
  (forall cycleStarts Vo washStarts w',
     exists evs,
       log (snd (wash_loop hw fuel (ulong washTime) temperature cycleStarts
                   Vo washStarts w')) = log w' ++ evs /\
       heater_on_count evs = 0%nat).
Proof.
  split.
  - destruct (cycle_switches hw fuel washTime soap temperature w)
      as (evs & Hl & Hc).
    exists evs. split; [exact Hl |]. rewrite Hc. clear Hl Hc.
    destruct (fst (load hw fuel w)) as [[] | issue |].
    + cbv zeta.
      destruct (Z.ltb_spec 0 temperature) as [Hpos | Hnpos]; cbn [andb].
      * match goal with |- context [?a <? temperature] =>
          destruct (Z.ltb_spec a temperature) as [Hlt | Hge] end.
        -- split; [lia |]. split; [intros _ | reflexivity].
           repeat split; assumption.
        -- split; [lia |]. split; [discriminate |]. intros (_ & _ & H). lia.
      * split; [lia |]. split; [discriminate |]. intros (_ & H & _). lia.
    + split; [lia |]. split; [discriminate |]. intros (H & _). discriminate H.
    + split; [lia |]. split; [discriminate |]. intros (H & _). discriminate H.
  - intros cycleStarts Vo washStarts w'.
    apply (quiet_switches _ _
             (quiet_wash_loop hw fuel (ulong washTime) temperature cycleStarts
                Vo washStarts w')).
Qed.

(** C10. With the target 0 and readings that are never negative, [cycle]
    cannot end in [crash(FAILED_REACH_TEMP)], whatever the sensor shows and
    however many passes the wash loop makes; nor can the rinse program, which
    is such a cycle. *)
Theorem no_target_never_fails_reach_temp
    (hw : Sensors) (fuel : nat) (washTime : Z) (soap : bool) (w : World) :
  (forall t o, 0 <= analog_in hw TEMP_SENSOR t o) ->
  fst (cycle hw fuel washTime soap 0 w) <> Halted FAILED_REACH_TEMP /\
  fst (run_program hw fuel true w) <> Halted FAILED_REACH_TEMP.
Proof.
  intros Hpos.
  assert (forall washTime soap w,
            fst (cycle hw fuel washTime soap 0 w) <> Halted FAILED_REACH_TEMP)
    as Hcycle.
  { clear washTime soap w. intros washTime soap w H.
    destruct (cycle hw fuel washTime soap 0 w) as [r w'] eqn:E.
    cbn [fst] in H. subst r.
    apply cycle_halted_in_wash in E. destruct E as [_ E].
    rewrite wash_eq in E. cbv zeta in E.
    eapply wash_loop_no_target; [exact Hpos |]. now rewrite E. }
  split; [apply Hcycle |].
  unfold run_program, bind at 1, exec. apply Hcycle.
Qed.

Lemma no_target_never_fails_reach_temp_witness :
  fst (cycle full_tank 5 5 false 0 idle_world) <> Halted FAILED_REACH_TEMP /\
  fst (run_program full_tank 5 true idle_world) <> Halted FAILED_REACH_TEMP.
Proof.
  apply (no_target_never_fails_reach_temp full_tank 5 5 false idle_world).
  intros t o. cbn. lia.
Defined.

(** C5. [cycle] ends in [crash(FAILED_REACH_TEMP)] only from a state in
    which more than [HEATER_TIMEOUT] = 600000 ms have passed since
    [cycleStarts] was read and the reading just taken is below the target:
    never before the deadline.  And when the sensor reads below the target 950
    all the time and the load completed, [cycle] does end so, in the first
    pass of the wash loop that begins after the deadline, 600600 ms after the
    start of the cycle; unless the wash time is not longer than one pass of
    2200 ms (a wash time of 0 minutes), when the wash loop is over within
    2200 ms and the deadline is not reached in it. *)
Theorem cycle_fails_reach_temp (hw : Sensors) :
  (forall fuel washTime soap temperature w w',
     cycle hw fuel washTime soap temperature w
     = (Halted FAILED_REACH_TEMP, w') ->
     exists w_raise,
       w' = reset 500 w_raise /\
       HEATER_TIMEOUT <
         usub (millis w_raise)
           (millis (cycle_start hw soap temperature (snd (load hw fuel w)))) /\
       analog_in hw TEMP_SENSOR (now w_raise) (outs w_raise) < temperature) /\
  (forall fuel washTime soap w,
     (forall t o, analog_in hw TEMP_SENSOR t o < 950) ->
     2200 < umul (umul (ulong washTime) 60) 1000 ->
     fst (load hw fuel w) = Done tt ->
     (274 <= fuel)%nat ->
     exists w_raise,
       cycle hw fuel washTime soap 950 w = crash FAILED_REACH_TEMP w_raise /\
       now w_raise
       = now (cycle_start hw soap 950 (snd (load hw fuel w))) + 600600) /\
  (forall fuel washTime soap w,
     (forall t o, analog_in hw TEMP_SENSOR t o < 950) ->
     umul (umul (ulong washTime) 60) 1000 <= 2200 ->
     fst (load hw fuel w) = Done tt ->
     (2 <= fuel)%nat ->
     exists w2,
       wash hw fuel washTime soap 950 (snd (load hw fuel w)) = (Done tt, w2) /\
       0 <= now w2 - now (cycle_start hw soap 950 (snd (load hw fuel w)))
         <= 2200).
Proof.
  split; [| split].
  - intros fuel washTime soap temperature w w' H.
    apply cycle_halted_in_wash in H. destruct H as [_ H].
    rewrite wash_eq in H. cbv zeta in H.
    apply wash_loop_halts_late in H.
    destruct H as (_ & w_raise & H1 & H2 & H3). now exists w_raise.
  - intros fuel washTime soap w Hcold Hlong Hload Hfuel.
    unfold cycle, bind at 1.
    destruct (load hw fuel w) as [r w1]. cbn [fst snd] in *. subst r.
    unfold bind at 1. rewrite wash_eq. cbv zeta.
    generalize (cycle_start hw soap 950 w1). intros wc.
    destruct (wash_loop_cold hw 950 (ulong washTime) (now wc) Hcold Hlong fuel
                (analog_in hw TEMP_SENSOR (now (release_soap soap w1))
                   (outs (release_soap soap w1)))
                (millis wc) wc 0) as [_ Hcrash].
    + lia.
    + lia.
    + apply Hcold.
    + rewrite usub_millis; lia.
    + destruct Hcrash as (w_raise & Hrun & Hnow); [lia |].
      exists w_raise. unfold millis at 1. rewrite Hrun.
      split; [reflexivity | exact Hnow].
  - intros fuel washTime soap w Hcold Hshort _ Hfuel.
    rewrite wash_eq. cbv zeta.
    generalize (snd (load hw fuel w)). intros w1.
    generalize (cycle_start hw soap 950 w1). intros wc.
    now apply wash_loop_short.
Qed.

Lemma cycle_fails_reach_temp_witness :
  exists w_raise,
    cycle full_tank 274 3 false 950 idle_world
    = crash FAILED_REACH_TEMP w_raise /\
    now w_raise
    = now (cycle_start full_tank false 950
             (snd (load full_tank 274 idle_world))) + 600600.
Proof.
  apply (proj1 (proj2 (cycle_fails_reach_temp full_tank))
           274%nat 3 false idle_world).
  - intros t o. cbn. lia.
  - vm_compute. reflexivity.
  - vm_compute. reflexivity.
  - apply Nat.le_refl.
Defined.

(** ** The wash loop at the target temperature *)

(** Above the target the pass switches the heater off and leaves the cached
    reading and the start of the wash time alone. *)
Lemma heat_control_above_target (hw : Sensors)
    (temperature cycleStarts Vo washStarts : Z) (w : World) :
  temperature < Vo ->
  heat_control hw temperature cycleStarts Vo washStarts w
  = (Done (Vo, washStarts), digitalWrite HEATER_PIN LOW w).
Proof.
  intros H. rewrite heat_control_eq.
  now destruct (Z.ltb_spec temperature Vo); [| lia].
Qed.

(** At the target itself the pass takes the other branch: it reads the
    sensor again and, the reading still being at the target, it neither
    fails nor switches the heater off, and it moves the start of the wash
    time to the present. *)
Lemma heat_control_at_target (hw : Sensors)
    (temperature cycleStarts washStarts : Z) (w : World) :
  analog_in hw TEMP_SENSOR (now w) (outs w) = temperature ->
  heat_control hw temperature cycleStarts temperature washStarts w
  = (Done (temperature, millis w),
     beep 1 150 50 (snd (analogRead hw TEMP_SENSOR w))).
Proof.
  intros H. rewrite heat_control_eq, Z.ltb_irrefl. cbv zeta.
  now rewrite H, Z.ltb_irrefl.
Qed.

(** Hence, while the sensor stays at the target, the wash loop makes pass
    after pass without end: the wash time never starts to count. *)
Lemma wash_loop_stuck_at_target (hw : Sensors)
    (washTime temperature cycleStarts : Z) :
  (forall t o, analog_in hw TEMP_SENSOR t o = temperature) ->
  2200 < umul (umul washTime 60) 1000 ->
  forall (fuel : nat) (washStarts : Z) (w : World),
    usub (millis w) washStarts <= 2200 ->
    fst (wash_loop hw fuel washTime temperature cycleStarts
           temperature washStarts w) = OutOfFuel.
Proof.
  intros Hat Hlong fuel. induction fuel as [| fuel IH];
    intros washStarts w Hws; cbn [wash_loop]; [reflexivity |].
  destruct (Z.ltb_spec (usub (millis w) washStarts)
              (umul (umul washTime 60) 1000)) as [_ | Hge]; [| lia].
  rewrite heat_control_at_target by apply Hat.
  fold (cold_pass hw w). apply IH.
  rewrite usub_millis; rewrite cold_pass_now; lia.
Qed.

(** C6, at the target itself.  The heater is on, the target is 950, the
    cached reading is 950 and the sensor still reads 950, 10 s after the wash
    time began to count: the pass leaves the heater on (the log shows a
    reading, a beep and nothing else) and moves the start of the wash time
    from 0 to 10000, the present.  The claim asks for the heater to go off
    and the wash time to go on counting. *)
Theorem heat_control_at_target_keeps_heating :
  fst (heat_control (full_tank_at 950) 950 0 950 0 heating_world)
  = Done (950, 10000) /\
  outs (snd (heat_control (full_tank_at 950) 950 0 950 0 heating_world))
    HEATER_PIN = HIGH /\
  log (snd (heat_control (full_tank_at 950) 950 0 950 0 heating_world))
  = [EvAnalog TEMP_SENSOR 950; EvTone SPEAKER_PIN 1000 150; EvDelay 200].
Proof. repeat split. Qed.

(** The same slip with the target 0 of the rinse program: a sensor that
    reads 0 keeps the wash loop of [cycle(5, false, 0)] running for ever. *)
Lemma rinse_never_ends_at_zero_reading (fuel : nat) (w1 : World) :
  fst (wash (full_tank_at 0) fuel 5 false 0 w1) = OutOfFuel.
Proof.
  rewrite wash_eq. cbv zeta.
  apply wash_loop_stuck_at_target.
  - reflexivity.
  - vm_compute. reflexivity.
  - rewrite usub_millis; lia.
Qed.

(** * Further properties *)

(** ** Sequences, taken apart *)

Lemma bind_done_inv {A B : Type} (c : M A) (k : A -> M B) (w w' : World)
    (b : B) :
  bind c k w = (Done b, w') ->
  exists a w1, c w = (Done a, w1) /\ k a w1 = (Done b, w').
Proof.
  unfold bind. destruct (c w) as [[a | issue |] w1]; intros H.
  - now exists a, w1.
  - discriminate H.
  - discriminate H.
Qed.

Lemma bind_halted_inv {A B : Type} (c : M A) (k : A -> M B) (w w' : World)
    (i : Z) :
  bind c k w = (Halted i, w') ->
  c w = (Halted i, w') \/
  exists a w1, c w = (Done a, w1) /\ k a w1 = (Halted i, w').
Proof.
  unfold bind. destruct (c w) as [[a | issue |] w1]; intros H.
  - right. now exists a, w1.
  - left. congruence.
  - discriminate H.
Qed.

Lemma exec_eq (f : World -> World) (w w' : World) (r : Outcome unit) :
  exec f w = (r, w') -> r = Done tt /\ w' = f w.
Proof. unfold exec. intros H. injection H as <- <-. now split. Qed.

Lemma eval_eq {A : Type} (f : World -> A * World) (w w' : World)
    (r : Outcome A) :
  eval f w = (r, w') -> r = Done (fst (f w)) /\ w' = snd (f w).
Proof.
  unfold eval. destruct (f w) as [a w1]. intros H. injection H as <- <-.
  now split.
Qed.

(** ** The state of the outputs *)

Lemma reset_all_off (ms : Z) (w : World) : all_off (outs (reset ms w)).
Proof. repeat split. Qed.

Lemma reset_outs_other (ms : Z) (w : World) (p : Pin) :
  p = WATER_DISABLED_PIN \/ p = TEMP_SENSOR \/ p = SPEAKER_PIN \/
  p = SWITCH_PIN ->
  outs (reset ms w) p = outs w p.
Proof. intros [-> | [-> | [-> | ->]]]; reflexivity. Qed.

Lemma outs_digitalWrite (p : Pin) (v : bool) (w : World) :
  outs (digitalWrite p v w) = set_pin (outs w) p v.
Proof. reflexivity. Qed.

Lemma outs_delay (ms : Z) (w : World) : outs (delay ms w) = outs w.
Proof. reflexivity. Qed.

Lemma now_digitalWrite (p : Pin) (v : bool) (w : World) :
  now (digitalWrite p v w) = now w.
Proof. reflexivity. Qed.

Lemma now_delay (ms : Z) (w : World) : now (delay ms w) = now w + ulong ms.
Proof. reflexivity. Qed.

Lemma beepMessage_outs (message : Z) (w : World) :
  outs (beepMessage message w) = outs w.
Proof. unfold beepMessage. now rewrite !beep_outs. Qed.

Lemma beepMessage_now (message : Z) (w : World) :
  now (beepMessage message w)
  = now w + 1140 + 200 * Z.of_nat (Z.to_nat message).
Proof.
  unfold beepMessage. rewrite !beep_now.
  change (Z.of_nat (Z.to_nat 2) * ulong (350 + 220)) with 1140.
  change (ulong (150 + 50)) with 200. lia.
Qed.

Section LoopOutputs.

Variable hw : Sensors.

(** The waiting loops write to no pin, however many passes they make. *)
Lemma wait_base_level_outs (fuel : nat) (t : Z) (w : World) :
  outs (snd (wait_base_level hw fuel t w)) = outs w.
Proof.
  revert w. induction fuel as [| fuel IH]; intros w;
    cbn [wait_base_level]; [reflexivity |].
  pose proof (isLoaded_outs hw w) as Ho.
  destruct (isLoaded hw w) as [loaded w1]. cbn [snd] in Ho.
  split_if; [| exact Ho]. now rewrite IH.
Qed.

Lemma wait_double_level_outs (fuel : nat) (t l : Z) (w : World) :
  outs (snd (wait_double_level fuel t l w)) = outs w.
Proof.
  revert w. induction fuel as [| fuel IH]; intros w;
    cbn [wait_double_level]; [reflexivity |].
  split_if; [| reflexivity]. rewrite IH. cbn [outs delay]. apply beep_outs.
Qed.

Lemma wait_agitation_outs (fuel : nat) (t l : Z) (w : World) :
  outs (snd (wait_agitation fuel t l w)) = outs w.
Proof.
  revert w. induction fuel as [| fuel IH]; intros w;
    cbn [wait_agitation]; [reflexivity |].
  split_if; [| reflexivity]. rewrite IH. cbn [outs delay]. apply beep_outs.
Qed.

Lemma wait_top_up_outs (fuel : nat) (t l : Z) (w : World) :
  outs (snd (wait_top_up hw fuel t l w)) = outs w.
Proof.
  revert w. induction fuel as [| fuel IH]; intros w;
    cbn [wait_top_up]; [reflexivity |].
  pose proof (isLoaded_outs hw w) as Ho.
  destruct (isLoaded hw w) as [loaded w1]. cbn [snd] in Ho.
  split_if; [| exact Ho].
  rewrite IH. cbn [outs delay]. now rewrite beep_outs.
Qed.

(** A load that completes went through its five phases. *)
Lemma load_done_inv (fuel : nat) (w w' : World) :
  load hw fuel w = (Done tt, w') ->
  exists loadTime w1 w2 w3 w4,
    load_base hw fuel w = (Done loadTime, w1) /\
    load_double fuel loadTime w1 = (Done tt, w2) /\
    load_agitate fuel loadTime w2 = (Done tt, w3) /\
    load_top_up hw fuel loadTime w3 = (Done tt, w4) /\
    load_finish hw w4 = (Done tt, w').
Proof.
  unfold load. intros H.
  apply bind_done_inv in H. destruct H as (loadTime & w1 & H1 & H).
  apply bind_done_inv in H. destruct H as ([] & w2 & H2 & H).
  apply bind_done_inv in H. destruct H as ([] & w3 & H3 & H).
  apply bind_done_inv in H. destruct H as ([] & w4 & H4 & H).
  now exists loadTime, w1, w2, w3, w4.
Qed.

Lemma load_base_outs (fuel : nat) (w w1 : World) (loadTime : Z) :
  load_base hw fuel w = (Done loadTime, w1) ->
  outs w1 = set_pin (outs (reset 200 w)) WATER_LOAD_PIN RELAY_MODULE_ON.
Proof.
  rewrite load_base_eq.
  pose proof (wait_base_level_outs fuel (millis (load_start w))
                (digitalWrite WATER_LOAD_PIN RELAY_MODULE_ON (load_start w)))
    as Ho.
  destruct (wait_base_level hw fuel _ _) as [[[] | issue |] w0];
    try discriminate.
  cbn [snd] in Ho. split_if; [discriminate |].
  intros H. injection H as _ <-.
  rewrite isLoaded_outs, Ho. cbn [outs digitalWrite].
  unfold load_start. now rewrite beepMessage_outs.
Qed.

Lemma load_double_outs (fuel : nat) (l : Z) (w w' : World) (r : Outcome unit) :
  load_double fuel l w = (r, w') -> outs w' = outs w.
Proof.
  unfold load_double, bind, get_millis. intros H.
  pose proof (wait_double_level_outs fuel (millis w) l w) as Ho.
  now rewrite H in Ho.
Qed.

Lemma load_agitate_outs (fuel : nat) (l : Z) (w w' : World)
    (r : Outcome unit) :
  load_agitate fuel l w = (r, w') ->
  outs w' = set_pin (outs w) MAIN_PUMP_PIN RELAY_MODULE_ON.
Proof.
  unfold load_agitate, bind, exec, get_millis. intros H.
  match type of H with wait_agitation ?f ?t ?l ?x = _ =>
    pose proof (wait_agitation_outs f t l x) as Ho end.
  now rewrite H in Ho.
Qed.

Lemma load_top_up_outs (fuel : nat) (l : Z) (w w' : World) (r : Outcome unit) :
  load_top_up hw fuel l w = (r, w') -> outs w' = outs w.
Proof.
  unfold load_top_up, bind, get_millis. intros H.
  pose proof (wait_top_up_outs fuel (millis w) l w) as Ho.
  now rewrite H in Ho.
Qed.

End LoopOutputs.

(** ** load: how it ends, how long it takes, what it leaves *)

Section LoadEnds.

Variable hw : Sensors.

(** With enough fuel [load] takes one of two roads: the failed load, or the
    three waits and the final reading. *)
Lemma load_cases (fuel : nat) (w : World) :
  enough_fuel fuel ->
  (exists w2,
     load hw fuel w = crash FAILED_LOAD_ISSUE w2 /\
     now w + 2940 <= now w2 < now w + 2940 + 200030) \/
  (exists loadTime w1 w4,
     load_base hw fuel w = (Done loadTime, w1) /\
     load hw fuel w = load_finish hw w4 /\
     0 <= loadTime < 200030 /\
     now w1 = now w + 2940 + loadTime /\
     0 <= 6 * (now w4 - now w1) < 19 * loadTime + 15840).
Proof.
  intros Hfuel.
  destruct (load_base_result hw fuel w Hfuel)
    as [Hfail | (loadTime & w1 & Hbase & HL & Hn1 & _)].
  - left.
    pose proof (load_base_eq hw fuel w) as Heq.
    destruct (load_base_polling hw fuel w Hfuel) as (w1 & Hrun & Hn & _).
    rewrite Hrun in Heq. rewrite Heq in Hfail.
    pose proof (isLoaded_now hw w1) as Hnow.
    rewrite load_start_now in Hn.
    exists (snd (isLoaded hw w1)). split; [| lia].
    unfold load, bind at 1. rewrite Heq.
    revert Hfail. split_if; [reflexivity | discriminate].
  - right.
    destruct (load_waits hw fuel loadTime w1 Hfuel HL)
      as (w2 & w3 & w4 & H2 & H3 & H4 & Hb2 & Hb3 & Hb4 & _).
    exists loadTime, w1, w4.
    split; [exact Hbase |].
    split; [exact (load_run hw fuel _ _ _ _ _ _ Hbase H2 H3 H4) |].
    rewrite load_start_now in Hn1. repeat split; lia.
Qed.

End LoadEnds.

(** X1. Whatever the sensors show, and whatever the clock reads when it
    starts, [load] ends: with enough fuel it either completes or fails with
    [FAILED_LOAD_ISSUE] or [FAILED_TOP_UP_ISSUE], and this takes more than
    2940 ms and less than 843 s. *)
Theorem load_ends (hw : Sensors) (fuel : nat) (w : World) :
  enough_fuel fuel ->
  (fst (load hw fuel w) = Done tt \/
   fst (load hw fuel w) = Halted FAILED_LOAD_ISSUE \/
   fst (load hw fuel w) = Halted FAILED_TOP_UP_ISSUE) /\
  2940 < now (snd (load hw fuel w)) - now w < 843000.
Proof.
  intros Hfuel.
  destruct (load_cases hw fuel w Hfuel)
    as [(w2 & Hload & Hn) | (loadTime & w1 & w4 & _ & Hload & HL & Hn1 & Hn4)];
    rewrite Hload.
  - unfold crash. cbn [fst snd]. rewrite reset_now.
    change (ulong 500) with 500. split; [auto | lia].
  - rewrite load_finish_eq.
    pose proof (isLoaded_now hw w4) as Hnow.
    destruct (fst (isLoaded hw w4)).
    + cbn [fst snd now delay digitalWrite]. change (ulong 1000) with 1000.
      split; [auto | lia].
    + unfold crash. cbn [fst snd]. rewrite reset_now.
      change (ulong 500) with 500. split; [auto | lia].
Qed.

Lemma load_ends_witness :
  (fst (load full_tank load_fuel idle_world) = Done tt \/
   fst (load full_tank load_fuel idle_world) = Halted FAILED_LOAD_ISSUE \/
   fst (load full_tank load_fuel idle_world) = Halted FAILED_TOP_UP_ISSUE) /\
  2940 < now (snd (load full_tank load_fuel idle_world)) - now idle_world
       < 843000.
Proof.
  apply (load_ends full_tank load_fuel idle_world).
  unfold enough_fuel, load_fuel. lia.
Defined.

(** X2. When [load] completes, the intake valve is closed again, the main
    pump is running, and the heater, the drain pump, the soap dispenser and
    the LED are off; and the last thing [load] saw, 1000 ms before it
    returned, was a reading with water in all ten samples. *)
Theorem load_done_state (hw : Sensors) (fuel : nat) (w : World) :
  fst (load hw fuel w) = Done tt ->
  outs (snd (load hw fuel w)) WATER_LOAD_PIN = RELAY_MODULE_OFF /\
  outs (snd (load hw fuel w)) MAIN_PUMP_PIN = RELAY_MODULE_ON /\
  outs (snd (load hw fuel w)) HEATER_PIN = LOW /\
  outs (snd (load hw fuel w)) DRAIN_PIN = RELAY_MODULE_OFF /\
  outs (snd (load hw fuel w)) SOAP_PIN = RELAY_MODULE_OFF /\
  outs (snd (load hw fuel w)) LED_PIN = LED_OFF /\
  exists w4,
    fst (isLoaded hw w4) = true /\
    snd (load hw fuel w)
    = delay 1000 (digitalWrite WATER_LOAD_PIN RELAY_MODULE_OFF
                    (snd (isLoaded hw w4))).
Proof.
  destruct (load hw fuel w) as [r w'] eqn:Hload. cbn [fst snd].
  intros ->.
  apply load_done_inv in Hload.
  destruct Hload as (loadTime & w1 & w2 & w3 & w4 & H1 & H2 & H3 & H4 & H5).
  apply load_base_outs in H1. apply load_double_outs in H2.
  apply load_agitate_outs in H3. apply load_top_up_outs in H4.
  rewrite load_finish_eq in H5.
  pose proof (isLoaded_outs hw w4) as Ho.
  destruct (fst (isLoaded hw w4)) eqn:Hloaded; [| discriminate H5].
  injection H5 as <-.
  cbn [outs delay digitalWrite].
  rewrite Ho, H4, H3, H2, H1.
  repeat split. exists w4. now split.
Qed.

Lemma load_done_state_witness :
  outs (snd (load full_tank 50 idle_world)) WATER_LOAD_PIN = RELAY_MODULE_OFF /\
  outs (snd (load full_tank 50 idle_world)) MAIN_PUMP_PIN = RELAY_MODULE_ON /\
  outs (snd (load full_tank 50 idle_world)) HEATER_PIN = LOW /\
  outs (snd (load full_tank 50 idle_world)) DRAIN_PIN = RELAY_MODULE_OFF /\
  outs (snd (load full_tank 50 idle_world)) SOAP_PIN = RELAY_MODULE_OFF /\
  outs (snd (load full_tank 50 idle_world)) LED_PIN = LED_OFF /\
  exists w4,
    fst (isLoaded full_tank w4) = true /\
    snd (load full_tank 50 idle_world)
    = delay 1000 (digitalWrite WATER_LOAD_PIN RELAY_MODULE_OFF
                    (snd (isLoaded full_tank w4))).
Proof.
  apply (load_done_state full_tank 50 idle_world).
  vm_compute. reflexivity.
Defined.

(** ** Halting is always through crash *)

Lemma fail_stop_crash {A : Type} (issue : Z) : fail_stop (@crash A issue).
Proof.
  intros w i w' H. unfold crash in H. injection H as _ <-. now exists w.
Qed.

Lemma fail_stop_never {A : Type} (c : M A) :
  (forall w i, fst (c w) <> Halted i) -> fail_stop c.
Proof.
  intros Hc w i w' H. exfalso. apply (Hc w i). now rewrite H.
Qed.

Lemma fail_stop_bind {A B : Type} (c : M A) (k : A -> M B) :
  fail_stop c -> (forall a, fail_stop (k a)) -> fail_stop (bind c k).
Proof.
  intros Hc Hk w i w' H. apply bind_halted_inv in H.
  destruct H as [H | (a & w1 & _ & H)].
  - exact (Hc _ _ _ H).
  - exact (Hk _ _ _ _ H).
Qed.

Lemma fail_stop_exec (f : World -> World) : fail_stop (exec f).
Proof. apply fail_stop_never. intros w i. discriminate. Qed.

Lemma fail_stop_eval {A : Type} (f : World -> A * World) : fail_stop (eval f).
Proof.
  apply fail_stop_never. intros w i. unfold eval.
  destruct (f w). discriminate.
Qed.

Lemma fail_stop_ret {A : Type} (a : A) : fail_stop (ret a).
Proof. apply fail_stop_never. intros w i. discriminate. Qed.

Lemma fail_stop_get_millis : fail_stop get_millis.
Proof. apply fail_stop_never. intros w i. discriminate. Qed.

Section FailStop.

Variable hw : Sensors.

Lemma wait_for_switch_outcome (fuel : nat) (w : World) :
  fst (wait_for_switch hw fuel w) = Done tt \/
  fst (wait_for_switch hw fuel w) = OutOfFuel.
Proof.
  revert w. induction fuel as [| fuel IH]; intros w;
    cbn [wait_for_switch]; [now right |].
  destruct (switchPressed hw w) as [pressed w1].
  split_if; [apply IH | now left].
Qed.

(** One step of a proof that a procedure halts only through [crash]. *)
Ltac fail_stop_step :=
  match goal with
  | |- fail_stop (bind _ _) => apply fail_stop_bind; [| intros ?]
  | |- fail_stop (exec _) => apply fail_stop_exec
  | |- fail_stop (eval _) => apply fail_stop_eval
  | |- fail_stop (ret _) => apply fail_stop_ret
  | |- fail_stop get_millis => apply fail_stop_get_millis
  | |- fail_stop (crash _) => apply fail_stop_crash
  | |- fail_stop (if ?c then _ else _) => destruct c
  | |- fail_stop (wait_base_level _ ?f ?t) =>
      apply fail_stop_never; intros w i;
      destruct (wait_base_level_outcome hw f t w); congruence
  | |- fail_stop (wait_double_level ?f ?t ?l) =>
      apply fail_stop_never; intros w i;
      destruct (wait_double_level_outcome f t l w); congruence
  | |- fail_stop (wait_agitation ?f ?t ?l) =>
      apply fail_stop_never; intros w i;
      destruct (wait_agitation_outcome f t l w); congruence
  | |- fail_stop (wait_top_up _ ?f ?t ?l) =>
      apply fail_stop_never; intros w i;
      destruct (wait_top_up_outcome hw f t l w); congruence
  | |- fail_stop (wait_for_switch _ ?f) =>
      apply fail_stop_never; intros w i;
      destruct (wait_for_switch_outcome f w); congruence
  end.

Lemma fail_stop_load (fuel : nat) : fail_stop (load hw fuel).
Proof.
  unfold load, load_base, load_double, load_agitate, load_top_up, load_finish.
  repeat fail_stop_step.
Qed.

Lemma fail_stop_drain : fail_stop (drain hw).
Proof. unfold drain. repeat fail_stop_step. Qed.

Lemma fail_stop_wash_loop (fuel : nat)
    (washTime temperature cycleStarts Vo washStarts : Z) :
  fail_stop (wash_loop hw fuel washTime temperature cycleStarts Vo washStarts).
Proof.
  intros w i w' H. apply wash_loop_halts_late in H.
  destruct H as (_ & w_raise & H & _). now exists w_raise.
Qed.

Lemma fail_stop_cycle (fuel : nat) (washTime : Z) (soap : bool)
    (temperature : Z) :
  fail_stop (cycle hw fuel washTime soap temperature).
Proof.
  unfold cycle, wash. repeat fail_stop_step.
  - apply fail_stop_load.
  - apply fail_stop_wash_loop.
  - apply fail_stop_drain.
Qed.

Lemma fail_stop_run_program (fuel : nat) (alternative : bool) :
  fail_stop (run_program hw fuel alternative).
Proof.
  unfold run_program. repeat fail_stop_step; apply fail_stop_cycle.
Qed.

Lemma fail_stop_setup : fail_stop (setup hw).
Proof. unfold setup. repeat fail_stop_step. apply fail_stop_drain. Qed.

Lemma fail_stop_loop (fuel : nat) : fail_stop (loop hw fuel).
Proof. unfold loop. repeat fail_stop_step. apply fail_stop_run_program. Qed.

End FailStop.

Lemma fail_stop_all_off {A : Type} (c : M A) (w : World) (issue : Z) :
  fail_stop c -> fst (c w) = Halted issue -> all_off (outs (snd (c w))).
Proof.
  intros Hc H. destruct (c w) as [r w'] eqn:E. cbn [fst snd] in *. subst r.
  destruct (Hc _ _ _ E) as [w0 ->]. apply reset_all_off.
Qed.

(** X3. Whenever [setup], [loop], a program, a [cycle], [load] or [drain]
    halts with an issue, whatever the issue and whatever was running, the
    heater, the valve, both pumps, the soap dispenser and the LED are all
    off in the state in which the error beeps begin. *)
Theorem halted_means_all_off (hw : Sensors) (fuel : nat) (w : World)
    (issue : Z) :
  (fst (setup hw w) = Halted issue -> all_off (outs (snd (setup hw w)))) /\
  (fst (loop hw fuel w) = Halted issue ->
   all_off (outs (snd (loop hw fuel w)))) /\
  (forall alternative,
     fst (run_program hw fuel alternative w) = Halted issue ->
     all_off (outs (snd (run_program hw fuel alternative w)))) /\
  (forall washTime soap temperature,
     fst (cycle hw fuel washTime soap temperature w) = Halted issue ->
     all_off (outs (snd (cycle hw fuel washTime soap temperature w)))) /\
  (fst (load hw fuel w) = Halted issue ->
   all_off (outs (snd (load hw fuel w)))) /\
  (fst (drain hw w) = Halted issue -> all_off (outs (snd (drain hw w)))).
Proof.
  split; [| split; [| split; [| split; [| split]]]].
  - apply fail_stop_all_off, fail_stop_setup.
  - apply fail_stop_all_off, fail_stop_loop.
  - intros alternative. apply fail_stop_all_off, fail_stop_run_program.
  - intros washTime soap temperature.
    apply fail_stop_all_off, fail_stop_cycle.
  - apply fail_stop_all_off, fail_stop_load.
  - apply fail_stop_all_off, fail_stop_drain.
Qed.

Lemma halted_means_all_off_witness :
  all_off (outs (snd (cycle (full_tank_at 10) 100 3 false 0
                        (mkWorld 0 (fun _ => LOW) [])))).
Proof.
  apply (proj1 (proj2 (proj2 (proj2
           (halted_means_all_off (full_tank_at 10) 100
              (mkWorld 0 (fun _ => LOW) []) DRAIN_ISSUE)))) 3 false 0).
  vm_compute. reflexivity.
Defined.

(** ** What a completed run leaves *)

Section Completed.

Variable hw : Sensors.

Lemma drain_done_all_off (w w' : World) :
  drain hw w = (Done tt, w') -> all_off (outs w').
Proof.
  unfold drain. intros H.
  apply bind_done_inv in H. destruct H as ([] & w1 & H1 & H).
  apply bind_done_inv in H. destruct H as ([] & w2 & H2 & H).
  apply bind_done_inv in H. destruct H as ([] & w3 & H3 & H).
  apply bind_done_inv in H. destruct H as ([] & w4 & H4 & H).
  apply bind_done_inv in H. destruct H as ([] & w5 & H5 & H).
  apply bind_done_inv in H. destruct H as (loaded & w6 & H6 & H).
  apply exec_eq in H1, H2, H3, H4, H5. apply eval_eq in H6.
  destruct H1 as [_ H1], H2 as [_ H2], H3 as [_ H3], H4 as [_ H4],
    H5 as [_ H5], H6 as [_ H6].
  destruct loaded; [discriminate H |].
  injection H as <-.
  assert (all_off (outs w1)) as Hoff by (rewrite H1; apply reset_all_off).
  assert (outs w6 = set_pin (set_pin (outs w1) DRAIN_PIN RELAY_MODULE_ON)
                      DRAIN_PIN RELAY_MODULE_OFF) as ->.
  { rewrite H6, isLoaded_outs, H5, outs_digitalWrite, H4, outs_delay, H3,
      beepMessage_outs, H2, outs_digitalWrite. reflexivity. }
  clear - Hoff. destruct Hoff as (Ha & Hb & Hc & Hd & He & Hf).
  unfold all_off, set_pin. cbn. now repeat split.
Qed.

Lemma cycle_done_all_off (fuel : nat) (washTime : Z) (soap : bool)
    (temperature : Z) (w w' : World) :
  cycle hw fuel washTime soap temperature w = (Done tt, w') ->
  all_off (outs w').
Proof.
  unfold cycle. intros H.
  apply bind_done_inv in H. destruct H as ([] & w1 & _ & H).
  apply bind_done_inv in H. destruct H as ([] & w2 & _ & H).
  now apply drain_done_all_off in H.
Qed.

Lemma run_program_done_all_off (fuel : nat) (alternative : bool)
    (w w' : World) :
  run_program hw fuel alternative w = (Done tt, w') -> all_off (outs w').
Proof.
  unfold run_program. destruct alternative; intros H.
  - apply bind_done_inv in H. destruct H as ([] & w1 & _ & H).
    now apply cycle_done_all_off in H.
  - apply bind_done_inv in H. destruct H as ([] & w1 & _ & H).
    apply bind_done_inv in H. destruct H as ([] & w2 & _ & H).
    apply bind_done_inv in H. destruct H as ([] & w3 & _ & H).
    now apply cycle_done_all_off in H.
Qed.

End Completed.

(** X4. A [drain], a [cycle] or a program that completes leaves the heater,
    the valve, both pumps, the soap dispenser and the LED off.  When [loop]
    reaches its endless "done" signal the five actuators are off and the LED
    is on. *)
Theorem completed_means_all_off (hw : Sensors) (fuel : nat) (w : World) :
  (fst (drain hw w) = Done tt -> all_off (outs (snd (drain hw w)))) /\
  (forall washTime soap temperature,
     fst (cycle hw fuel washTime soap temperature w) = Done tt ->
     all_off (outs (snd (cycle hw fuel washTime soap temperature w)))) /\
  (forall alternative,
     fst (run_program hw fuel alternative w) = Done tt ->
     all_off (outs (snd (run_program hw fuel alternative w)))) /\
  (fst (loop hw fuel w) = Done tt ->
   let o := outs (snd (loop hw fuel w)) in
   o HEATER_PIN = LOW /\ o WATER_LOAD_PIN = RELAY_MODULE_OFF /\
   o DRAIN_PIN = RELAY_MODULE_OFF /\ o SOAP_PIN = RELAY_MODULE_OFF /\
   o MAIN_PUMP_PIN = RELAY_MODULE_OFF /\ o LED_PIN = LED_ON).
Proof.
  split; [| split; [| split]].
  - destruct (drain hw w) as [r w'] eqn:E. cbn [fst snd]. intros ->.
    now apply drain_done_all_off in E.
  - intros washTime soap temperature.
    destruct (cycle hw fuel washTime soap temperature w) as [r w'] eqn:E.
    cbn [fst snd]. intros ->. now apply cycle_done_all_off in E.
  - intros alternative.
    destruct (run_program hw fuel alternative w) as [r w'] eqn:E.
    cbn [fst snd]. intros ->. now apply run_program_done_all_off in E.
  - destruct (loop hw fuel w) as [r w'] eqn:E. cbn [fst snd]. intros ->.
    unfold loop in E.
    apply bind_done_inv in E. destruct E as ([] & w1 & _ & E).
    apply bind_done_inv in E. destruct E as ([] & w2 & _ & E).
    apply bind_done_inv in E. destruct E as ([] & w3 & _ & E).
    apply bind_done_inv in E. destruct E as (pressed & w4 & _ & E).
    apply bind_done_inv in E. destruct E as ([] & w5 & Hrun & E).
    apply run_program_done_all_off in Hrun.
    apply exec_eq in E. destruct E as [_ ->].
    destruct Hrun as (H1 & H2 & H3 & H4 & H5 & H6).
    cbv zeta. cbn [outs digitalWrite]. unfold set_pin. cbn.
    now repeat split.
Qed.

Lemma completed_means_all_off_witness :
  all_off (outs (snd (drain (fills_at 1000000) idle_world))).
Proof.
  apply (proj1 (completed_means_all_off (fills_at 1000000) 0 idle_world)).
  vm_compute. reflexivity.
Defined.

(** ** The lines that each procedure may switch on *)

Section Lines.

Variable hw : Sensors.
Variable on : Pin -> bool.

Lemma io_delay (ms : Z) (w : World) : only (io_event on) w (delay ms w).
Proof. now apply only_delay. Qed.

Lemma io_write (p : Pin) (v : bool) (w : World) :
  is_actuator p = true ->
  v = off_level p \/ on p = true ->
  only (io_event on) w (digitalWrite p v w).
Proof.
  intros Hp Hv. apply only_write. cbn [io_event]. rewrite Hp.
  destruct Hv as [-> | ->]; [now rewrite Bool.eqb_reflx | apply orb_true_r].
Qed.

Lemma io_digitalRead_level (w : World) :
  only (io_event on) w (snd (digitalRead hw WATER_DISABLED_PIN w)).
Proof. now eapply only_event. Qed.

Lemma io_switchPressed (w : World) :
  only (io_event on) w (snd (switchPressed hw w)).
Proof. now eapply only_event. Qed.

Lemma io_analogRead (w : World) :
  only (io_event on) w (snd (analogRead hw TEMP_SENSOR w)).
Proof. now eapply only_event. Qed.

Lemma io_beep_loop (n : nat) (l d : Z) (w : World) :
  only (io_event on) w (beep_loop n l d w).
Proof.
  revert w. induction n as [| n IH]; intros w; cbn [beep_loop].
  - apply only_refl.
  - eapply only_trans; [| apply IH].
    eapply only_trans; [apply only_tone | apply only_delay]; reflexivity.
Qed.

Lemma io_beep (many l d : Z) (w : World) :
  only (io_event on) w (beep many l d w).
Proof. apply io_beep_loop. Qed.

Lemma io_beepMessage (message : Z) (w : World) :
  only (io_event on) w (beepMessage message w).
Proof. unfold beepMessage. eapply only_trans; apply io_beep. Qed.

Lemma io_beepError (issue : Z) (w : World) :
  only (io_event on) w (beepError issue w).
Proof.
  unfold beepError.
  eapply only_trans; [apply io_beep |].
  eapply only_trans; [apply io_delay | apply io_beep].
Qed.

Lemma io_reset (ms : Z) (w : World) : only (io_event on) w (reset ms w).
Proof.
  unfold reset.
  repeat (eapply only_trans;
          [| first [apply io_delay
                   | apply io_write; [reflexivity | left; reflexivity]]]).
  apply only_refl.
Qed.

Lemma io_crash {A : Type} (issue : Z) (w : World) :
  only (io_event on) w (snd (@crash A issue w)).
Proof. apply io_reset. Qed.

Lemma io_isLoaded_loop (n : nat) (w : World) :
  only (io_event on) w (snd (isLoaded_loop hw n w)).
Proof.
  revert w. induction n as [| n IH]; intros w; cbn [isLoaded_loop].
  - apply only_refl.
  - pose proof (io_digitalRead_level w) as Hr.
    destruct (digitalRead hw WATER_DISABLED_PIN w) as [[] w1]; cbn [snd] in *.
    + exact Hr.
    + eapply only_trans; [exact Hr |].
      eapply only_trans; [apply io_delay | apply IH].
Qed.

Lemma io_isLoaded (w : World) : only (io_event on) w (snd (isLoaded hw w)).
Proof. apply io_isLoaded_loop. Qed.

Lemma io_eval {A : Type} (f : World -> A * World) (w : World) :
  only (io_event on) w (snd (f w)) -> only (io_event on) w (snd (eval f w)).
Proof. unfold eval. now destruct (f w). Qed.

Lemma io_wait_base_level (fuel : nat) (t : Z) (w : World) :
  only (io_event on) w (snd (wait_base_level hw fuel t w)).
Proof.
  revert w. induction fuel as [| fuel IH]; intros w;
    cbn [wait_base_level]; [apply only_refl |].
  pose proof (io_isLoaded w) as Hr.
  destruct (isLoaded hw w) as [loaded w1]. cbn [snd] in Hr.
  split_if; [| exact Hr].
  eapply only_trans; [exact Hr |].
  eapply only_trans; [apply io_delay | apply IH].
Qed.

Lemma io_wait_double_level (fuel : nat) (t l : Z) (w : World) :
  only (io_event on) w (snd (wait_double_level fuel t l w)).
Proof.
  revert w. induction fuel as [| fuel IH]; intros w;
    cbn [wait_double_level]; [apply only_refl |].
  split_if; [| apply only_refl].
  eapply only_trans; [apply io_beep |].
  eapply only_trans; [apply io_delay | apply IH].
Qed.

Lemma io_wait_agitation (fuel : nat) (t l : Z) (w : World) :
  only (io_event on) w (snd (wait_agitation fuel t l w)).
Proof.
  revert w. induction fuel as [| fuel IH]; intros w;
    cbn [wait_agitation]; [apply only_refl |].
  split_if; [| apply only_refl].
  eapply only_trans; [apply io_beep |].
  eapply only_trans; [apply io_delay | apply IH].
Qed.

Lemma io_wait_top_up (fuel : nat) (t l : Z) (w : World) :
  only (io_event on) w (snd (wait_top_up hw fuel t l w)).
Proof.
  revert w. induction fuel as [| fuel IH]; intros w;
    cbn [wait_top_up]; [apply only_refl |].
  pose proof (io_isLoaded w) as Hr.
  destruct (isLoaded hw w) as [loaded w1]. cbn [snd] in Hr.
  split_if; [| exact Hr].
  eapply only_trans; [exact Hr |].
  eapply only_trans; [apply io_beep |].
  eapply only_trans; [apply io_delay | apply IH].
Qed.

Lemma io_wait_for_switch (fuel : nat) (w : World) :
  only (io_event on) w (snd (wait_for_switch hw fuel w)).
Proof.
  revert w. induction fuel as [| fuel IH]; intros w;
    cbn [wait_for_switch]; [apply only_refl |].
  pose proof (io_switchPressed w) as Hr.
  destruct (switchPressed hw w) as [pressed w1]. cbn [snd] in Hr.
  split_if; [| exact Hr].
  eapply only_trans; [exact Hr |].
  eapply only_trans; [apply io_delay | apply IH].
Qed.

(** One call of straight-line code. *)
Ltac io_step :=
  match goal with
  | |- only _ ?w ?w => apply only_refl
  | |- only _ _ (snd (bind _ _ _)) => apply only_bind; [| intros ? ?]
  | |- only _ _ (snd (exec _ _)) => unfold exec; cbn [snd]
  | |- only _ _ (snd (eval ?f ?w)) => apply (io_eval f w)
  | |- only _ _ (snd (crash _ _)) => apply io_crash
  | |- only _ _ (snd (ret _ _)) => apply only_refl
  | |- only _ _ (snd (get_millis _)) => apply only_refl
  | |- only _ _ (reset _ _) => apply io_reset
  | |- only _ _ (beep _ _ _ _) => apply io_beep
  | |- only _ _ (beepMessage _ _) => apply io_beepMessage
  | |- only _ _ (beepError _ _) => apply io_beepError
  | |- only _ _ (delay _ _) => apply io_delay
  | |- only _ _ (digitalWrite _ _ _) =>
      apply io_write;
      [reflexivity | first [left; reflexivity | right; assumption]]
  | |- only _ _ (snd (isLoaded _ _)) => apply io_isLoaded
  | |- only _ _ (snd (switchPressed _ _)) => apply io_switchPressed
  | |- only _ _ (snd (analogRead _ _ _)) => apply io_analogRead
  | |- only _ _ (snd (wait_base_level _ _ _ _)) => apply io_wait_base_level
  | |- only _ _ (snd (wait_double_level _ _ _ _)) =>
      apply io_wait_double_level
  | |- only _ _ (snd (wait_agitation _ _ _ _)) => apply io_wait_agitation
  | |- only _ _ (snd (wait_top_up _ _ _ _ _)) => apply io_wait_top_up
  | |- only _ _ (snd (wait_for_switch _ _ _)) => apply io_wait_for_switch
  | |- only _ _ (snd ((if ?c then _ else _) _)) => destruct c
  end.

Lemma io_drain (w : World) :
  on DRAIN_PIN = true -> only (io_event on) w (snd (drain hw w)).
Proof. intros Hd. unfold drain. repeat io_step. Qed.

Lemma io_load (fuel : nat) (w : World) :
  on WATER_LOAD_PIN = true -> on MAIN_PUMP_PIN = true ->
  only (io_event on) w (snd (load hw fuel w)).
Proof.
  intros Hv Hp.
  unfold load, load_base, load_double, load_agitate, load_top_up, load_finish.
  repeat io_step.
Qed.

Lemma io_release_soap (soap : bool) (w : World) :
  (soap = true -> on SOAP_PIN = true) ->
  only (io_event on) w (release_soap soap w).
Proof.
  intros Hs. unfold release_soap. destruct soap; [| apply only_refl].
  specialize (Hs eq_refl).
  eapply only_trans; [| apply io_delay].
  eapply only_trans; [| apply io_write; [reflexivity | left; reflexivity]].
  eapply only_trans; [| apply io_delay].
  apply io_write; [reflexivity | right; assumption].
Qed.

Lemma io_start_heater (temperature Vo : Z) (w : World) :
  (0 < temperature -> on HEATER_PIN = true) ->
  only (io_event on) w (start_heater temperature Vo w).
Proof.
  intros Hh. unfold start_heater.
  destruct (Z.ltb_spec 0 temperature) as [Hpos | _]; cbn [andb];
    [| apply only_refl].
  split_if; [| apply only_refl].
  eapply only_trans; [| apply io_delay].
  apply io_write; [reflexivity | right; auto].
Qed.

Lemma io_heartbeat (w : World) :
  on LED_PIN = true -> only (io_event on) w (heartbeat w).
Proof.
  intros Hl. unfold heartbeat.
  eapply only_trans; [| apply io_write; [reflexivity | left; reflexivity]].
  eapply only_trans; [| apply io_delay].
  eapply only_trans; [| apply io_write; [reflexivity | right; assumption]].
  apply io_delay.
Qed.

Lemma io_heat_control (temperature cycleStarts Vo washStarts : Z) (w : World) :
  only (io_event on) w
    (snd (heat_control hw temperature cycleStarts Vo washStarts w)).
Proof.
  unfold heat_control. destruct (temperature <? Vo); repeat io_step.
Qed.

Lemma io_wash_loop (fuel : nat) (washTime temperature cycleStarts : Z)
    (Vo washStarts : Z) (w : World) :
  on LED_PIN = true ->
  only (io_event on) w
    (snd (wash_loop hw fuel washTime temperature cycleStarts
            Vo washStarts w)).
Proof.
  intros Hl. revert Vo washStarts w. induction fuel as [| fuel IH];
    intros Vo washStarts w; cbn [wash_loop]; [apply only_refl |].
  split_if; [| apply only_refl].
  pose proof (io_heat_control temperature cycleStarts Vo washStarts w) as Hh.
  destruct (heat_control hw temperature cycleStarts Vo washStarts w)
    as [[[Vo' washStarts'] | issue |] w1]; cbn [snd] in Hh; try exact Hh.
  eapply only_trans; [exact Hh |].
  eapply only_trans; [now apply io_heartbeat | apply IH].
Qed.

Lemma io_cycle (fuel : nat) (washTime : Z) (soap : bool) (temperature : Z)
    (w : World) :
  on WATER_LOAD_PIN = true -> on MAIN_PUMP_PIN = true ->
  on DRAIN_PIN = true -> on LED_PIN = true ->
  (soap = true -> on SOAP_PIN = true) ->
  (0 < temperature -> on HEATER_PIN = true) ->
  only (io_event on) w (snd (cycle hw fuel washTime soap temperature w)).
Proof.
  intros Hv Hp Hd Hl Hs Hh. unfold cycle, wash.
  apply only_bind; [now apply io_load | intros ? ?].
  apply only_bind; [| intros ? ?; now apply io_drain].
  apply only_bind; [now apply io_release_soap | intros ? ?].
  apply only_bind; [apply io_eval, io_analogRead | intros ? ?].
  apply only_bind; [now apply io_start_heater | intros ? ?].
  repeat io_step. now apply io_wash_loop.
Qed.

End Lines.

(** Allowing more lines allows more runs. *)
Lemma io_event_more (on on' : Pin -> bool) (w w' : World) :
  (forall p, on p = true -> on' p = true) ->
  only (io_event on) w w' -> only (io_event on') w w'.
Proof.
  intros Hon. apply only_weaken. intros [p v | p v | p v | p f d | ms];
    cbn [io_event]; try (intros H; exact H).
  intros H. apply andb_prop in H. destruct H as [Ha Hb]. rewrite Ha.
  apply orb_prop in Hb. destruct Hb as [-> | Hb]; [reflexivity |].
  rewrite (Hon _ Hb). apply orb_true_r.
Qed.

Section LinesOfPrograms.

Variable hw : Sensors.
Variable on : Pin -> bool.

Lemma io_setup (w : World) :
  on DRAIN_PIN = true -> only (io_event on) w (snd (setup hw w)).
Proof.
  intros Hd. unfold setup.
  apply only_bind; [unfold exec; cbn [snd]; apply io_reset | intros ? ?].
  apply only_bind; [apply io_eval, io_switchPressed | intros pressed ?].
  apply only_bind;
    [destruct pressed; [apply io_crash | apply only_refl] | intros ? ?].
  apply only_bind; [apply io_eval, io_isLoaded | intros loaded ?].
  apply only_bind; [| intros ? ?; apply io_beepMessage].
  destruct loaded; [| apply only_refl].
  apply only_bind; [apply io_beepError | intros ? ?].
  now apply io_drain.
Qed.

Lemma io_run_program (fuel : nat) (alternative : bool) (w : World) :
  (forall p, is_actuator p = true -> on p = true) ->
  only (io_event on) w (snd (run_program hw fuel alternative w)).
Proof.
  intros Hon.
  assert (forall washTime soap temperature w,
            only (io_event on) w
              (snd (cycle hw fuel washTime soap temperature w))) as Hcycle.
  { intros. apply io_cycle; try intros _; now apply Hon. }
  unfold run_program. destruct alternative.
  - apply only_bind; [apply io_beep | intros ? ?; apply Hcycle].
  - repeat (apply only_bind; [apply Hcycle | intros ? ?]). apply Hcycle.
Qed.

Lemma io_loop (fuel : nat) (w : World) :
  (forall p, is_actuator p = true -> on p = true) ->
  only (io_event on) w (snd (loop hw fuel w)).
Proof.
  intros Hon. unfold loop.
  apply only_bind; [apply io_wait_for_switch | intros ? ?].
  apply only_bind; [apply io_beep | intros ? ?].
  apply only_bind; [apply io_delay | intros ? ?].
  apply only_bind; [apply io_eval, io_switchPressed | intros pressed ?].
  apply only_bind; [now apply io_run_program | intros ? ?].
  apply io_write; [reflexivity | right; now apply Hon].
Qed.

End LinesOfPrograms.

(** X5. Which lines a procedure may switch on.  Waiting for the user
    switches nothing on; [setup] and [drain] nothing but the drain pump;
    [load] nothing but the valve and the main pump; a [cycle] never the soap
    dispenser unless it is asked for soap, and never the heater unless its
    target is positive; so the rinse program switches on neither.  Besides
    those writes, a run only delays, sounds 1000 Hz tones on the speaker and
    reads the level line, the switch and the thermistor. *)
Theorem lines_switched_on (hw : Sensors) (fuel : nat) (w : World) :
  only (io_event no_line) w (snd (wait_for_switch hw fuel w)) /\
  only (io_event drain_lines) w (snd (setup hw w)) /\
  only (io_event drain_lines) w (snd (drain hw w)) /\
  only (io_event load_lines) w (snd (load hw fuel w)) /\
  (forall washTime soap temperature,
     only (io_event (cycle_lines soap temperature)) w
       (snd (cycle hw fuel washTime soap temperature w))) /\
  only (io_event (cycle_lines false 0)) w (snd (run_program hw fuel true w)).
Proof.
  split; [apply io_wait_for_switch |].
  split; [now apply io_setup |].
  split; [now apply io_drain |].
  split; [now apply io_load |].
  assert (forall washTime soap temperature w,
            only (io_event (cycle_lines soap temperature)) w
              (snd (cycle hw fuel washTime soap temperature w))) as Hcycle.
  { intros washTime soap temperature w0.
    apply io_cycle; try reflexivity.
    - now intros ->.
    - intros H. cbn. now apply Z.ltb_lt. }
  split; [intros; apply Hcycle |].
  unfold run_program.
  apply only_bind; [apply io_beep | intros ? ?; apply Hcycle].
Qed.

Lemma io_event_wired (on : Pin -> bool) (e : Event) :
  io_event on e = true -> wired e = true.
Proof.
  destruct e as [p v | p v | p v | p f d | ms]; cbn [io_event wired].
  - intros H. apply andb_prop in H. destruct H as [H _].
    now destruct p.
  - now destruct p.
  - now destruct p.
  - intros H. apply andb_prop in H. destruct H as [H _].
    now destruct p.
  - reflexivity.
Qed.

(** X6. The firmware uses every pin in the direction that the [pinMode]
    calls of [setup] give it: in any run of [setup], of [loop] or of a
    [cycle], every write and every tone goes to a pin set to [OUTPUT], every
    digital read comes from a pin set to [INPUT] or [INPUT_PULLUP], and every
    analog read from a pin set to [INPUT]. *)
Theorem pins_used_as_configured (hw : Sensors) (fuel : nat) (w : World) :
  only wired w (snd (setup hw w)) /\
  only wired w (snd (loop hw fuel w)) /\
  (forall washTime soap temperature,
     only wired w (snd (cycle hw fuel washTime soap temperature w))).
Proof.
  split; [| split].
  - apply (only_weaken (io_event drain_lines)); [apply io_event_wired |].
    now apply io_setup.
  - apply (only_weaken (io_event is_actuator)); [apply io_event_wired |].
    now apply io_loop.
  - intros washTime soap temperature.
    apply (only_weaken (io_event is_actuator)); [apply io_event_wired |].
    apply io_cycle; try reflexivity; now intros _.
Qed.

(** ** Counting events *)

Lemma times_refl (P : Event -> bool) (w : World) : times P 0 w w.
Proof. exists []. split; [now rewrite app_nil_r | reflexivity]. Qed.

Lemma times_trans (P : Event -> bool) (a b : nat) (w0 w1 w2 : World) :
  times P a w0 w1 -> times P b w1 w2 -> times P (a + b) w0 w2.
Proof.
  intros (e1 & H1 & C1) (e2 & H2 & C2). exists (e1 ++ e2). split.
  - now rewrite H2, H1, app_assoc.
  - now rewrite filter_app, length_app, C1, C2.
Qed.

Lemma times_event (P : Event -> bool) (w w' : World) (e : Event) :
  log w' = log w ++ [e] -> times P (if P e then 1 else 0) w w'.
Proof.
  intros H. exists [e]. split; [exact H |]. cbn. now destruct (P e).
Qed.

(** A stretch in which every event satisfies [Q] has no event of [P], when
    [Q] excludes [P]. *)
Lemma only_times_0 (P Q : Event -> bool) (w w' : World) :
  (forall e, Q e = true -> P e = false) -> only Q w w' -> times P 0 w w'.
Proof.
  intros HQP (evs & Hl & Hf). exists evs. split; [exact Hl |].
  clear Hl. induction evs as [| e evs IH]; [reflexivity |].
  cbn [forallb] in Hf. apply andb_prop in Hf. destruct Hf as [He Hf].
  cbn [filter]. rewrite (HQP e He). now apply IH.
Qed.

Lemma io_never_drains (on : Pin -> bool) :
  on DRAIN_PIN = false ->
  forall e, io_event on e = true -> is_drain_on e = false.
Proof.
  intros Hon e. destruct e as [p v | p v | p v | p f d | ms]; try reflexivity.
  destruct p; try reflexivity. destruct v; [reflexivity |].
  cbn. now rewrite Hon.
Qed.

Lemma io_never_soaps (on : Pin -> bool) :
  on SOAP_PIN = false ->
  forall e, io_event on e = true -> is_soap_on e = false.
Proof.
  intros Hon e. destruct e as [p v | p v | p v | p f d | ms]; try reflexivity.
  destruct p; try reflexivity. destruct v; [reflexivity |].
  cbn. now rewrite Hon.
Qed.

Lemma bind_exec {A : Type} (f : World -> World) (k : unit -> M A) (w : World) :
  bind (exec f) k w = k tt (f w).
Proof. reflexivity. Qed.

Lemma bind_done {A B : Type} (c : M A) (k : A -> M B) (w w1 : World) (a : A) :
  c w = (Done a, w1) -> bind c k w = k a w1.
Proof. intros H. unfold bind. now rewrite H. Qed.

Lemma bind_halted_run {A B : Type} (c : M A) (k : A -> M B) (w w1 : World)
    (i : Z) :
  c w = (Halted i, w1) -> bind c k w = (Halted i, w1).
Proof. intros H. unfold bind. now rewrite H. Qed.

(** ** setup *)

Section Setup.

Variable hw : Sensors.

(** [drain] switches the drain pump on exactly once. *)
Lemma drain_drains_once (w : World) :
  times is_drain_on 1 w (snd (drain hw w)).
Proof.
  change (drain hw w)
    with ((exec (beepMessage DRAIN_MSG) ;;
           exec (delay DRAIN_TIME) ;;
           exec (digitalWrite DRAIN_PIN RELAY_MODULE_OFF) ;;
           loaded <- eval (isLoaded hw) ;;
           if loaded : bool then crash DRAIN_ISSUE else ret tt)
            (digitalWrite DRAIN_PIN RELAY_MODULE_ON (reset 1000 w))).
  apply (times_trans _ 0 1 _ (reset 1000 w)).
  { apply (only_times_0 _ (io_event no_line));
      [now apply io_never_drains | apply io_reset]. }
  apply (times_trans _ 1 0 _
           (digitalWrite DRAIN_PIN RELAY_MODULE_ON (reset 1000 w))).
  { now apply (times_event is_drain_on _ _
                 (EvWrite DRAIN_PIN RELAY_MODULE_ON)). }
  apply (only_times_0 _ (io_event no_line)); [now apply io_never_drains |].
  generalize (digitalWrite DRAIN_PIN RELAY_MODULE_ON (reset 1000 w)).
  intros w1.
  apply only_bind; [apply io_beepMessage | intros ? ?].
  apply only_bind; [apply io_delay | intros ? ?].
  apply only_bind;
    [apply io_write; [reflexivity | left; reflexivity] | intros ? ?].
  apply only_bind; [apply io_eval, io_isLoaded | intros loaded ?].
  destruct loaded; [apply io_crash | apply only_refl].
Qed.

(** [setup] written out. *)
Lemma setup_eq (w : World) :
  setup hw w =
  let w1 := snd (switchPressed hw (reset 0 w)) in
  if fst (switchPressed hw (reset 0 w)) then crash GENERIC_ISSUE w1
  else if fst (isLoaded hw w1) then
    (drain hw ;; exec (beepMessage WELCOME_MSG))
      (beepError DRAIN_ISSUE (snd (isLoaded hw w1)))
  else (Done tt, beepMessage WELCOME_MSG (snd (isLoaded hw w1))).
Proof.
  unfold setup. rewrite bind_exec. generalize (reset 0 w). intros w0.
  unfold bind at 1, eval at 1.
  destruct (switchPressed hw w0) as [[] w1]; cbn [fst snd]; [reflexivity |].
  unfold bind at 1, ret at 1. unfold bind at 1, eval at 1.
  destruct (isLoaded hw w1) as [[] w2]; cbn [fst snd]; reflexivity.
Qed.

Lemma reset_0_now (w : World) : now (reset 0 w) = now w.
Proof. rewrite reset_now. change (ulong 0) with 0. lia. Qed.

End Setup.

(** X7. [setup] halts with [GENERIC_ISSUE] exactly when the switch line
    reads low (pressed) at power-up, and then it has not even looked at the
    tank: after its own [reset()] it read the switch and went through
    [reset(500)], nothing else.  The only other issue it can halt with is
    [DRAIN_ISSUE]. *)
Theorem setup_outcomes (hw : Sensors) (w : World) :
  (fst (setup hw w) = Halted GENERIC_ISSUE <->
   digital_in hw SWITCH_PIN (now w) (outs (reset 0 w)) = LOW) /\
  (forall issue, fst (setup hw w) = Halted issue ->
                 issue = GENERIC_ISSUE \/ issue = DRAIN_ISSUE) /\
  (digital_in hw SWITCH_PIN (now w) (outs (reset 0 w)) = LOW ->
   log (snd (setup hw w))
   = log w ++ reset_events 0 ++ [EvRead SWITCH_PIN LOW] ++ reset_events 500).
Proof.
  rewrite setup_eq. cbv zeta.
  unfold switchPressed, digitalRead. cbn [fst snd].
  pose proof (reset_0_now w) as Hnow. pose proof (reset_log 0 w) as Hlog.
  change (ulong 0) with 0 in Hlog.
  generalize dependent (reset 0 w). intros w0 Hnow Hlog. rewrite Hnow.
  destruct (digital_in hw SWITCH_PIN (now w) (outs w0)) eqn:Hsw; cbn [negb].
  - (* not pressed *)
    assert (forall issue,
              fst ((if fst (isLoaded hw
                         (mkWorld (now w) (outs w0)
                            (log w0 ++ [EvRead SWITCH_PIN true])))
                    then (drain hw ;; exec (beepMessage WELCOME_MSG))
                           (beepError DRAIN_ISSUE
                              (snd (isLoaded hw
                                 (mkWorld (now w) (outs w0)
                                    (log w0 ++ [EvRead SWITCH_PIN true])))))
                    else (Done tt,
                          beepMessage WELCOME_MSG
                            (snd (isLoaded hw
                               (mkWorld (now w) (outs w0)
                                  (log w0 ++ [EvRead SWITCH_PIN true])))))))
              = Halted issue -> issue = DRAIN_ISSUE) as Hissue.
    { intros issue. split_if; [| discriminate].
      intros H. apply bind_halted in H.
      destruct H as [H | (a & w3 & _ & H)]; [| discriminate H].
      now apply drain_halts in H. }
    split; [| split].
    + split; [| discriminate]. intros H. apply Hissue in H. discriminate H.
    + intros issue H. right. now apply Hissue.
    + discriminate.
  - (* pressed *)
    split; [| split].
    + split; reflexivity.
    + intros issue H. left. cbn in H. congruence.
    + intros _. unfold crash. cbn [snd]. rewrite reset_log. cbn [log].
      change (ulong 500) with 500. rewrite Hlog.
      now rewrite <- !app_assoc.
Qed.

(** X8. [setup] switches the drain pump on at most once: exactly once when
    the switch is not pressed and the first reading of the tank shows water
    (the one attempt to drain a tank that was left full), and not at all
    otherwise. *)
Theorem setup_drains_once (hw : Sensors) (w : World) :
  times is_drain_on
    (if negb (fst (switchPressed hw (reset 0 w))) &&
        fst (isLoaded hw (snd (switchPressed hw (reset 0 w))))
     then 1 else 0)
    w (snd (setup hw w)).
Proof.
  rewrite setup_eq. cbv zeta.
  assert (times is_drain_on 0 w (snd (switchPressed hw (reset 0 w)))) as Hpre.
  { apply (only_times_0 _ (io_event no_line)); [now apply io_never_drains |].
    eapply only_trans; [apply io_reset | apply io_switchPressed]. }
  generalize dependent (switchPressed hw (reset 0 w)).
  intros [pressed w1] Hpre. cbn [fst snd] in *.
  destruct pressed; cbn [negb andb].
  - apply (times_trans _ 0 0 _ _ _ Hpre).
    apply (only_times_0 _ (io_event no_line)); [now apply io_never_drains |].
    apply io_crash.
  - assert (times is_drain_on 0 w (snd (isLoaded hw w1))) as Hpre2.
    { apply (times_trans _ 0 0 _ _ _ Hpre).
      apply (only_times_0 _ (io_event no_line));
        [now apply io_never_drains | apply io_isLoaded]. }
    generalize dependent (isLoaded hw w1).
    intros [loaded w2] Hpre2. cbn [fst snd] in *.
    destruct loaded.
    + apply (times_trans _ 0 1 _ _ _ Hpre2).
      apply (times_trans _ 0 1 _ (beepError DRAIN_ISSUE w2)).
      { apply (only_times_0 _ (io_event no_line));
          [now apply io_never_drains | apply io_beepError]. }
      generalize (beepError DRAIN_ISSUE w2). intros w3.
      pose proof (drain_drains_once hw w3) as Hd.
      unfold bind. destruct (drain hw w3) as [[[] | issue |] w4];
        cbn [snd] in *; try exact Hd.
      apply (times_trans _ 1 0 _ _ _ Hd).
      apply (only_times_0 _ (io_event no_line));
        [now apply io_never_drains | apply io_beepMessage].
    + apply (times_trans _ 0 0 _ _ _ Hpre2).
      apply (only_times_0 _ (io_event no_line));
        [now apply io_never_drains | apply io_beepMessage].
Qed.

(** ** The beeps *)

Lemma tones_of_app (d : Z) (a b : list Event) :
  tones_of d (a ++ b) = (tones_of d a + tones_of d b)%nat.
Proof. unfold tones_of. now rewrite filter_app, length_app. Qed.

Lemma tones_of_beep_events (d : Z) (n : nat) (l dl : Z) :
  tones_of d (beep_events n l dl) = if l =? d then n else 0%nat.
Proof.
  unfold tones_of. induction n as [| n IH]; cbn [beep_events filter].
  - now destruct (l =? d).
  - cbn [is_tone_of]. destruct (l =? d); cbn [length]; now rewrite IH.
Qed.

(** X9. The beeps carry their number.  [beepError(issue)] sounds ten tones
    of 50 ms and then as many tones of 500 ms as the issue says, and nothing
    else; [beepMessage(message)] sounds two tones of 350 ms and then as many
    tones of 150 ms as the message says.  So an issue is told from a message
    by the length of its tones, and its number is the count of the long
    ones.  A number that is not positive adds no tone.  The error signal
    takes 1100 ms plus 800 ms per count, the message 1140 ms plus 200 ms. *)
Theorem beeps_carry_their_number (issue message : Z) (w : World) :
  (exists evs,
     log (beepError issue w) = log w ++ evs /\
     tones_of 50 evs = 10%nat /\
     tones_of 500 evs = Z.to_nat issue /\
     tones_of 350 evs = 0%nat /\ tones_of 150 evs = 0%nat /\
     length evs = (2 * (10 + Z.to_nat issue) + 1)%nat) /\
  now (beepError issue w) = now w + 1100 + 800 * Z.max 0 issue /\
  (exists evs,
     log (beepMessage message w) = log w ++ evs /\
     tones_of 350 evs = 2%nat /\
     tones_of 150 evs = Z.to_nat message /\
     tones_of 50 evs = 0%nat /\ tones_of 500 evs = 0%nat /\
     length evs = (2 * (2 + Z.to_nat message))%nat) /\
  now (beepMessage message w) = now w + 1140 + 200 * Z.max 0 message.
Proof.
  assert (forall n l dl, length (beep_events n l dl) = (2 * n)%nat) as Hlen.
  { intros n l dl. induction n as [| n IH]; cbn [beep_events length]; lia. }
  split; [| split; [| split]].
  - exists (beep_events 10 50 50 ++ [EvDelay 100]
            ++ beep_events (Z.to_nat issue) 500 300).
    split.
    + unfold beepError, beep. rewrite beep_loop_log.
      cbn [log delay]. rewrite beep_loop_log.
      change (Z.to_nat 10) with 10%nat. change (ulong 100) with 100.
      now rewrite <- !app_assoc.
    + rewrite !tones_of_app, !tones_of_beep_events.
      rewrite !length_app, !Hlen. cbn [length].
      change (tones_of 50 [EvDelay 100]) with 0%nat.
      change (tones_of 500 [EvDelay 100]) with 0%nat.
      change (tones_of 350 [EvDelay 100]) with 0%nat.
      change (tones_of 150 [EvDelay 100]) with 0%nat.
      cbn [Z.eqb Pos.eqb]. repeat split; lia.
  - unfold beepError. rewrite !beep_now. rewrite now_delay, beep_now.
    change (Z.of_nat (Z.to_nat 10) * ulong (50 + 50)) with 1000.
    change (ulong 100) with 100. change (ulong (500 + 300)) with 800. lia.
  - exists (beep_events 2 350 220 ++ beep_events (Z.to_nat message) 150 50).
    split.
    + unfold beepMessage, beep. rewrite !beep_loop_log.
      change (Z.to_nat 2) with 2%nat. now rewrite <- !app_assoc.
    + rewrite !tones_of_app, !tones_of_beep_events.
      rewrite !length_app, !Hlen.
      cbn [Z.eqb Pos.eqb]. repeat split; lia.
  - rewrite beepMessage_now. lia.
Qed.

(** ** loop: waiting for the switch and choosing the program *)

Section Press.

Variable hw : Sensors.

(** The switch is up before [tp] and down for [hold] ms from [tp] on. *)
Variables tp hold : Z.
Hypothesis long_enough : 100 <= hold.
Hypothesis up_before :
  forall t o, t < tp -> digital_in hw SWITCH_PIN t o = HIGH.
Hypothesis down_while :
  forall t o, tp <= t < tp + hold -> digital_in hw SWITCH_PIN t o = LOW.

Lemma switchPressed_now (w : World) : now (snd (switchPressed hw w)) = now w.
Proof. reflexivity. Qed.

Lemma switchPressed_outs (w : World) :
  outs (snd (switchPressed hw w)) = outs w.
Proof. reflexivity. Qed.

Lemma switchPressed_fst (w : World) :
  fst (switchPressed hw w) = negb (digital_in hw SWITCH_PIN (now w) (outs w)).
Proof. reflexivity. Qed.

(** The polls are 100 ms apart; the first one at or after [tp] finds the
    switch down. *)
Lemma wait_for_switch_press (fuel : nat) (w : World) :
  now w < tp + 100 ->
  tp + 100 - now w <= 100 * Z.of_nat fuel ->
  exists wd,
    wait_for_switch hw fuel w = (Done tt, wd) /\
    tp <= now wd < tp + 100 /\ now w <= now wd /\ outs wd = outs w.
Proof.
  revert w. induction fuel as [| fuel IH]; intros w Hw Hfuel; [lia |].
  cbn [wait_for_switch].
  pose proof (switchPressed_now w) as Hn.
  pose proof (switchPressed_outs w) as Ho.
  pose proof (switchPressed_fst w) as Hf.
  destruct (switchPressed hw w) as [pressed w1]. cbn [fst snd] in Hn, Ho, Hf.
  destruct (Z_lt_le_dec (now w) tp) as [Hbefore | Hafter].
  - rewrite up_before in Hf by exact Hbefore. subst pressed. cbn [negb].
    destruct (IH (delay 100 w1)) as (wd & Hrun & Hb & Hm & Hod).
    + rewrite now_delay, Hn. change (ulong 100) with 100. lia.
    + rewrite now_delay, Hn. change (ulong 100) with 100. lia.
    + exists wd. rewrite now_delay, Hn in Hm. rewrite outs_delay, Ho in Hod.
      change (ulong 100) with 100 in Hm.
      repeat split; [exact Hrun | lia | lia | lia | exact Hod].
  - rewrite down_while in Hf by lia. subst pressed. cbn [negb].
    exists w1. repeat split; [lia | lia | lia | exact Ho].
Qed.

End Press.

(** X10. Which program [loop] runs.  Let the switch go down at [tp], while
    [loop] is waiting, stay down for [hold] ms and then stay up.  A press of
    at least 100 ms is always noticed, less than 100 ms after it began.  The
    switch is read once more 2600 ms after it was noticed: a press of 2700 ms
    or more starts the rinse program, a press of 2600 ms or less the regular
    wash.  [wp] is the state in which the program starts. *)
Theorem loop_selects_program
    (hw : Sensors) (fuel : nat) (w : World) (tp hold : Z) :
  now w <= tp ->
  100 <= hold ->
  (forall t o, t < tp -> digital_in hw SWITCH_PIN t o = HIGH) ->
  (forall t o, tp <= t < tp + hold -> digital_in hw SWITCH_PIN t o = LOW) ->
  (forall t o, tp + hold <= t -> digital_in hw SWITCH_PIN t o = HIGH) ->
  tp + 100 - now w <= 100 * Z.of_nat fuel ->
  exists wp,
    tp + 2600 <= now wp < tp + 2700 /\
    outs wp = outs w /\
    (2700 <= hold ->
     loop hw fuel w
     = (run_program hw fuel true ;; exec (digitalWrite LED_PIN LED_ON)) wp) /\
    (hold <= 2600 ->
     loop hw fuel w
     = (run_program hw fuel false ;; exec (digitalWrite LED_PIN LED_ON)) wp).
Proof.
  intros Hw Hhold Hup Hdown Hrel Hfuel.
  destruct (wait_for_switch_press hw tp hold Hhold Hup Hdown fuel w)
    as (wd & Hrun & Hd & _ & Hod); [lia | lia |].
  set (wr := delay 2000 (beep 3 150 50 wd)).
  assert (now wr = now wd + 2600) as Hnr.
  { unfold wr. rewrite now_delay, beep_now.
    change (Z.of_nat (Z.to_nat 3) * ulong (150 + 50)) with 600.
    change (ulong 2000) with 2000. lia. }
  assert (outs wr = outs w) as Hor.
  { unfold wr. now rewrite outs_delay, beep_outs. }
  assert (loop hw fuel w
          = (run_program hw fuel (fst (switchPressed hw wr)) ;;
             exec (digitalWrite LED_PIN LED_ON)) (snd (switchPressed hw wr)))
    as Hloop.
  { unfold loop. rewrite (bind_done _ _ _ _ _ Hrun).
    rewrite !bind_exec. fold wr. unfold bind at 1, eval at 1.
    now destruct (switchPressed hw wr). }
  clearbody wr.
  exists (snd (switchPressed hw wr)).
  rewrite Hloop. cbn [switchPressed digitalRead fst snd now outs].
  split; [lia |]. split; [exact Hor |]. split; intros Hh.
  - now rewrite Hdown by lia.
  - now rewrite Hrel by lia.
Qed.

Lemma loop_selects_program_witness :
  exists wp,
    1000 + 2600 <= now wp < 1000 + 2700 /\
    outs wp = outs idle_world /\
    (2700 <= 500 ->
     loop (pressed_at 1000 500) 20 idle_world
     = (run_program (pressed_at 1000 500) 20 true ;;
        exec (digitalWrite LED_PIN LED_ON)) wp) /\
    (500 <= 2600 ->
     loop (pressed_at 1000 500) 20 idle_world
     = (run_program (pressed_at 1000 500) 20 false ;;
        exec (digitalWrite LED_PIN LED_ON)) wp).
Proof.
  apply (loop_selects_program (pressed_at 1000 500) 20 idle_world 1000 500).
  - cbn. lia.
  - lia.
  - intros t o Ht. cbn.
    destruct (Z.leb_spec 1000 t); [lia | reflexivity].
  - intros t o Ht. cbn.
    destruct (Z.leb_spec 1000 t); [| lia].
    destruct (Z.ltb_spec t 1500); [reflexivity | lia].
  - intros t o Ht. cbn.
    destruct (Z.ltb_spec t 1500); [lia |]. now rewrite andb_false_r.
  - cbn. lia.
Defined.

(** ** The wash loop above the target *)

Lemma ulong_bound (z : Z) : 0 <= ulong z < 2 ^ 32.
Proof. unfold ulong. apply Z.mod_pos_bound. reflexivity. Qed.

Section Warm.

Variable hw : Sensors.
Variables washTime temperature cycleStarts Vo ws0 : Z.

(** The cached reading is above the target, and the wash time is a whole
    number of passes of 2000 ms. *)
Hypothesis warm : temperature < Vo.
Hypothesis whole_passes : (umul (umul washTime 60) 1000) mod 2000 = 0.

(** One pass above the target: the heater is switched off, the LED blinks,
    2000 ms go by, and neither the thermistor is read nor the heater
    switched on. *)
Lemma warm_pass (w : World) :
  now (heartbeat (digitalWrite HEATER_PIN LOW w)) = now w + 2000 /\
  outs (heartbeat (digitalWrite HEATER_PIN LOW w)) HEATER_PIN = LOW /\
  times is_analog 0 w (heartbeat (digitalWrite HEATER_PIN LOW w)) /\
  times is_heater_on 0 w (heartbeat (digitalWrite HEATER_PIN LOW w)).
Proof.
  split; [now rewrite heartbeat_now |]. split; [reflexivity |].
  split.
  - exists [EvWrite HEATER_PIN LOW; EvDelay 1000; EvWrite LED_PIN LED_ON;
            EvDelay 1000; EvWrite LED_PIN LED_OFF].
    split; [| reflexivity].
    unfold heartbeat. cbn [log delay digitalWrite].
    change (ulong 1000) with 1000. now rewrite <- !app_assoc.
  - exists [EvWrite HEATER_PIN LOW; EvDelay 1000; EvWrite LED_PIN LED_ON;
            EvDelay 1000; EvWrite LED_PIN LED_OFF].
    split; [| reflexivity].
    unfold heartbeat. cbn [log delay digitalWrite].
    change (ulong 1000) with 1000. now rewrite <- !app_assoc.
Qed.

(** Above the target the loop counts the wash time down, pass by pass,
    whatever the sensor shows in the meantime. *)
Lemma wash_loop_warm (fuel : nat) (w : World) :
  (now w - ws0) mod 2000 = 0 ->
  0 <= now w - ws0 <= umul (umul washTime 60) 1000 ->
  umul (umul washTime 60) 1000 - (now w - ws0) + 2000
  <= 2000 * Z.of_nat fuel ->
  exists w',
    wash_loop hw fuel washTime temperature cycleStarts Vo (ulong ws0) w
    = (Done tt, w') /\
    now w' = ws0 + umul (umul washTime 60) 1000 /\
    times is_analog 0 w w' /\
    times is_heater_on 0 w w' /\
    (now w - ws0 < umul (umul washTime 60) 1000 ->
     outs w' HEATER_PIN = LOW).
Proof.
  pose proof (ulong_bound (umul washTime 60 * 1000)) as Hlim.
  fold (umul (umul washTime 60) 1000) in Hlim.
  revert w. induction fuel as [| fuel IH]; intros w Hmod He Hfuel; [lia |].
  cbn [wash_loop].
  unfold millis. rewrite usub_ulong by lia.
  destruct (Z.ltb_spec (now w - ws0) (umul (umul washTime 60) 1000))
    as [Hlt | Hge].
  - rewrite heat_control_above_target by exact warm.
    destruct (warm_pass w) as (Hn & Ho & Ha & Hh).
    assert (now w - ws0 + 2000 <= umul (umul washTime 60) 1000) as Hnext.
    { apply Z.mod_divide in Hmod; [| lia].
      apply Z.mod_divide in whole_passes; [| lia].
      destruct Hmod as [a Ha']. destruct whole_passes as [b Hb]. lia. }
    destruct (IH (heartbeat (digitalWrite HEATER_PIN LOW w)))
      as (w' & Hrun & Hn' & Ha2 & Hh2 & Ho2).
    + rewrite Hn. replace (now w + 2000 - ws0)
        with (now w - ws0 + 1 * 2000) by lia.
      now rewrite Z.mod_add by lia.
    + rewrite Hn. lia.
    + rewrite Hn. lia.
    + exists w'. split; [exact Hrun |]. split; [exact Hn' |].
      split; [exact (times_trans _ 0 0 _ _ _ Ha Ha2) |].
      split; [exact (times_trans _ 0 0 _ _ _ Hh Hh2) |].
      intros _. rewrite Hn in Ho2.
      destruct (Z_lt_le_dec (now w + 2000 - ws0)
                  (umul (umul washTime 60) 1000)) as [Hmore | Hlast];
        [now apply Ho2 |].
      (* the last pass *)
      clear IH Ho2. revert Hrun.
      destruct fuel as [| fuel]; [discriminate |].
      cbn [wash_loop]. unfold millis. rewrite usub_ulong by (rewrite Hn; lia).
      rewrite Hn.
      destruct (Z.ltb_spec (now w + 2000 - ws0)
                  (umul (umul washTime 60) 1000)) as [Hlt' | _]; [lia |].
      intros H. injection H as <-. exact Ho.
  - exists w. split; [reflexivity |]. split; [lia |].
    split; [apply times_refl |]. split; [apply times_refl | lia].
Qed.

End Warm.

(** X11. When the reading that [cycle] takes before it starts to wash is
    above the target, the wash lasts exactly the wash time: the loop makes
    30 passes of 2000 ms per minute, the thermistor is read that one time and
    never again, whatever it would show, and the heater is never switched on
    and is off at the end.  This holds for wash times of up to 71582
    minutes, for which [washTime * 60 * 1000] fits an [unsigned long]. *)
Theorem wash_lasts_wash_time
    (hw : Sensors) (fuel : nat) (washTime : Z) (soap : bool)
    (temperature : Z) (w1 : World) :
  0 <= washTime <= 71582 ->
  temperature < analog_in hw TEMP_SENSOR (now (release_soap soap w1))
                  (outs (release_soap soap w1)) ->
  30 * washTime + 1 <= Z.of_nat fuel ->
  exists w',
    wash hw fuel washTime soap temperature w1 = (Done tt, w') /\
    now w' = now (release_soap soap w1) + washTime * 60000 /\
    times is_analog 1 w1 w' /\
    times is_heater_on 0 w1 w' /\
    (0 < washTime -> outs w' HEATER_PIN = LOW).
Proof.
  intros HwT Hwarm Hfuel.
  assert (umul (umul (ulong washTime) 60) 1000 = washTime * 60000) as Hlim.
  { unfold umul. rewrite (ulong_small washTime) by lia.
    rewrite (ulong_small (washTime * 60)) by lia.
    rewrite ulong_small by lia. lia. }
  rewrite wash_eq. cbv zeta. unfold cycle_start. cbv zeta.
  assert (times is_analog 0 w1 (release_soap soap w1) /\
          times is_heater_on 0 w1 (release_soap soap w1)) as [Ha0 Hh0].
  { split.
    - unfold release_soap. destruct soap; [| apply times_refl].
      exists [EvWrite SOAP_PIN RELAY_MODULE_ON; EvDelay 200;
              EvWrite SOAP_PIN RELAY_MODULE_OFF; EvDelay 1000].
      split; [| reflexivity]. cbn [log delay digitalWrite].
      change (ulong 200) with 200. change (ulong 1000) with 1000.
      now rewrite <- !app_assoc.
    - apply (only_times_0 _ not_heater_on);
        [intros e He; unfold not_heater_on in He; now destruct (is_heater_on e)
        | apply quiet_release_soap]. }
  generalize dependent (release_soap soap w1). intros wa Hwarm Ha0 Hh0.
  cbn [analogRead fst snd].
  set (Vo := analog_in hw TEMP_SENSOR (now wa) (outs wa)) in *.
  set (wb := mkWorld (now wa) (outs wa) (log wa ++ [EvAnalog TEMP_SENSOR Vo])).
  assert (start_heater temperature Vo wb = wb) as ->.
  { unfold start_heater.
    destruct (Z.ltb_spec Vo temperature) as [H | _]; [lia |].
    now rewrite andb_false_r. }
  assert (times is_analog 1 wa wb) as Ha1.
  { now apply (times_event is_analog wa wb (EvAnalog TEMP_SENSOR Vo)). }
  assert (times is_heater_on 0 wa wb) as Hh1.
  { now apply (times_event is_heater_on wa wb (EvAnalog TEMP_SENSOR Vo)). }
  assert (now wb = now wa) as Hnb by reflexivity.
  clearbody wb.
  destruct (wash_loop_warm hw (ulong washTime) temperature (millis wb) Vo
              (now wb) Hwarm) with (fuel := fuel) (w := wb)
    as (w' & Hrun & Hn & Ha2 & Hh2 & Ho).
  - rewrite Hlim. replace (washTime * 60000) with (30 * washTime * 2000)
      by lia. apply Z.mod_mul. lia.
  - now rewrite Z.sub_diag.
  - rewrite Hlim. lia.
  - rewrite Hlim. lia.
  - exists w'. unfold millis at 2. split; [exact Hrun |].
    rewrite Hlim in Hn, Ho.
    split; [lia |].
    split; [exact (times_trans _ 0 1 _ _ _ Ha0
                     (times_trans _ 1 0 _ _ _ Ha1 Ha2)) |].
    split; [exact (times_trans _ 0 0 _ _ _ Hh0
                     (times_trans _ 0 0 _ _ _ Hh1 Hh2)) |].
    intros Hpos. apply Ho. lia.
Qed.

Lemma wash_lasts_wash_time_witness :
  exists w',
    wash (full_tank_at 960) 200 5 false 950 idle_world = (Done tt, w') /\
    now w' = now (release_soap false idle_world) + 5 * 60000 /\
    times is_analog 1 idle_world w' /\
    times is_heater_on 0 idle_world w' /\
    (0 < 5 -> outs w' HEATER_PIN = LOW).
Proof.
  apply (wash_lasts_wash_time (full_tank_at 960) 200 5 false 950 idle_world).
  - lia.
  - cbn. lia.
  - cbn. lia.
Defined.

(** ** The soap dispenser *)

Lemma at_most_bind {A B : Type} (P : Event -> bool) (a b : nat)
    (c : M A) (k : A -> M B) (w : World) :
  at_most P a w (snd (c w)) ->
  (forall x w1, at_most P b w1 (snd (k x w1))) ->
  at_most P (a + b) w (snd (bind c k w)).
Proof.
  intros (m & Hm & Hc) Hk. unfold bind.
  destruct (c w) as [[x | issue |] w1]; cbn [snd] in *.
  - destruct (Hk x w1) as (n & Hn & Hk').
    exists (m + n)%nat. split; [lia | exact (times_trans _ _ _ _ _ _ Hc Hk')].
  - exists m. split; [lia | exact Hc].
  - exists m. split; [lia | exact Hc].
Qed.

Section Soap.

Variable hw : Sensors.

(** A cycle pulses the soap dispenser once if it is asked for soap and its
    load completes, and never otherwise. *)
Lemma cycle_soaps (fuel : nat) (washTime : Z) (soap : bool)
    (temperature : Z) (w : World) :
  times is_soap_on
    (match fst (load hw fuel w) with
     | Done _ => if soap then 1 else 0
     | _ => 0
     end)
    w (snd (cycle hw fuel washTime soap temperature w)).
Proof.
  assert (times is_soap_on 0 w (snd (load hw fuel w))) as Hload.
  { apply (only_times_0 _ (io_event load_lines));
      [now apply io_never_soaps | now apply io_load]. }
  unfold cycle, bind at 1.
  destruct (load hw fuel w) as [[[] | issue |] w1]; cbn [fst snd] in *;
    try exact Hload.
  change (bind (wash hw fuel washTime soap temperature)
            (fun _ => drain hw) w1)
    with (bind
            (Vo <- eval (analogRead hw TEMP_SENSOR) ;;
             exec (start_heater temperature Vo) ;;
             cycleStarts <- get_millis ;;
             washStarts <- get_millis ;;
             wash_loop hw fuel (ulong washTime) temperature cycleStarts
               Vo washStarts)
            (fun _ => drain hw) (release_soap soap w1)).
  assert (times is_soap_on (if soap then 1 else 0) w1 (release_soap soap w1))
    as Hsoap.
  { unfold release_soap. destruct soap; [| apply times_refl].
    exists [EvWrite SOAP_PIN RELAY_MODULE_ON; EvDelay 200;
            EvWrite SOAP_PIN RELAY_MODULE_OFF; EvDelay 1000].
    split; [| reflexivity]. cbn [log delay digitalWrite].
    change (ulong 200) with 200. change (ulong 1000) with 1000.
    now rewrite <- !app_assoc. }
  generalize dependent (release_soap soap w1). intros wa Hsoap.
  replace (if soap then 1%nat else 0%nat)
    with (0 + ((if soap then 1 else 0) + 0))%nat by lia.
  apply (times_trans _ _ _ _ _ _ Hload).
  apply (times_trans _ _ _ _ _ _ Hsoap).
  apply (only_times_0 _ (io_event (cycle_lines false temperature)));
    [now apply io_never_soaps |].
  apply only_bind; [| intros ? ?; now apply io_drain].
  apply only_bind; [apply io_eval, io_analogRead | intros ? ?].
  apply only_bind;
    [apply io_start_heater; intros H; cbn; now apply Z.ltb_lt | intros ? ?].
  apply only_bind; [apply only_refl | intros ? ?].
  apply only_bind; [apply only_refl | intros ? ?].
  now apply io_wash_loop.
Qed.

Lemma cycle_soaps_at_most (fuel : nat) (washTime : Z) (soap : bool)
    (temperature : Z) (w : World) :
  at_most is_soap_on (if soap then 1 else 0) w
    (snd (cycle hw fuel washTime soap temperature w)).
Proof.
  pose proof (cycle_soaps fuel washTime soap temperature w) as H.
  destruct (fst (load hw fuel w)).
  - eexists. split; [| exact H]. lia.
  - exists 0%nat. split; [lia | exact H].
  - exists 0%nat. split; [lia | exact H].
Qed.

End Soap.

(** X12. A [cycle] pulses the soap dispenser exactly once when it is asked
    for soap and its load completes, and never otherwise.  So the rinse
    program never releases soap, and the regular wash program releases it at
    most once. *)
Theorem soap_released_once (hw : Sensors) (fuel : nat) (w : World) :
  (forall (washTime : Z) (soap : bool) (temperature : Z),
     times is_soap_on
       (match fst (load hw fuel w) with
        | Done _ => if soap then 1 else 0
        | _ => 0
        end)
       w (snd (cycle hw fuel washTime soap temperature w))) /\
  times is_soap_on 0 w (snd (run_program hw fuel true w)) /\
  at_most is_soap_on 1 w (snd (run_program hw fuel false w)).
Proof.
  split; [intros; apply cycle_soaps |]. split.
  - apply (only_times_0 _ (io_event (cycle_lines false 0)));
      [now apply io_never_soaps |].
    unfold run_program.
    apply only_bind; [apply io_beep | intros ? ?].
    apply io_cycle; try reflexivity; [discriminate | intros H; lia].
  - unfold run_program.
    apply (at_most_bind _ 0 1);
      [apply (cycle_soaps_at_most hw fuel 3 false 950) | intros ? ?].
    apply (at_most_bind _ 1 0);
      [apply (cycle_soaps_at_most hw fuel 15 true 950) | intros ? ?].
    apply (at_most_bind _ 0 0);
      [apply (cycle_soaps_at_most hw fuel 3 false 950) | intros ? ?].
    apply (cycle_soaps_at_most hw fuel 3 false 0).
Qed.

(** ** The outputs at every instant *)

Lemma replay_app (o : Pin -> bool) (a b : list Event) :
  replay o (a ++ b) = replay (replay o a) b.
Proof. revert o. induction a as [| e a IH]; intros o; cbn; auto. Qed.

Lemma throughout_app (I : (Pin -> bool) -> Prop) (o : Pin -> bool)
    (a b : list Event) :
  throughout I o a -> throughout I (replay o a) b -> throughout I o (a ++ b).
Proof.
  revert o. induction a as [| e a IH]; intros o Ha Hb; cbn in *.
  - exact Hb.
  - destruct Ha as [Ho Ha]. split; [exact Ho | now apply IH].
Qed.

Lemma throughout_start (I : (Pin -> bool) -> Prop) (o : Pin -> bool)
    (evs : list Event) :
  throughout I o evs -> I o.
Proof. destruct evs; cbn; tauto. Qed.

Lemma throughout_end (I : (Pin -> bool) -> Prop) (o : Pin -> bool)
    (evs : list Event) :
  throughout I o evs -> I (replay o evs).
Proof.
  revert o. induction evs as [| e evs IH]; intros o; cbn.
  - tauto.
  - intros [_ H]. now apply IH.
Qed.

Lemma throughout_weaken (I J : (Pin -> bool) -> Prop) (o : Pin -> bool)
    (evs : list Event) :
  (forall o, I o -> J o) -> throughout I o evs -> throughout J o evs.
Proof.
  intros HIJ. revert o. induction evs as [| e evs IH]; intros o; cbn.
  - intros [H _]. auto.
  - intros [H Hr]. split; auto.
Qed.

Lemma throughout_stable (I : (Pin -> bool) -> Prop) (Q : Event -> bool)
    (o : Pin -> bool) (evs : list Event) :
  stable I Q -> I o -> forallb Q evs = true -> throughout I o evs.
Proof.
  intros Hst. revert o. induction evs as [| e evs IH]; intros o Ho Hq; cbn.
  - now split.
  - cbn in Hq. apply andb_prop in Hq. destruct Hq as [He Hq].
    split; [exact Ho |]. apply IH; [| exact Hq].
    destruct e; cbn [after]; try exact Ho. now apply Hst.
Qed.

Lemma accounted_refl (w : World) : accounted w w.
Proof. exists []. split; [now rewrite app_nil_r | reflexivity]. Qed.

Lemma accounted_trans (w0 w1 w2 : World) :
  accounted w0 w1 -> accounted w1 w2 -> accounted w0 w2.
Proof.
  intros (e1 & L1 & O1) (e2 & L2 & O2). exists (e1 ++ e2). split.
  - now rewrite L2, L1, app_assoc.
  - now rewrite replay_app, <- O1.
Qed.

Lemma accounted_event (w w' : World) (e : Event) :
  log w' = log w ++ [e] -> outs w' = after (outs w) e -> accounted w w'.
Proof. intros Hl Ho. exists [e]. now split. Qed.

(** The stretch from [w] to [w'] is the same list, whoever names it. *)
Lemma stretch_unique (w w' : World) (a b : list Event) :
  log w' = log w ++ a -> log w' = log w ++ b -> a = b.
Proof. intros Ha Hb. rewrite Ha in Hb. now apply app_inv_head in Hb. Qed.

Lemma always_refl (I : (Pin -> bool) -> Prop) (w : World) :
  I (outs w) -> always I w w.
Proof. intros H. exists []. split; [now rewrite app_nil_r | now split]. Qed.

Lemma always_trans (I : (Pin -> bool) -> Prop) (w0 w1 w2 : World) :
  always I w0 w1 -> accounted w0 w1 -> always I w1 w2 -> always I w0 w2.
Proof.
  intros (e1 & L1 & T1) (e1' & L1' & O1) (e2 & L2 & T2).
  assert (e1' = e1) as -> by exact (stretch_unique _ _ _ _ L1' L1).
  exists (e1 ++ e2). split.
  - now rewrite L2, L1, app_assoc.
  - apply throughout_app; [exact T1 | now rewrite <- O1].
Qed.

Lemma always_weaken (I J : (Pin -> bool) -> Prop) (w w' : World) :
  (forall o, I o -> J o) -> always I w w' -> always J w w'.
Proof.
  intros HIJ (evs & L & T). exists evs.
  split; [exact L | exact (throughout_weaken _ _ _ _ HIJ T)].
Qed.

Lemma always_end (I : (Pin -> bool) -> Prop) (w w' : World) :
  always I w w' -> accounted w w' -> I (outs w').
Proof.
  intros (e & L & T) (e' & L' & O).
  assert (e' = e) as -> by exact (stretch_unique _ _ _ _ L' L).
  rewrite O. now apply throughout_end.
Qed.

(** An invariant that survives the writes of a stretch holds throughout
    it. *)
Lemma always_stable (I : (Pin -> bool) -> Prop) (Q : Event -> bool)
    (w w' : World) :
  stable I Q -> I (outs w) -> only Q w w' -> always I w w'.
Proof.
  intros Hst Ho (evs & L & F). exists evs.
  split; [exact L | exact (throughout_stable _ _ _ _ Hst Ho F)].
Qed.

Lemma safe_of_loading (o : Pin -> bool) : loading o -> safe o.
Proof.
  unfold loading, safe, RELAY_MODULE_ON, RELAY_MODULE_OFF, HIGH, LOW.
  intros [H1 H2]. split; intros H; congruence.
Qed.

Lemma safe_of_draining (o : Pin -> bool) : draining o -> safe o.
Proof.
  unfold draining, safe, RELAY_MODULE_ON, RELAY_MODULE_OFF, HIGH, LOW.
  intros (H1 & H2 & H3). split; intros H; [congruence | now split].
Qed.

Lemma safe_of_washing (o : Pin -> bool) : washing o -> safe o.
Proof.
  unfold washing, safe, RELAY_MODULE_ON, RELAY_MODULE_OFF, HIGH, LOW.
  intros (H1 & H2 & H3). split; intros H; [now repeat split | congruence].
Qed.

Lemma all_off_loading (o : Pin -> bool) : all_off o -> loading o.
Proof. intros (H1 & H2 & H3 & _). now split. Qed.

Lemma all_off_draining (o : Pin -> bool) : all_off o -> draining o.
Proof. intros (H1 & H2 & H3 & H4 & H5 & H6). now repeat split. Qed.

Lemma stable_loading : stable loading (io_event load_lines).
Proof.
  intros o p level [H1 H2] Hq. cbn [io_event] in Hq.
  apply andb_prop in Hq. destruct Hq as [_ Hq].
  unfold loading, set_pin.
  destruct p, level; cbn in Hq |- *; try discriminate Hq; now split.
Qed.

Lemma stable_draining : stable draining (io_event drain_lines).
Proof.
  intros o p level (H1 & H2 & H3) Hq. cbn [io_event] in Hq.
  apply andb_prop in Hq. destruct Hq as [_ Hq].
  unfold draining, set_pin.
  destruct p, level; cbn in Hq |- *; try discriminate Hq; now repeat split.
Qed.

(** [reset] keeps the outputs safe at each of its steps, because it
    switches the heater off first. *)
Lemma reset_keeps_safe (ms : Z) (w : World) :
  safe (outs w) -> always safe w (reset ms w).
Proof.
  intros Hs. exists (reset_events (ulong ms)).
  split; [apply reset_log |].
  generalize dependent (outs w). intros o [H1 H2].
  unfold reset_events, safe, RELAY_MODULE_ON, RELAY_MODULE_OFF, LED_OFF,
    HIGH, LOW in *.
  cbn. unfold set_pin. cbn.
  destruct (o HEATER_PIN), (o MAIN_PUMP_PIN), (o WATER_LOAD_PIN),
    (o DRAIN_PIN);
    try specialize (H1 eq_refl); try specialize (H2 eq_refl);
    intuition congruence.
Qed.

(** *** The log accounts for the outputs *)

Lemma accounted_delay (ms : Z) (w : World) : accounted w (delay ms w).
Proof. now apply (accounted_event _ _ (EvDelay (ulong ms))). Qed.

Lemma accounted_tone (p : Pin) (f d : Z) (w : World) :
  accounted w (tone p f d w).
Proof. now apply (accounted_event _ _ (EvTone p f d)). Qed.

Lemma accounted_write (p : Pin) (v : bool) (w : World) :
  accounted w (digitalWrite p v w).
Proof. now apply (accounted_event _ _ (EvWrite p v)). Qed.

Lemma accounted_digitalRead (hw : Sensors) (p : Pin) (w : World) :
  accounted w (snd (digitalRead hw p w)).
Proof.
  now apply (accounted_event _ _
               (EvRead p (digital_in hw p (now w) (outs w)))).
Qed.

Lemma accounted_switchPressed (hw : Sensors) (w : World) :
  accounted w (snd (switchPressed hw w)).
Proof. apply (accounted_digitalRead hw SWITCH_PIN w). Qed.

Lemma accounted_analogRead (hw : Sensors) (p : Pin) (w : World) :
  accounted w (snd (analogRead hw p w)).
Proof.
  now apply (accounted_event _ _
               (EvAnalog p (analog_in hw p (now w) (outs w)))).
Qed.

Lemma accounted_beep_loop (n : nat) (l d : Z) (w : World) :
  accounted w (beep_loop n l d w).
Proof.
  revert w. induction n as [| n IH]; intros w; cbn [beep_loop].
  - apply accounted_refl.
  - eapply accounted_trans; [| apply IH].
    eapply accounted_trans; [apply accounted_tone | apply accounted_delay].
Qed.

Lemma accounted_beep (many l d : Z) (w : World) :
  accounted w (beep many l d w).
Proof. apply accounted_beep_loop. Qed.

Lemma accounted_beepMessage (message : Z) (w : World) :
  accounted w (beepMessage message w).
Proof. unfold beepMessage. eapply accounted_trans; apply accounted_beep. Qed.

Lemma accounted_beepError (issue : Z) (w : World) :
  accounted w (beepError issue w).
Proof.
  unfold beepError.
  eapply accounted_trans; [apply accounted_beep |].
  eapply accounted_trans; [apply accounted_delay | apply accounted_beep].
Qed.

Lemma accounted_reset (ms : Z) (w : World) : accounted w (reset ms w).
Proof.
  unfold reset.
  repeat (eapply accounted_trans;
          [| first [apply accounted_delay | apply accounted_write]]).
  apply accounted_refl.
Qed.

Lemma accounted_crash {A : Type} (issue : Z) (w : World) :
  accounted w (snd (@crash A issue w)).
Proof. apply accounted_reset. Qed.

Lemma accounted_isLoaded_loop (hw : Sensors) (n : nat) (w : World) :
  accounted w (snd (isLoaded_loop hw n w)).
Proof.
  revert w. induction n as [| n IH]; intros w; cbn [isLoaded_loop].
  - apply accounted_refl.
  - pose proof (accounted_digitalRead hw WATER_DISABLED_PIN w) as Hr.
    destruct (digitalRead hw WATER_DISABLED_PIN w) as [[] w1]; cbn [snd] in *.
    + exact Hr.
    + eapply accounted_trans; [exact Hr |].
      eapply accounted_trans; [apply accounted_delay | apply IH].
Qed.

Lemma accounted_isLoaded (hw : Sensors) (w : World) :
  accounted w (snd (isLoaded hw w)).
Proof. apply accounted_isLoaded_loop. Qed.

Lemma accounted_eval {A : Type} (f : World -> A * World) (w : World) :
  accounted w (snd (f w)) -> accounted w (snd (eval f w)).
Proof. unfold eval. now destruct (f w). Qed.

Lemma accounted_bind {A B : Type} (c : M A) (k : A -> M B) (w : World) :
  accounted w (snd (c w)) ->
  (forall a w1, accounted w1 (snd (k a w1))) ->
  accounted w (snd (bind c k w)).
Proof.
  intros Hc Hk. unfold bind. destruct (c w) as [[a | issue |] w1]; cbn in *.
  - eapply accounted_trans; [exact Hc | apply Hk].
  - exact Hc.
  - exact Hc.
Qed.

Lemma accounted_wait_base_level (hw : Sensors) (fuel : nat) (t : Z)
    (w : World) :
  accounted w (snd (wait_base_level hw fuel t w)).
Proof.
  revert w. induction fuel as [| fuel IH]; intros w;
    cbn [wait_base_level]; [apply accounted_refl |].
  pose proof (accounted_isLoaded hw w) as Hr.
  destruct (isLoaded hw w) as [loaded w1]. cbn [snd] in Hr.
  split_if; [| exact Hr].
  eapply accounted_trans; [exact Hr |].
  eapply accounted_trans; [apply accounted_delay | apply IH].
Qed.

Lemma accounted_wait_double_level (fuel : nat) (t l : Z) (w : World) :
  accounted w (snd (wait_double_level fuel t l w)).
Proof.
  revert w. induction fuel as [| fuel IH]; intros w;
    cbn [wait_double_level]; [apply accounted_refl |].
  split_if; [| apply accounted_refl].
  eapply accounted_trans; [apply accounted_beep |].
  eapply accounted_trans; [apply accounted_delay | apply IH].
Qed.

Lemma accounted_wait_agitation (fuel : nat) (t l : Z) (w : World) :
  accounted w (snd (wait_agitation fuel t l w)).
Proof.
  revert w. induction fuel as [| fuel IH]; intros w;
    cbn [wait_agitation]; [apply accounted_refl |].
  split_if; [| apply accounted_refl].
  eapply accounted_trans; [apply accounted_beep |].
  eapply accounted_trans; [apply accounted_delay | apply IH].
Qed.

Lemma accounted_wait_top_up (hw : Sensors) (fuel : nat) (t l : Z)
    (w : World) :
  accounted w (snd (wait_top_up hw fuel t l w)).
Proof.
  revert w. induction fuel as [| fuel IH]; intros w;
    cbn [wait_top_up]; [apply accounted_refl |].
  pose proof (accounted_isLoaded hw w) as Hr.
  destruct (isLoaded hw w) as [loaded w1]. cbn [snd] in Hr.
  split_if; [| exact Hr].
  eapply accounted_trans; [exact Hr |].
  eapply accounted_trans; [apply accounted_beep |].
  eapply accounted_trans; [apply accounted_delay | apply IH].
Qed.

Lemma accounted_wait_for_switch (hw : Sensors) (fuel : nat) (w : World) :
  accounted w (snd (wait_for_switch hw fuel w)).
Proof.
  revert w. induction fuel as [| fuel IH]; intros w;
    cbn [wait_for_switch]; [apply accounted_refl |].
  pose proof (accounted_switchPressed hw w) as Hr.
  destruct (switchPressed hw w) as [pressed w1]. cbn [snd] in Hr.
  split_if; [| exact Hr].
  eapply accounted_trans; [exact Hr |].
  eapply accounted_trans; [apply accounted_delay | apply IH].
Qed.

Lemma accounted_release_soap (soap : bool) (w : World) :
  accounted w (release_soap soap w).
Proof.
  unfold release_soap. destruct soap; [| apply accounted_refl].
  repeat (eapply accounted_trans;
          [| first [apply accounted_delay | apply accounted_write]]).
  apply accounted_refl.
Qed.

Lemma accounted_start_heater (temperature Vo : Z) (w : World) :
  accounted w (start_heater temperature Vo w).
Proof.
  unfold start_heater. split_if; [| apply accounted_refl].
  eapply accounted_trans; [apply accounted_write | apply accounted_delay].
Qed.

Lemma accounted_heartbeat (w : World) : accounted w (heartbeat w).
Proof.
  unfold heartbeat.
  repeat (eapply accounted_trans;
          [| first [apply accounted_delay | apply accounted_write]]).
  apply accounted_refl.
Qed.

(** One call of straight-line code. *)
Ltac accounted_step :=
  match goal with
  | |- accounted ?w ?w => apply accounted_refl
  | |- accounted _ (snd (bind _ _ _)) => apply accounted_bind; [| intros ? ?]
  | |- accounted _ (snd (exec _ _)) => unfold exec; cbn [snd]
  | |- accounted _ (snd (eval ?f ?w)) => apply (accounted_eval f w)
  | |- accounted _ (snd (crash _ _)) => apply accounted_crash
  | |- accounted _ (snd (ret _ _)) => apply accounted_refl
  | |- accounted _ (snd (get_millis _)) => apply accounted_refl
  | |- accounted _ (reset _ _) => apply accounted_reset
  | |- accounted _ (beep _ _ _ _) => apply accounted_beep
  | |- accounted _ (beepMessage _ _) => apply accounted_beepMessage
  | |- accounted _ (beepError _ _) => apply accounted_beepError
  | |- accounted _ (delay _ _) => apply accounted_delay
  | |- accounted _ (digitalWrite _ _ _) => apply accounted_write
  | |- accounted _ (release_soap _ _) => apply accounted_release_soap
  | |- accounted _ (start_heater _ _ _) => apply accounted_start_heater
  | |- accounted _ (snd (isLoaded _ _)) => apply accounted_isLoaded
  | |- accounted _ (snd (switchPressed _ _)) => apply accounted_switchPressed
  | |- accounted _ (snd (analogRead _ _ _)) => apply accounted_analogRead
  | |- accounted _ (snd (wait_base_level _ _ _ _)) =>
      apply accounted_wait_base_level
  | |- accounted _ (snd (wait_double_level _ _ _ _)) =>
      apply accounted_wait_double_level
  | |- accounted _ (snd (wait_agitation _ _ _ _)) =>
      apply accounted_wait_agitation
  | |- accounted _ (snd (wait_top_up _ _ _ _ _)) =>
      apply accounted_wait_top_up
  | |- accounted _ (snd (wait_for_switch _ _ _)) =>
      apply accounted_wait_for_switch
  | |- accounted _ (snd ((if ?c then _ else _) _)) => destruct c
  end.

Lemma accounted_load (hw : Sensors) (fuel : nat) (w : World) :
  accounted w (snd (load hw fuel w)).
Proof.
  unfold load, load_base, load_double, load_agitate, load_top_up, load_finish.
  repeat accounted_step.
Qed.

Lemma accounted_drain (hw : Sensors) (w : World) :
  accounted w (snd (drain hw w)).
Proof. unfold drain. repeat accounted_step. Qed.

Lemma accounted_heat_control (hw : Sensors)
    (temperature cycleStarts Vo washStarts : Z) (w : World) :
  accounted w (snd (heat_control hw temperature cycleStarts Vo washStarts w)).
Proof.
  unfold heat_control. destruct (temperature <? Vo); repeat accounted_step.
Qed.

Lemma accounted_wash_loop (hw : Sensors) (fuel : nat)
    (washTime temperature cycleStarts Vo washStarts : Z) (w : World) :
  accounted w
    (snd (wash_loop hw fuel washTime temperature cycleStarts
            Vo washStarts w)).
Proof.
  revert Vo washStarts w. induction fuel as [| fuel IH];
    intros Vo washStarts w; cbn [wash_loop]; [apply accounted_refl |].
  split_if; [| apply accounted_refl].
  pose proof (accounted_heat_control hw temperature cycleStarts Vo
                washStarts w) as Hh.
  destruct (heat_control hw temperature cycleStarts Vo washStarts w)
    as [[[Vo' washStarts'] | issue |] w1]; cbn [snd] in Hh; try exact Hh.
  eapply accounted_trans; [exact Hh |].
  eapply accounted_trans; [apply accounted_heartbeat | apply IH].
Qed.

Lemma accounted_wash (hw : Sensors) (fuel : nat) (washTime : Z) (soap : bool)
    (temperature : Z) (w : World) :
  accounted w (snd (wash hw fuel washTime soap temperature w)).
Proof. unfold wash. repeat accounted_step. apply accounted_wash_loop. Qed.

Lemma accounted_cycle (hw : Sensors) (fuel : nat) (washTime : Z)
    (soap : bool) (temperature : Z) (w : World) :
  accounted w (snd (cycle hw fuel washTime soap temperature w)).
Proof.
  unfold cycle.
  apply accounted_bind; [apply accounted_load | intros ? ?].
  apply accounted_bind; [apply accounted_wash | intros ? ?].
  apply accounted_drain.
Qed.

Lemma accounted_run_program (hw : Sensors) (fuel : nat) (alternative : bool)
    (w : World) :
  accounted w (snd (run_program hw fuel alternative w)).
Proof.
  unfold run_program. destruct alternative.
  - apply accounted_bind; [apply accounted_beep | intros ? ?].
    apply accounted_cycle.
  - repeat (apply accounted_bind; [apply accounted_cycle | intros ? ?]).
    apply accounted_cycle.
Qed.

(** *** Safe outputs, procedure by procedure *)

(** One call of straight-line code, for a given set of lines. *)
Ltac io_lines_step :=
  match goal with
  | |- only _ ?w ?w => apply only_refl
  | |- only _ _ (snd (bind _ _ _)) => apply only_bind; [| intros ? ?]
  | |- only _ _ (snd (exec _ _)) => unfold exec; cbn [snd]
  | |- only _ _ (snd (eval ?f ?w)) => apply (io_eval _ f w)
  | |- only _ _ (snd (crash _ _)) => apply io_crash
  | |- only _ _ (snd (ret _ _)) => apply only_refl
  | |- only _ _ (snd (get_millis _)) => apply only_refl
  | |- only _ _ (reset _ _) => apply io_reset
  | |- only _ _ (beep _ _ _ _) => apply io_beep
  | |- only _ _ (beepMessage _ _) => apply io_beepMessage
  | |- only _ _ (beepError _ _) => apply io_beepError
  | |- only _ _ (delay _ _) => apply io_delay
  | |- only _ _ (digitalWrite _ _ _) =>
      apply io_write;
      [reflexivity | first [left; reflexivity | right; reflexivity]]
  | |- only _ _ (snd (isLoaded _ _)) => apply io_isLoaded
  | |- only _ _ (snd (switchPressed _ _)) => apply io_switchPressed
  | |- only _ _ (snd (analogRead _ _ _)) => apply io_analogRead
  | |- only _ _ (snd (wait_base_level _ _ _ _)) => apply io_wait_base_level
  | |- only _ _ (snd (wait_double_level _ _ _ _)) =>
      apply io_wait_double_level
  | |- only _ _ (snd (wait_agitation _ _ _ _)) => apply io_wait_agitation
  | |- only _ _ (snd (wait_top_up _ _ _ _ _)) => apply io_wait_top_up
  | |- only _ _ (snd (wait_for_switch _ _ _)) => apply io_wait_for_switch
  | |- only _ _ (snd ((if ?c then _ else _) _)) => destruct c
  end.

Lemma stable_no_write (I : (Pin -> bool) -> Prop) : stable I no_write.
Proof. intros o p level _ H. discriminate H. Qed.

Lemma pause_no_write (e : Event) : is_pause e = true -> no_write e = true.
Proof. now destruct e. Qed.

Lemma io_no_line_no_write_reads (hw : Sensors) (w : World) :
  only no_write w (snd (isLoaded hw w)) /\
  only no_write w (snd (switchPressed hw w)) /\
  only no_write w (snd (analogRead hw TEMP_SENSOR w)).
Proof.
  split; [| split]; try now eapply only_event.
  unfold isLoaded. generalize 10%nat. intros n. revert w.
  induction n as [| n IH]; intros w; cbn [isLoaded_loop]; [apply only_refl |].
  assert (only no_write w (snd (digitalRead hw WATER_DISABLED_PIN w))) as Hr
    by now eapply only_event.
  destruct (digitalRead hw WATER_DISABLED_PIN w) as [[] w1]; cbn [snd] in *.
  - exact Hr.
  - eapply only_trans; [exact Hr |].
    eapply only_trans; [now apply only_delay | apply IH].
Qed.

Lemma keeps_safe_bind {A B : Type} (c : M A) (k : A -> M B) :
  keeps_safe c -> (forall a, keeps_safe (k a)) -> keeps_safe (bind c k).
Proof.
  intros Hc Hk w. destruct (Hc w) as [Hacc Hsafe]. split.
  - apply accounted_bind; [exact Hacc | intros a w1; apply Hk].
  - intros Hs. specialize (Hsafe Hs).
    pose proof (always_end _ _ _ Hsafe Hacc) as Hend.
    unfold bind. destruct (c w) as [[a | issue |] w1]; cbn [snd] in *;
      try exact Hsafe.
    apply (always_trans _ _ _ _ Hsafe Hacc). now apply Hk.
Qed.

(** A step that writes to no pin. *)
Lemma keeps_safe_quiet (f : World -> World) :
  (forall w, accounted w (f w)) -> (forall w, only no_write w (f w)) ->
  keeps_safe (exec f).
Proof.
  intros Hacc Hq w. split; [apply Hacc |]. intros Hs.
  exact (always_stable _ _ _ _ (stable_no_write safe) Hs (Hq w)).
Qed.

Lemma keeps_safe_read {A : Type} (f : World -> A * World) :
  (forall w, accounted w (snd (f w))) ->
  (forall w, only no_write w (snd (f w))) ->
  keeps_safe (eval f).
Proof.
  intros Hacc Hq w. split; [apply accounted_eval, Hacc |]. intros Hs.
  unfold eval. specialize (Hq w). destruct (f w) as [a w1]. cbn [snd] in *.
  exact (always_stable _ _ _ _ (stable_no_write safe) Hs Hq).
Qed.

Lemma keeps_safe_ret {A : Type} (a : A) : keeps_safe (ret a).
Proof.
  intros w. split; [apply accounted_refl | intros Hs; now apply always_refl].
Qed.

Lemma keeps_safe_crash {A : Type} (issue : Z) : keeps_safe (@crash A issue).
Proof.
  intros w. split; [apply accounted_crash | apply reset_keeps_safe].
Qed.

Lemma keeps_safe_reset (ms : Z) : keeps_safe (exec (reset ms)).
Proof.
  intros w. split; [apply accounted_reset | apply reset_keeps_safe].
Qed.

Lemma keeps_safe_beep (many l d : Z) : keeps_safe (exec (beep many l d)).
Proof.
  apply keeps_safe_quiet; intros w; [apply accounted_beep |].
  apply (only_weaken is_pause); [apply pause_no_write | apply only_pause_beep].
Qed.

Lemma keeps_safe_beepMessage (message : Z) :
  keeps_safe (exec (beepMessage message)).
Proof.
  apply keeps_safe_quiet; intros w; [apply accounted_beepMessage |].
  unfold beepMessage.
  eapply only_trans;
    (apply (only_weaken is_pause);
     [apply pause_no_write | apply only_pause_beep]).
Qed.

Lemma keeps_safe_beepError (issue : Z) : keeps_safe (exec (beepError issue)).
Proof.
  apply keeps_safe_quiet; intros w; [apply accounted_beepError |].
  unfold beepError.
  eapply only_trans;
    [apply (only_weaken is_pause);
     [apply pause_no_write | apply only_pause_beep] |].
  eapply only_trans; [now apply only_delay |].
  apply (only_weaken is_pause); [apply pause_no_write | apply only_pause_beep].
Qed.

Lemma keeps_safe_delay (ms : Z) : keeps_safe (exec (delay ms)).
Proof.
  apply keeps_safe_quiet; intros w;
    [apply accounted_delay | now apply only_delay].
Qed.

Section KeepsSafe.

Variable hw : Sensors.

Lemma keeps_safe_isLoaded : keeps_safe (eval (isLoaded hw)).
Proof.
  apply keeps_safe_read; intros w;
    [apply accounted_isLoaded | apply io_no_line_no_write_reads].
Qed.

Lemma keeps_safe_switchPressed : keeps_safe (eval (switchPressed hw)).
Proof.
  apply keeps_safe_read; intros w;
    [apply accounted_switchPressed | apply io_no_line_no_write_reads].
Qed.

Lemma only_no_write_wait_for_switch (fuel : nat) (w : World) :
  only no_write w (snd (wait_for_switch hw fuel w)).
Proof.
  revert w. induction fuel as [| fuel IH]; intros w;
    cbn [wait_for_switch]; [apply only_refl |].
  assert (only no_write w (snd (switchPressed hw w))) as Hr
    by apply io_no_line_no_write_reads.
  destruct (switchPressed hw w) as [pressed w1]. cbn [snd] in Hr.
  split_if; [| exact Hr].
  eapply only_trans; [exact Hr |].
  eapply only_trans; [now apply only_delay | apply IH].
Qed.

Lemma keeps_safe_wait_for_switch (fuel : nat) :
  keeps_safe (wait_for_switch hw fuel).
Proof.
  intros w. split; [apply accounted_wait_for_switch | intros Hs].
  exact (always_stable _ _ _ _ (stable_no_write safe) Hs
           (only_no_write_wait_for_switch fuel w)).
Qed.

(** [drain]: after its [reset] everything is off, and only the drain pump
    is switched. *)
Lemma keeps_safe_drain : keeps_safe (drain hw).
Proof.
  intros w. split; [apply accounted_drain | intros Hs].
  change (drain hw w)
    with ((exec (digitalWrite DRAIN_PIN RELAY_MODULE_ON) ;;
           exec (beepMessage DRAIN_MSG) ;;
           exec (delay DRAIN_TIME) ;;
           exec (digitalWrite DRAIN_PIN RELAY_MODULE_OFF) ;;
           loaded <- eval (isLoaded hw) ;;
           if loaded : bool then crash DRAIN_ISSUE else ret tt)
            (reset 1000 w)).
  apply (always_trans _ _ _ _ (reset_keeps_safe 1000 w Hs)
           (accounted_reset 1000 w)).
  pose proof (all_off_draining _ (reset_all_off 1000 w)) as Hd.
  generalize dependent (reset 1000 w). intros w0 Hd.
  apply (always_weaken draining); [apply safe_of_draining |].
  apply (always_stable _ _ _ _ stable_draining Hd).
  repeat io_lines_step.
Qed.

(** [load]: after its [reset] the heater and the drain pump are off, and
    only the valve and the main pump are switched. *)
Lemma keeps_safe_load (fuel : nat) : keeps_safe (load hw fuel).
Proof.
  intros w. split; [apply accounted_load | intros Hs].
  change (load hw fuel w)
    with ((loadTime <-
             (exec (beepMessage LOAD_MSG) ;;
              loadStarts <- get_millis ;;
              exec (digitalWrite WATER_LOAD_PIN RELAY_MODULE_ON) ;;
              wait_base_level hw fuel loadStarts ;;
              loaded <- eval (isLoaded hw) ;;
              t <- get_millis ;;
              (if negb loaded && (LOAD_TIMEOUT <=? usub t loadStarts)
               then crash FAILED_LOAD_ISSUE else ret tt) ;;
              t <- get_millis ;;
              ret (usub t loadStarts)) ;;
           load_double fuel loadTime ;;
           load_agitate fuel loadTime ;;
           load_top_up hw fuel loadTime ;;
           load_finish hw) (reset 200 w)).
  apply (always_trans _ _ _ _ (reset_keeps_safe 200 w Hs)
           (accounted_reset 200 w)).
  pose proof (all_off_loading _ (reset_all_off 200 w)) as Hd.
  generalize dependent (reset 200 w). intros w0 Hd.
  apply (always_weaken loading); [apply safe_of_loading |].
  apply (always_stable _ _ _ _ stable_loading Hd).
  unfold load_double, load_agitate, load_top_up, load_finish.
  repeat io_lines_step.
Qed.

(** A load that completed leaves the outputs as the wash needs them. *)
Lemma load_done_washing (fuel : nat) (w w' : World) :
  load hw fuel w = (Done tt, w') -> washing (outs w').
Proof.
  intros Hload. apply load_done_inv in Hload.
  destruct Hload as (loadTime & w1 & w2 & w3 & w4 & H1 & H2 & H3 & H4 & H5).
  apply load_base_outs in H1. apply load_double_outs in H2.
  apply load_agitate_outs in H3. apply load_top_up_outs in H4.
  rewrite load_finish_eq in H5.
  pose proof (isLoaded_outs hw w4) as Ho.
  destruct (fst (isLoaded hw w4)); [| discriminate H5].
  injection H5 as <-.
  rewrite outs_delay, outs_digitalWrite, Ho, H4, H3, H2, H1.
  repeat split.
Qed.

Lemma stable_washing : stable washing wash_write.
Proof.
  intros o p level (H1 & H2 & H3) Hq. unfold washing, set_pin.
  destruct p; cbn in Hq |- *; try discriminate Hq; now repeat split.
Qed.

Lemma wash_write_pause (e : Event) : is_pause e = true -> wash_write e = true.
Proof. now destruct e. Qed.

Lemma only_wash_write_heartbeat (w : World) : only wash_write w (heartbeat w).
Proof.
  unfold heartbeat.
  repeat (eapply only_trans;
          [| first [now apply only_delay | now apply only_write]]).
  apply only_refl.
Qed.

(** The wash loop from outputs as the wash needs them: pass after pass
    only the heater and the LED are switched, and a [crash] switches the
    heater off first. *)
Lemma wash_loop_keeps_safe (fuel : nat)
    (washTime temperature cycleStarts Vo washStarts : Z) (w : World) :
  washing (outs w) ->
  always safe w
    (snd (wash_loop hw fuel washTime temperature cycleStarts
            Vo washStarts w)).
Proof.
  revert Vo washStarts w. induction fuel as [| fuel IH];
    intros Vo washStarts w Hw; cbn [wash_loop];
    [apply always_refl; now apply safe_of_washing |].
  split_if; [| apply always_refl; now apply safe_of_washing].
  rewrite heat_control_eq. cbv zeta.
  (* a pass that ends in [w2], with only the heater and the LED switched *)
  assert (forall w2 Vo' washStarts',
            only wash_write w w2 -> accounted w w2 ->
            always safe w
              (snd (wash_loop hw fuel washTime temperature cycleStarts
                      Vo' washStarts' w2))) as Hpass.
  { intros w2 Vo' washStarts' Hq Hacc.
    pose proof (always_stable _ _ _ _ stable_washing Hw Hq) as Hal.
    pose proof (always_end _ _ _ Hal Hacc) as Hw2.
    apply (always_trans _ _ _ _
             (always_weaken _ _ _ _ safe_of_washing Hal) Hacc).
    now apply IH. }
  destruct (temperature <? Vo).
  - apply Hpass.
    + eapply only_trans; [| apply only_wash_write_heartbeat].
      now apply only_write.
    + eapply accounted_trans; [apply accounted_write |].
      apply accounted_heartbeat.
  - assert (only wash_write w (snd (analogRead hw TEMP_SENSOR w))) as Hq1
      by now eapply only_event.
    pose proof (accounted_analogRead hw TEMP_SENSOR w) as Hacc1.
    split_if.
    + (* the timeout *)
      pose proof (always_stable _ _ _ _ stable_washing Hw Hq1) as Hal.
      pose proof (always_end _ _ _ Hal Hacc1) as Hw1.
      apply (always_trans _ _ _ _
               (always_weaken _ _ _ _ safe_of_washing Hal) Hacc1).
      apply reset_keeps_safe. now apply safe_of_washing.
    + apply Hpass.
      * eapply only_trans; [exact Hq1 |].
        eapply only_trans; [| apply only_wash_write_heartbeat].
        apply (only_weaken is_pause);
          [apply wash_write_pause | apply only_pause_beep].
      * eapply accounted_trans; [exact Hacc1 |].
        eapply accounted_trans; [apply accounted_beep |].
        apply accounted_heartbeat.
Qed.

Lemma wash_keeps_safe (fuel : nat) (washTime : Z) (soap : bool)
    (temperature : Z) (w : World) :
  washing (outs w) ->
  always safe w (snd (wash hw fuel washTime soap temperature w)).
Proof.
  intros Hw. rewrite wash_eq. cbv zeta.
  assert (only wash_write w (cycle_start hw soap temperature w)) as Hq.
  { unfold cycle_start. cbv zeta.
    eapply only_trans; [| unfold start_heater; split_if;
                          [eapply only_trans;
                           [| now apply only_delay]; now apply only_write
                          | apply only_refl]].
    eapply only_trans; [| now eapply only_event].
    unfold release_soap. destruct soap; [| apply only_refl].
    repeat (eapply only_trans;
            [| first [now apply only_delay | now apply only_write]]).
    apply only_refl. }
  assert (accounted w (cycle_start hw soap temperature w)) as Hacc.
  { unfold cycle_start. cbv zeta.
    eapply accounted_trans; [apply accounted_release_soap |].
    eapply accounted_trans; [apply accounted_analogRead |].
    apply accounted_start_heater. }
  generalize dependent (cycle_start hw soap temperature w). intros wc Hq Hacc.
  generalize (analog_in hw TEMP_SENSOR (now (release_soap soap w))
                (outs (release_soap soap w))). intros Vo.
  pose proof (always_stable _ _ _ _ stable_washing Hw Hq) as Hal.
  pose proof (always_end _ _ _ Hal Hacc) as Hwc.
  apply (always_trans _ _ _ _
           (always_weaken _ _ _ _ safe_of_washing Hal) Hacc).
  now apply wash_loop_keeps_safe.
Qed.

Lemma keeps_safe_cycle (fuel : nat) (washTime : Z) (soap : bool)
    (temperature : Z) :
  keeps_safe (cycle hw fuel washTime soap temperature).
Proof.
  intros w. split; [apply accounted_cycle | intros Hs].
  destruct (keeps_safe_load fuel w) as [Hacc Hload].
  specialize (Hload Hs).
  unfold cycle, bind at 1.
  destruct (load hw fuel w) as [[[] | issue |] w1] eqn:E; cbn [snd] in *;
    try exact Hload.
  apply (always_trans _ _ _ _ Hload Hacc).
  apply load_done_washing in E.
  pose proof (wash_keeps_safe fuel washTime soap temperature w1 E) as Hwash.
  pose proof (accounted_wash hw fuel washTime soap temperature w1) as Hacc2.
  pose proof (always_end _ _ _ Hwash Hacc2) as Hend.
  unfold bind.
  destruct (wash hw fuel washTime soap temperature w1)
    as [[[] | issue |] w2]; cbn [snd] in *; try exact Hwash.
  apply (always_trans _ _ _ _ Hwash Hacc2). now apply keeps_safe_drain.
Qed.

Lemma keeps_safe_run_program (fuel : nat) (alternative : bool) :
  keeps_safe (run_program hw fuel alternative).
Proof.
  unfold run_program. destruct alternative.
  - apply keeps_safe_bind; [apply keeps_safe_beep | intros _].
    apply keeps_safe_cycle.
  - repeat (apply keeps_safe_bind; [apply keeps_safe_cycle | intros _]).
    apply keeps_safe_cycle.
Qed.

Lemma keeps_safe_setup : keeps_safe (setup hw).
Proof.
  unfold setup.
  apply keeps_safe_bind; [apply keeps_safe_reset | intros _].
  apply keeps_safe_bind; [apply keeps_safe_switchPressed | intros pressed].
  apply keeps_safe_bind;
    [destruct pressed; [apply keeps_safe_crash | apply keeps_safe_ret]
    | intros _].
  apply keeps_safe_bind; [apply keeps_safe_isLoaded | intros loaded].
  apply keeps_safe_bind; [| intros _; apply keeps_safe_beepMessage].
  destruct loaded; [| apply keeps_safe_ret].
  apply keeps_safe_bind; [apply keeps_safe_beepError | intros _].
  apply keeps_safe_drain.
Qed.

Lemma keeps_safe_loop (fuel : nat) : keeps_safe (loop hw fuel).
Proof.
  unfold loop.
  apply keeps_safe_bind; [apply keeps_safe_wait_for_switch | intros _].
  apply keeps_safe_bind; [apply keeps_safe_beep | intros _].
  apply keeps_safe_bind; [apply keeps_safe_delay | intros _].
  apply keeps_safe_bind; [apply keeps_safe_switchPressed | intros pressed].
  apply keeps_safe_bind; [apply keeps_safe_run_program | intros _].
  intros w. split; [apply accounted_write | intros Hs].
  exists [EvWrite LED_PIN LED_ON]. split; [reflexivity |].
  cbn. split; [exact Hs |]. split; [| exact I].
  destruct Hs as [H1 H2]. split; intros H; [now apply H1 | now apply H2].
Qed.

End KeepsSafe.

(** X13. The outputs are safe at every instant.  Started with safe outputs
    (say, everything off), [setup], [loop] and every [cycle] keep them safe
    after each of their writes, whatever the sensors show and however the run
    ends: the heater is on only while the main pump runs, the valve is closed
    and the drain pump is off, and the drain pump runs only while the valve
    is closed and the main pump is off. *)
Theorem outputs_always_safe (hw : Sensors) (fuel : nat) (w : World) :
  safe (outs w) ->
  always safe w (snd (setup hw w)) /\
  always safe w (snd (loop hw fuel w)) /\
  (forall washTime soap temperature,
     always safe w (snd (cycle hw fuel washTime soap temperature w))).
Proof.
  intros Hs. split; [| split].
  - now apply keeps_safe_setup.
  - now apply keeps_safe_loop.
  - intros washTime soap temperature. now apply keeps_safe_cycle.
Qed.

Lemma outputs_always_safe_witness :
  always safe idle_world (snd (setup full_tank idle_world)) /\
  always safe idle_world (snd (loop full_tank 10 idle_world)) /\
  (forall washTime soap temperature,
     always safe idle_world
       (snd (cycle full_tank 10 washTime soap temperature idle_world))).
Proof.
  apply (outputs_always_safe full_tank 10 idle_world).
  split; cbn; intros H; discriminate H.
Defined.
